(** * fileupload: content-addressed storage of uploaded files

    A shallow embedding of [fileupload.go] (package [fileupload]) together
    with the parts of the Go standard library that decide its behaviour:
    [crypto/sha256], [encoding/hex], [encoding/base64], [path], [strings],
    the regular expression [regexpImageBase64], [fmt.Sprintf] with the
    verbs [%04d] and [%02d], and a model of the file system calls of
    package [os].

    Go strings and byte slices are both sequences of bytes; they are
    modelled by [string] (a list of 8-bit [ascii] characters).  Go's
    [int64] sizes are modelled by [Z]. *)

From Stdlib Require Import ZArith NArith Ascii String List Lia Bool.
From stdpp Require Import base option gmap strings list.

Local Open Scope string_scope.
Local Open Scope Z_scope.

(** ** Bytes *)

Module Bytes.

Definition to_Z (c : ascii) : Z := Z.of_N (N_of_ascii c).
Definition of_Z (z : Z) : ascii := ascii_of_N (Z.to_N (Z.land z 255)).

Fixpoint to_list (s : string) : list ascii :=
  match s with
  | EmptyString => nil
  | String c s' => c :: to_list s'
  end.

Fixpoint of_list (l : list ascii) : string :=
  match l with
  | nil => EmptyString
  | c :: l' => String c (of_list l')
  end.

(** [len(s)] as an [int]. *)
Definition len (s : string) : Z := Z.of_nat (String.length s).

End Bytes.

(** ** crypto/sha256

    The block function follows [blockGeneric] of the Go runtime; words are
    [uint32], modelled by [Z] with the wrap-around written out. *)

Module Sha256.

Definition u32 (x : Z) : Z := x mod 2 ^ 32.
Definition add32 (x y : Z) : Z := u32 (x + y).
(** [bits.RotateLeft32(x, -n)] *)
Definition rotr (n x : Z) : Z :=
  Z.lor (Z.shiftr x n) (u32 (Z.shiftl x (32 - n))).
(** [^x] on a [uint32] *)
Definition not32 (x : Z) : Z := Z.lxor x 0xffffffff.

Definition _K : list Z :=
  [ 0x428A2F98; 0x71374491; 0xB5C0FBCF; 0xE9B5DBA5;
    0x3956C25B; 0x59F111F1; 0x923F82A4; 0xAB1C5ED5;
    0xD807AA98; 0x12835B01; 0x243185BE; 0x550C7DC3;
    0x72BE5D74; 0x80DEB1FE; 0x9BDC06A7; 0xC19BF174;
    0xE49B69C1; 0xEFBE4786; 0x0FC19DC6; 0x240CA1CC;
    0x2DE92C6F; 0x4A7484AA; 0x5CB0A9DC; 0x76F988DA;
    0x983E5152; 0xA831C66D; 0xB00327C8; 0xBF597FC7;
    0xC6E00BF3; 0xD5A79147; 0x06CA6351; 0x14292967;
    0x27B70A85; 0x2E1B2138; 0x4D2C6DFC; 0x53380D13;
    0x650A7354; 0x766A0ABB; 0x81C2C92E; 0x92722C85;
    0xA2BFE8A1; 0xA81A664B; 0xC24B8B70; 0xC76C51A3;
    0xD192E819; 0xD6990624; 0xF40E3585; 0x106AA070;
    0x19A4C116; 0x1E376C08; 0x2748774C; 0x34B0BCB5;
    0x391C0CB3; 0x4ED8AA4A; 0x5B9CCA4F; 0x682E6FF3;
    0x748F82EE; 0x78A5636F; 0x84C87814; 0x8CC70208;
    0x90BEFFFA; 0xA4506CEB; 0xBEF9A3F7; 0xC67178F2 ].

(** The chaining value [dig.h] and the working variables [a..h]. *)
Record state := St {
  h0 : Z; h1 : Z; h2 : Z; h3 : Z; h4 : Z; h5 : Z; h6 : Z; h7 : Z
}.

Definition init : state :=
  St 0x6a09e667 0xbb67ae85 0x3c6ef372 0xa54ff53a
     0x510e527f 0x9b05688c 0x1f83d9ab 0x5be0cd19.

(** [w[i] = p[j]<<24 | p[j+1]<<16 | p[j+2]<<8 | p[j+3]], for [i < 16] *)
Fixpoint load_words (n : nat) (p : list ascii) : list Z :=
  match n, p with
  | S n', b0 :: b1 :: b2 :: b3 :: p' =>
      Z.lor (Z.lor (Z.lor (Z.shiftl (Bytes.to_Z b0) 24)
                          (Z.shiftl (Bytes.to_Z b1) 16))
                   (Z.shiftl (Bytes.to_Z b2) 8))
            (Bytes.to_Z b3)
      :: load_words n' p'
  | _, _ => nil
  end.

Definition wat (w : list Z) (i : nat) : Z := nth i w 0.

(** The second loop of [blockGeneric]: [w[i]] for [16 <= i < 64].  The
    schedule is kept in order; [i] is the length of [w]. *)
Fixpoint schedule (n : nat) (w : list Z) : list Z :=
  match n with
  | O => w
  | S n' =>
      let i := List.length w in
      let v1 := wat w (i - 2) in
      let t1 := Z.lxor (Z.lxor (rotr 17 v1) (rotr 19 v1)) (Z.shiftr v1 10) in
      let v2 := wat w (i - 15) in
      let t2 := Z.lxor (Z.lxor (rotr 7 v2) (rotr 18 v2)) (Z.shiftr v2 3) in
      let wi := add32 (add32 (add32 t1 (wat w (i - 7))) t2) (wat w (i - 16)) in
      schedule n' (w ++ [wi])
  end.

Definition round (s : state) (kw : Z * Z) : state :=
  let '(St a b c d e f g h) := s in
  let '(k, w) := kw in
  let t1 :=
    add32 (add32 (add32 (add32 h
      (Z.lxor (Z.lxor (rotr 6 e) (rotr 11 e)) (rotr 25 e)))
      (Z.lxor (Z.land e f) (Z.land (not32 e) g))) k) w in
  let t2 :=
    add32 (Z.lxor (Z.lxor (rotr 2 a) (rotr 13 a)) (rotr 22 a))
          (Z.lxor (Z.lxor (Z.land a b) (Z.land a c)) (Z.land b c)) in
  St (add32 t1 t2) a b c (add32 d t1) e f g.

(** One iteration of [for len(p) >= chunk] on the 64-byte chunk [p]. *)
Definition block (s : state) (p : list ascii) : state :=
  let w := schedule 48 (load_words 16 p) in
  let '(St a b c d e f g h) := fold_left round (combine _K w) s in
  St (add32 (h0 s) a) (add32 (h1 s) b) (add32 (h2 s) c) (add32 (h3 s) d)
     (add32 (h4 s) e) (add32 (h5 s) f) (add32 (h6 s) g) (add32 (h7 s) h).

Fixpoint blocks (n : nat) (s : state) (p : list ascii) : state :=
  match n with
  | O => s
  | S n' => blocks n' (block s (firstn 64 p)) (skipn 64 p)
  end.

(** [binary.BigEndian.PutUint64] / [PutUint32] *)
Definition be_bytes (n : nat) (x : Z) : list ascii :=
  map (fun i => Bytes.of_Z (Z.shiftr x (8 * Z.of_nat i))) (rev (seq 0 n)).

(** [checkSum]: a byte 0x80, zero bytes up to 56 mod 64, then the length
    in bits as a big-endian [uint64]. *)
Definition pad (msg : list ascii) : list ascii :=
  let len := List.length msg in
  let r := (len mod 64)%nat in
  let zeros := (if (r <? 56)%nat then 55 - r else 64 + 55 - r)%nat in
  msg ++ Bytes.of_Z 0x80 :: repeat (Bytes.of_Z 0) zeros
      ++ be_bytes 8 (Z.shiftl (Z.of_nat len) 3 mod 2 ^ 64).

Definition digest_bytes (s : state) : list ascii :=
  be_bytes 4 (h0 s) ++ be_bytes 4 (h1 s) ++ be_bytes 4 (h2 s) ++
  be_bytes 4 (h3 s) ++ be_bytes 4 (h4 s) ++ be_bytes 4 (h5 s) ++
  be_bytes 4 (h6 s) ++ be_bytes 4 (h7 s).

(** [h := sha256.New(); h.Write(msg); h.Sum(nil)] *)
Definition Sum256 (msg : string) : string :=
  let p := pad (Bytes.to_list msg) in
  Bytes.of_list (digest_bytes (blocks (List.length p / 64) init p)).

End Sha256.

(** ** encoding/hex *)

Module Hex.

Definition hextable : string := "0123456789abcdef".

Definition digit (n : N) : ascii :=
  match String.get (N.to_nat n) hextable with
  | Some c => c
  | None => "0"%char
  end.

(** [dst[j] = hextable[v>>4]; dst[j+1] = hextable[v&0x0f]] *)
Fixpoint EncodeToString (src : string) : string :=
  match src with
  | EmptyString => EmptyString
  | String v src' =>
      String (digit (N.shiftr (N_of_ascii v) 4))
        (String (digit (N.land (N_of_ascii v) 15)) (EncodeToString src'))
  end.

Definition is_lower_hex (c : ascii) : bool :=
  let n := N_of_ascii c in
  ((48 <=? n) && (n <=? 57) || (97 <=? n) && (n <=? 102))%N.

End Hex.

(** ** Errors

    The [error] values the package can return: the errno values of the
    file system calls, the decoding error of [encoding/base64], the
    [fmt.Errorf] of [base64Copy], and failures of the uploaded file itself
    ([Open], [Read], [Seek]). *)

Inductive error : Type :=
| ENOENT                          (* no such file or directory *)
| ENOTDIR                         (* not a directory *)
| EISDIR                          (* is a directory *)
| ENOTEMPTY                       (* directory not empty *)
| CorruptInputError (offset : Z)  (* encoding/base64 *)
| Errorf (msg : string)           (* fmt.Errorf *)
| ErrFile (msg : string).         (* multipart.File: Open, Read, Seek *)

#[global] Instance error_eq_dec : EqDecision error.
Proof. solve_decision. Defined.

(** ** strings *)

Module Strings.

(** [s[len(prefix):]] when [s] starts with [prefix] *)
Fixpoint strip (prefix s : string) : option string :=
  match prefix, s with
  | EmptyString, _ => Some s
  | String a p', String b s' => if Ascii.eqb a b then strip p' s' else None
  | String _ _, EmptyString => None
  end.

Definition HasPrefix (s prefix : string) : bool :=
  match strip prefix s with Some _ => true | None => false end.

Definition TrimPrefix (s prefix : string) : string :=
  match strip prefix s with Some t => t | None => s end.

Fixpoint take_while (f : ascii -> bool) (s : string) : string :=
  match s with
  | EmptyString => EmptyString
  | String c s' => if f c then String c (take_while f s') else EmptyString
  end.

Fixpoint drop_while (f : ascii -> bool) (s : string) : string :=
  match s with
  | EmptyString => EmptyString
  | String c s' => if f c then drop_while f s' else s
  end.

(** [strings.ReplaceAll(s, old, new)] for a non-empty [old]: the
    non-overlapping occurrences of [old], from the left.  [skip] counts the
    bytes of an occurrence that are still to be passed over. *)
Fixpoint replace_from (skip : nat) (s old new : string) : string :=
  match s with
  | EmptyString => EmptyString
  | String c s' =>
      match skip with
      | S k => replace_from k s' old new
      | O =>
          if HasPrefix s old
          then new ++ replace_from (String.length old - 1) s' old new
          else String c (replace_from O s' old new)
      end
  end.

(** For an empty [old] Go inserts [new] before every rune and at the end;
    the package never calls it so, and the model covers only byte-wise
    (ASCII) input there. *)
Fixpoint intersperse (s new : string) : string :=
  match s with
  | EmptyString => new
  | String c s' => new ++ String c (intersperse s' new)
  end.

Definition ReplaceAll (s old new : string) : string :=
  if String.eqb old new then s
  else match old with
       | EmptyString => intersperse s new
       | _ => replace_from O s old new
       end.

Fixpoint contains_byte (c : ascii) (s : string) : bool :=
  match s with
  | EmptyString => false
  | String b s' => Ascii.eqb b c || contains_byte c s'
  end.

End Strings.

(** ** path *)

Module Path.

Definition slash : ascii := "/"%char.
Definition dot : ascii := "."%char.

Definition byte_is (c : ascii) (o : option ascii) : bool :=
  match o with Some b => Ascii.eqb b c | None => false end.

(** [path.Ext]: scan from the end down to the last slash; the suffix
    from the first dot met. *)
Fixpoint ext_loop (rpath suffix : list ascii) : list ascii :=
  match rpath with
  | nil => nil
  | c :: r =>
      if Ascii.eqb c slash then nil
      else if Ascii.eqb c dot then c :: suffix
      else ext_loop r (c :: suffix)
  end.

Definition Ext (path : string) : string :=
  Bytes.of_list (ext_loop (rev (Bytes.to_list path)) nil).

(** The output buffer [lazybuf] of [Clean] holds [w] bytes; it is modelled
    by the list of these bytes, last written first, so that [out.w] is its
    length, [out.append c] is [c :: out] and [out.w--] drops the head. *)

(** [for out.w > dotdot && out.index(out.w) != '/' { out.w-- }], entered
    after a first [out.w--] that passed over the byte [c]. *)
Fixpoint backtrack_loop (c : ascii) (out : list ascii) (dotdot : nat) : list ascii :=
  match out with
  | nil => nil
  | c' :: out' =>
      if (dotdot <? List.length out)%nat && negb (Ascii.eqb c slash)
      then backtrack_loop c' out' dotdot
      else out
  end.

Definition backtrack (out : list ascii) (dotdot : nat) : list ascii :=
  match out with
  | nil => nil
  | c :: out' => backtrack_loop c out' dotdot
  end.

(** [for ; r < n && path[r] != '/'; r++ { out.append(path[r]) }] *)
Fixpoint copy_element (rest out : list ascii) : list ascii * list ascii :=
  match rest with
  | nil => (nil, out)
  | c :: rest' =>
      if Ascii.eqb c slash then (rest, out) else copy_element rest' (c :: out)
  end.

(** The main loop [for r < n] of [Clean]; [rest] is [path[r:]].  Every
    iteration consumes a byte, so [fuel = len(path)] iterations suffice. *)
Fixpoint clean_loop (fuel : nat) (rooted : bool)
    (rest out : list ascii) (dotdot : nat) : list ascii :=
  match fuel with
  | O => out
  | S fuel' =>
      match rest with
      | nil => out
      | c :: r1 =>
          if Ascii.eqb c slash then
            (* empty path element *)
            clean_loop fuel' rooted r1 out dotdot
          else if Ascii.eqb c dot
                  && (match r1 with nil => true | _ => false end || byte_is slash (head r1)) then
            (* . element *)
            clean_loop fuel' rooted r1 out dotdot
          else if Ascii.eqb c dot && byte_is dot (head r1)
                  && (match tail r1 with nil => true | _ => false end
                      || byte_is slash (head (tail r1))) then
            (* .. element: remove to last / *)
            let r2 := tail r1 in
            if (dotdot <? List.length out)%nat then
              clean_loop fuel' rooted r2 (backtrack out dotdot) dotdot
            else if negb rooted then
              let out1 := if (0 <? List.length out)%nat then slash :: out else out in
              let out2 := dot :: dot :: out1 in
              clean_loop fuel' rooted r2 out2 (List.length out2)
            else clean_loop fuel' rooted r2 out dotdot
          else
            (* real path element: add slash if needed, copy element *)
            let out1 :=
              if rooted && negb (List.length out =? 1)%nat
                 || negb rooted && negb (List.length out =? 0)%nat
              then slash :: out else out in
            let '(r', out2) := copy_element rest out1 in
            clean_loop fuel' rooted r' out2 dotdot
      end
  end.

Definition Clean (path : string) : string :=
  match path with
  | EmptyString => "."
  | String c _ =>
      let p := Bytes.to_list path in
      let rooted := Ascii.eqb c slash in
      let out :=
        if rooted then clean_loop (List.length p) rooted (tail p) [slash] 1
        else clean_loop (List.length p) rooted p nil 0 in
      match out with
      | nil => "."
      | _ => Bytes.of_list (rev out)
      end
  end.

(** The loop of [Join] that builds [buf]. *)
Fixpoint join_buf (elem : list string) (buf : string) : string :=
  match elem with
  | nil => buf
  | e :: elem' =>
      match buf, e with
      | EmptyString, EmptyString => join_buf elem' buf
      | EmptyString, _ => join_buf elem' e
      | _, _ => join_buf elem' (buf ++ String slash e)
      end
  end.

Definition Join (elem : list string) : string :=
  let size := fold_left (fun n e => (n + String.length e)%nat) elem O in
  if (size =? 0)%nat then "" else Clean (join_buf elem "").

End Path.

(** ** fmt: the verbs [%04d] and [%02d] *)

Module Fmt.

Definition digit (u : Z) : ascii := Bytes.of_Z (48 + u).

(** [for u >= 10 { buf[i] = '0' + u%10; u /= 10 }; buf[i] = '0' + u];
    a [uint64] has at most 20 decimal digits. *)
Fixpoint digits (fuel : nat) (u : Z) (buf : string) : string :=
  match fuel with
  | O => buf
  | S fuel' =>
      if 10 <=? u then digits fuel' (u / 10) (String (digit (u mod 10)) buf)
      else String (digit u) buf
  end.

Fixpoint zeros (n : nat) (buf : string) : string :=
  match n with
  | O => buf
  | S n' => zeros n' (String "0" buf)
  end.

(** [fmt.Sprintf("%0<wid>d", v)]: with the zero flag the width becomes the
    precision, less one for the sign of a negative number. *)
Definition Sprintf_0d (wid : nat) (v : Z) : string :=
  let negative := v <? 0 in
  let prec := if negative then (wid - 1)%nat else wid in
  let ds := digits 20 (Z.abs v) "" in
  let padded := zeros (prec - String.length ds) ds in
  if negative then String "-" padded else padded.

End Fmt.

(** ** encoding/base64: [StdEncoding.DecodeString] *)

Module Base64.

Definition encodeStd : string :=
  "ABCDEFGHIJKLMNOPQRSTUVWXYZabcdefghijklmnopqrstuvwxyz0123456789+/".

Definition padChar : ascii := "="%char.
Definition LF : ascii := ascii_of_nat 10.
Definition CR : ascii := ascii_of_nat 13.
Definition is_newline (c : ascii) : bool := Ascii.eqb c LF || Ascii.eqb c CR.

Fixpoint index_from (i : Z) (c : ascii) (s : string) : option Z :=
  match s with
  | EmptyString => None
  | String b s' => if Ascii.eqb b c then Some i else index_from (i + 1) c s'
  end.

(** [enc.decodeMap[in]]; [None] stands for the entry [0xff]. *)
Definition decodeMap (c : ascii) : option Z := index_from 0 c encodeStd.

(** [for si < len(src) && (src[si] == '\n' || src[si] == '\r') { si++ }] *)
Fixpoint skip_newlines (rest : list ascii) (si : Z) : list ascii * Z :=
  match rest with
  | c :: rest' => if is_newline c then skip_newlines rest' (si + 1) else (rest, si)
  | nil => (nil, si)
  end.

(** The conversion of the 6-bit values [dbuf] into [dlen - 1] bytes. *)
Definition convert (dbuf : list Z) (dlen : nat) : list ascii :=
  let d i := nth i dbuf 0 in
  let val := Z.lor (Z.lor (Z.lor (Z.shiftl (d 0%nat) 18) (Z.shiftl (d 1%nat) 12))
                          (Z.shiftl (d 2%nat) 6)) (d 3%nat) in
  firstn (dlen - 1)
    [Bytes.of_Z (Z.shiftr val 16); Bytes.of_Z (Z.shiftr val 8); Bytes.of_Z val].

(** What [decodeQuantum] returns: the unread input with its index [si],
    the decoded bytes, and the error. *)
Record quantum := Quantum {
  q_rest : list ascii; q_si : Z; q_out : list ascii; q_err : option error
}.

(** After the padding: skip newlines; anything left is trailing garbage. *)
Definition after_padding (rest : list ascii) (si : Z) (dbuf : list Z) (dlen : nat) : quantum :=
  let '(r, s) := skip_newlines rest si in
  Quantum r s (convert dbuf dlen)
    (match r with nil => None | _ => Some (CorruptInputError s) end).

(** [decodeQuantum]: the loop [for j := 0; j < len(dbuf); j++] over
    [src[si:] = rest]; [n] is [len(src)]. *)
Fixpoint decodeQuantum (n : Z) (rest : list ascii) (si : Z) (j : nat) (dbuf : list Z) : quantum :=
  match rest with
  | nil =>
      match j with
      | O => Quantum nil si nil None
      | _ => Quantum nil si nil (Some (CorruptInputError (si - Z.of_nat j)))
      end
  | c :: rest' =>
      let si := si + 1 in
      match decodeMap c with
      | Some out =>
          if (j =? 3)%nat then Quantum rest' si (convert (dbuf ++ [out]) 4) None
          else decodeQuantum n rest' si (S j) (dbuf ++ [out])
      | None =>
          if is_newline c then decodeQuantum n rest' si j dbuf
          else if negb (Ascii.eqb c padChar) then
            Quantum rest' si nil (Some (CorruptInputError (si - 1)))
          else
            match j with
            | 0%nat | 1%nat =>
                (* incorrect padding *)
                Quantum rest' si nil (Some (CorruptInputError (si - 1)))
            | 2%nat =>
                (* "==" is expected, the first "=" is already consumed *)
                let '(r2, si2) := skip_newlines rest' si in
                match r2 with
                | nil => Quantum r2 si2 nil (Some (CorruptInputError n))
                | c2 :: r3 =>
                    if negb (Ascii.eqb c2 padChar)
                    then Quantum r2 si2 nil (Some (CorruptInputError (si2 - 1)))
                    else after_padding r3 (si2 + 1) dbuf 2
                end
            | _ => after_padding rest' si dbuf 3
            end
      end
  end.

(** [Decode]: [for si < len(src)], one quantum at a time (the 8- and
    4-byte fast paths of the library decode the same quanta). *)
Fixpoint decode_loop (fuel : nat) (n : Z) (rest : list ascii) (si : Z)
    (dst : list ascii) : list ascii * option error :=
  match fuel with
  | O => (dst, None)
  | S fuel' =>
      match rest with
      | nil => (dst, None)
      | _ =>
          let q := decodeQuantum n rest si 0 nil in
          match q_err q with
          | Some e => ((dst ++ q_out q)%list, Some e)
          | None => decode_loop fuel' n (q_rest q) (q_si q) (dst ++ q_out q)
          end
      end
  end.

Definition DecodeString (s : string) : string * option error :=
  let src := Bytes.to_list s in
  let '(dst, err) := decode_loop (List.length src) (Z.of_nat (List.length src)) src 0 nil in
  (Bytes.of_list dst, err).

End Base64.

(** ** regexp: the expression [regexpImageBase64]

    The expression is [data:], white space [\s] repeated, [image/], a first
    group of one or more word characters [\w], [;base64,], and a second
    group of any characters, repeated.  It is anchored at the start of the
    text and has no alternation.  The white space is followed by the letter
    [i], the word characters by [;], and neither follower is in the class it
    follows, so a leftmost-first match takes every repetition as far as it
    goes; the any-character class excludes the line feed. *)

Module Regexp.

(** [\s] is [[\t\n\f\r ]] *)
Definition is_space (c : ascii) : bool :=
  let n := N_of_ascii c in
  ((n =? 9) || (n =? 10) || (n =? 12) || (n =? 13) || (n =? 32))%N.

(** [\w] is [[0-9A-Za-z_]] *)
Definition is_word (c : ascii) : bool :=
  let n := N_of_ascii c in
  ((48 <=? n) && (n <=? 57) || (65 <=? n) && (n <=? 90)
   || (97 <=? n) && (n <=? 122) || (n =? 95))%N.

Definition not_newline (c : ascii) : bool := negb (Ascii.eqb c Base64.LF).

(** The single match at offset 0, as [whole; group 1; group 2]. *)
Definition match_prefix (content : string) : option (list string) :=
  r1 ← Strings.strip "data:" content;
  r3 ← Strings.strip "image/" (Strings.drop_while is_space r1);
  let subtype := Strings.take_while is_word r3 in
  match subtype with
  | EmptyString => None
  | _ =>
      r5 ← Strings.strip ";base64," (Strings.drop_while is_word r3);
      let payload := Strings.take_while not_newline r5 in
      let matched := (String.length content
                      - String.length (Strings.drop_while not_newline r5))%nat in
      Some [substring 0 matched content; subtype; payload]
  end.

(** [regexpImageBase64.FindAllSubmatch(content, -1)]: a second match
    would have to start after the first, where [^] no longer holds. *)
Definition FindAllSubmatch (content : string) : list (list string) :=
  match match_prefix content with
  | Some m => [m]
  | None => nil
  end.

End Regexp.

(** ** os, path/filepath: the host and its file system

    A path names a directory entry; [resolve] gives the entry as the list
    of names from the root (the root itself is the empty list).  The file
    system maps entries to nodes; the root is always a directory.  Every
    mutating call is recorded in [trace], in program order, with the path
    it was given.  Permissions, links and device errors are not modelled:
    a call fails only for the shape of the tree. *)

Inductive node : Type :=
| File (data : string)
| Dir.

#[global] Instance node_eq_dec : EqDecision node.
Proof. solve_decision. Defined.

Inductive event : Type :=
| EvMkdirAll (path : string)
| EvRemove (path : string)
| EvCreate (path : string)
| EvWrite (path : string) (data : string).

#[global] Instance event_eq_dec : EqDecision event.
Proof. solve_decision. Defined.

Record World := mkWorld {
  fs : gmap (list string) node;
  trace : list event
}.

(** The result of a call that returns [(value, error)] with a meaningful
    value only when the error is nil. *)
Inductive res (A : Type) : Type :=
| Ok (a : A)
| Fail (e : error).
Arguments Ok {A} a.
Arguments Fail {A} e.

Class Host := {
  (** [os.PathSeparator] *)
  PathSeparator : ascii;
  (** [filepath.IsAbs] *)
  IsAbs : string -> bool;
  (** [filepath.Abs] *)
  Abs : string -> res string;
  (** the directory entry a path names; [None] for a path that names none
      (the empty path) *)
  resolve : string -> option (list string);
  (** [Size()] of a directory, which is system-dependent *)
  dirSize : Z;
  (** the empty path names no entry *)
  resolve_empty : resolve EmptyString = None
}.

Module Os.

Record FileInfo := { Size : Z; IsDir : bool }.

(** [os.IsNotExist] *)
Definition IsNotExist (e : error) : bool := bool_decide (e = ENOENT).

Definition lookup_node (m : gmap (list string) node) (k : list string) : option node :=
  match k with
  | nil => Some Dir
  | _ => m !! k
  end.

(** Some proper ancestor of [k = done ++ todo] below [done] is a file. *)
Fixpoint file_above (m : gmap (list string) node) (done todo : list string) : bool :=
  match todo with
  | nil => false
  | d :: todo' =>
      match todo' with
      | nil => false
      | _ =>
          match m !! (done ++ [d])%list with
          | Some (File _) => true
          | _ => file_above m (done ++ [d])%list todo'
          end
      end
  end.

Definition has_children (m : gmap (list string) node) (k : list string) : bool :=
  negb (bool_decide (filter (fun kv => strict prefix k (fst kv)) m = ∅)).

(** [mkdir] for every missing directory on the way to [done ++ todo]. *)
Fixpoint mkdirs (m : gmap (list string) node) (done todo : list string)
    : gmap (list string) node * option error :=
  match todo with
  | nil => (m, None)
  | d :: todo' =>
      let k := (done ++ [d])%list in
      match m !! k with
      | Some (File _) => (m, Some ENOTDIR)
      | Some Dir => mkdirs m k todo'
      | None => mkdirs (<[k := Dir]> m) k todo'
      end
  end.

Section Calls.
Context `{Host}.

Definition Stat (path : string) (w : World) : res FileInfo :=
  match resolve path with
  | None => Fail ENOENT
  | Some k =>
      if file_above (fs w) nil k then Fail ENOTDIR
      else match lookup_node (fs w) k with
           | Some (File data) => Ok {| Size := Bytes.len data; IsDir := false |}
           | Some Dir => Ok {| Size := dirSize; IsDir := true |}
           | None => Fail ENOENT
           end
  end.

Definition MkdirAll (path : string) (w : World) : option error * World :=
  let tr := (trace w ++ [EvMkdirAll path])%list in
  match resolve path with
  | None => (Some ENOENT, mkWorld (fs w) tr)
  | Some k =>
      let '(m, err) := mkdirs (fs w) nil k in
      (err, mkWorld m tr)
  end.

Definition Remove (path : string) (w : World) : option error * World :=
  let tr := (trace w ++ [EvRemove path])%list in
  match resolve path with
  | None => (Some ENOENT, mkWorld (fs w) tr)
  | Some k =>
      if file_above (fs w) nil k then (Some ENOTDIR, mkWorld (fs w) tr)
      else match fs w !! k with
           | Some (File _) => (None, mkWorld (delete k (fs w)) tr)
           | Some Dir =>
               if has_children (fs w) k then (Some ENOTEMPTY, mkWorld (fs w) tr)
               else (None, mkWorld (delete k (fs w)) tr)
           | None => (Some ENOENT, mkWorld (fs w) tr)
           end
  end.

(** [os.Create]: the file is created, or truncated when it exists; the
    open file is identified by the path it was created with. *)
Definition Create (path : string) (w : World) : res string * World :=
  let tr := (trace w ++ [EvCreate path])%list in
  match resolve path with
  | None => (Fail ENOENT, mkWorld (fs w) tr)
  | Some k =>
      if file_above (fs w) nil k then (Fail ENOTDIR, mkWorld (fs w) tr)
      else match k, lookup_node (fs w) (removelast k), fs w !! k with
           | nil, _, _ => (Fail EISDIR, mkWorld (fs w) tr)
           | _, Some Dir, Some Dir => (Fail EISDIR, mkWorld (fs w) tr)
           | _, Some Dir, _ => (Ok path, mkWorld (<[k := File EmptyString]> (fs w)) tr)
           | _, _, _ => (Fail ENOENT, mkWorld (fs w) tr)
           end
  end.

(** Writing [data] at the end of the open file [f]. *)
Definition Write (f : string) (data : string) (w : World) : World :=
  let tr := (trace w ++ [EvWrite f data])%list in
  match resolve f with
  | Some k =>
      match fs w !! k with
      | Some (File old) => mkWorld (<[k := File (old ++ data)]> (fs w)) tr
      | _ => mkWorld (fs w) tr
      end
  | None => mkWorld (fs w) tr
  end.

(** The contents of the file at [path], when there is one. *)
Definition ReadFile (path : string) (w : World) : option string :=
  match resolve path with
  | Some k => match fs w !! k with Some (File data) => Some data | _ => None end
  | None => None
  end.

End Calls.

End Os.

(** A host with Unix conventions, working directory [cwd]. *)
Module Unix.

(** The names between slashes of a cleaned absolute path. *)
Fixpoint split (s : string) (cur : string) : list string :=
  match s with
  | EmptyString => match cur with EmptyString => nil | _ => [cur] end
  | String c s' =>
      if Ascii.eqb c Path.slash
      then match cur with EmptyString => split s' EmptyString | _ => cur :: split s' EmptyString end
      else split s' (cur ++ String c EmptyString)
  end.

Definition IsAbs (path : string) : bool := Strings.HasPrefix path "/".

Definition Abs (cwd path : string) : res string :=
  if IsAbs path then Ok (Path.Clean path) else Ok (Path.Join [cwd; path]).

Definition resolve (cwd path : string) : option (list string) :=
  match path with
  | EmptyString => None
  | _ => Some (split (Path.Clean (if IsAbs path then path else cwd ++ "/" ++ path)) EmptyString)
  end.

Definition host (cwd : string) : Host :=
  Build_Host Path.slash IsAbs (Abs cwd) (resolve cwd) 4096 eq_refl.

End Unix.

(** ** io, bytes, mime/multipart, time *)

Module IO.
(** An [io.Reader] that yields [data] and then end of file, or fails. *)
Record Reader := { data : string; read_error : option error }.
(** [bytes.NewBuffer] *)
Definition NewBuffer (buf : string) : Reader :=
  {| data := buf; read_error := None |}.
End IO.

Module Multipart.
(** [multipart.File]: a reader that can also seek. *)
Record File := { reader : IO.Reader; seek_error : option error }.
(** [multipart.FileHeader]; [Open] is the outcome of the method [Open]. *)
Record FileHeader := { Filename : string; Size : Z; Open : res File }.

(** A header as the multipart parser builds it: [Size] is the number of
    bytes of the part. *)
Definition parsed (file : FileHeader) : Prop :=
  match Open file with
  | Ok f => Size file = Bytes.len (IO.data (reader f))
  | Fail _ => True
  end.

Definition in_memory (filename content : string) : FileHeader :=
  {| Filename := filename; Size := Bytes.len content;
     Open := Ok {| reader := IO.NewBuffer content; seek_error := None |} |}.
End Multipart.

Module Time.
(** What [SubDirectoryDate] reads of [time.Now()]. *)
Record Time := { Year : Z; Month : Z; Day : Z }.
End Time.

(** ** package fileupload *)

Record Storage := {
  storageDirectory : string;
  uriAccessPrefix : string
}.

Definition Opts := Storage -> Storage.

Definition WithStorageDirectory (directory : string) : Opts :=
  fun s => {| storageDirectory := directory; uriAccessPrefix := uriAccessPrefix s |}.

Definition WithUriAccessPrefix (prefix : string) : Opts :=
  fun s => {| storageDirectory := storageDirectory s; uriAccessPrefix := prefix |}.

Definition NewStorage (opts : list Opts) : Storage :=
  fold_left (fun s opt => opt s) opts
    {| storageDirectory := EmptyString; uriAccessPrefix := EmptyString |}.

Record FileStorage := {
  StorageDirectory : string;
  UriAccessPrefix : string;
  StorageSubDirectory : string
}.

Record FileStorageResult := {
  Uid : Z;
  Size : Z;
  Bucket : string;
  Category : string;
  Name : string;
  Hash : string;
  FileExt : string;
  PathAbs : string;
  PathRlt : string;
  PathUri : string;
  OriginName : string
}.

(** [&FileStorageResult{}] *)
Definition zero_result : FileStorageResult :=
  {| Uid := 0; Size := 0; Bucket := EmptyString; Category := EmptyString;
     Name := EmptyString; Hash := EmptyString; FileExt := EmptyString;
     PathAbs := EmptyString; PathRlt := EmptyString; PathUri := EmptyString;
     OriginName := EmptyString |}.

Definition set_Size (v : Z) (r : FileStorageResult) : FileStorageResult :=
  {| Uid := Uid r; Size := v; Bucket := Bucket r; Category := Category r;
     Name := Name r; Hash := Hash r; FileExt := FileExt r; PathAbs := PathAbs r;
     PathRlt := PathRlt r; PathUri := PathUri r; OriginName := OriginName r |}.
Definition set_OriginName (v : string) (r : FileStorageResult) : FileStorageResult :=
  {| Uid := Uid r; Size := Size r; Bucket := Bucket r; Category := Category r;
     Name := Name r; Hash := Hash r; FileExt := FileExt r; PathAbs := PathAbs r;
     PathRlt := PathRlt r; PathUri := PathUri r; OriginName := v |}.
Definition set_Name (v : string) (r : FileStorageResult) : FileStorageResult :=
  {| Uid := Uid r; Size := Size r; Bucket := Bucket r; Category := Category r;
     Name := v; Hash := Hash r; FileExt := FileExt r; PathAbs := PathAbs r;
     PathRlt := PathRlt r; PathUri := PathUri r; OriginName := OriginName r |}.
Definition set_Hash (v : string) (r : FileStorageResult) : FileStorageResult :=
  {| Uid := Uid r; Size := Size r; Bucket := Bucket r; Category := Category r;
     Name := Name r; Hash := v; FileExt := FileExt r; PathAbs := PathAbs r;
     PathRlt := PathRlt r; PathUri := PathUri r; OriginName := OriginName r |}.
Definition set_FileExt (v : string) (r : FileStorageResult) : FileStorageResult :=
  {| Uid := Uid r; Size := Size r; Bucket := Bucket r; Category := Category r;
     Name := Name r; Hash := Hash r; FileExt := v; PathAbs := PathAbs r;
     PathRlt := PathRlt r; PathUri := PathUri r; OriginName := OriginName r |}.
Definition set_PathAbs (v : string) (r : FileStorageResult) : FileStorageResult :=
  {| Uid := Uid r; Size := Size r; Bucket := Bucket r; Category := Category r;
     Name := Name r; Hash := Hash r; FileExt := FileExt r; PathAbs := v;
     PathRlt := PathRlt r; PathUri := PathUri r; OriginName := OriginName r |}.
Definition set_PathRlt (v : string) (r : FileStorageResult) : FileStorageResult :=
  {| Uid := Uid r; Size := Size r; Bucket := Bucket r; Category := Category r;
     Name := Name r; Hash := Hash r; FileExt := FileExt r; PathAbs := PathAbs r;
     PathRlt := v; PathUri := PathUri r; OriginName := OriginName r |}.
Definition set_PathUri (v : string) (r : FileStorageResult) : FileStorageResult :=
  {| Uid := Uid r; Size := Size r; Bucket := Bucket r; Category := Category r;
     Name := Name r; Hash := Hash r; FileExt := FileExt r; PathAbs := PathAbs r;
     PathRlt := PathRlt r; PathUri := v; OriginName := OriginName r |}.

(** The body of a function with the named results [(result, err)]: it
    updates [result] and the world as it goes, and a bare [return] after an
    error leaves with what [result] holds then. *)
Definition M (A : Type) : Type :=
  FileStorageResult * World -> res A * (FileStorageResult * World).

#[global] Instance M_ret : MRet M := fun A a st => (Ok a, st).
#[global] Instance M_bind : MBind M := fun A B f m st =>
  match m st with
  | (Ok a, st') => f a st'
  | (Fail e, st') => (Fail e, st')
  end.

Definition result : M FileStorageResult := fun st => (Ok (fst st), st).
Definition assign (f : FileStorageResult -> FileStorageResult) : M unit :=
  fun st => (Ok tt, (f (fst st), snd st)).
(** [if err != nil { return }] *)
Definition check (err : option error) : M unit :=
  fun st => match err with Some e => (Fail e, st) | None => (Ok tt, st) end.
Definition attempt {A} (r : res A) : M A := fun st => (r, st).
(** A call that only reads the world. *)
Definition ask {A} (call : World -> A) : M A := fun st => (Ok (call (snd st)), st).
(** A call that changes the world and returns [err]. *)
Definition call_err (call : World -> option error * World) : M unit :=
  fun st => let '(err, w) := call (snd st) in
            match err with Some e => (Fail e, (fst st, w)) | None => (Ok tt, (fst st, w)) end.
(** A call that changes the world and returns [(value, err)]. *)
Definition call_res {A} (call : World -> res A * World) : M A :=
  fun st => let '(r, w) := call (snd st) in (r, (fst st, w)).
Definition effect (call : World -> World) : M unit :=
  fun st => (Ok tt, (fst st, call (snd st))).

(** What the caller receives: [(result, err)], and the world after. *)
Definition returns (body : M unit) (w : World) : (FileStorageResult * option error) * World :=
  match body (zero_result, w) with
  | (Ok _, (r, w')) => ((r, None), w')
  | (Fail e, (r, w')) => ((r, Some e), w')
  end.

Definition nonempty (s : string) : bool :=
  match s with EmptyString => false | _ => true end.

Section Package.
Context `{Host}.

(** [sha256Reader]: [io.Copy(tmp, r)], then the hex of [tmp.Sum(nil)]. *)
Definition sha256Reader (r : IO.Reader) : string * option error :=
  match IO.read_error r with
  | Some err => (EmptyString, Some err)
  | None => (Hex.EncodeToString (Sha256.Sum256 (IO.data r)), None)
  end.

(** Lines 96-117 of [multipartCopy], the same as 200-220 of [base64Copy]:
    the directory, [PathRlt] and [PathAbs].  Returns [storageDirectory]. *)
Definition locate (s : Storage) (param : FileStorage) : M string :=
  let storageDirectory :=
    if nonempty (StorageDirectory param) then StorageDirectory param
    else storageDirectory s in
  let saveDirectory := storageDirectory in
  r ← result;
  assign (set_PathUri (Name r));;
  storageDirectory ←
    (if nonempty (StorageSubDirectory param) then
       r ← result;
       assign (set_PathUri (Path.Join [StorageSubDirectory param; PathUri r]));;
       mret (Path.Join [storageDirectory; StorageSubDirectory param])
     else mret storageDirectory);
  r ← result;
  assign (set_PathRlt (Path.Join [storageDirectory; Name r]));;
  r ← result;
  (if IsAbs (PathRlt r) then
     assign (set_PathAbs (PathRlt r));;
     assign (set_PathRlt (Strings.TrimPrefix (PathRlt r) saveDirectory))
   else
     match Abs (PathRlt r) with
     | Ok abs => assign (set_PathAbs abs)
     | Fail err => assign (set_PathAbs EmptyString);; check (Some err)
     end);;
  mret storageDirectory.

(** Lines 119-125 (222-228): only a missing entry leads to [MkdirAll];
    any other error of [Stat] is dropped. *)
Definition ensureDirectory (storageDirectory : string) : M unit :=
  r ← result;
  st ← ask (Os.Stat (PathAbs r));
  match st with
  | Fail err =>
      if Os.IsNotExist err then call_err (Os.MkdirAll storageDirectory)
      else mret tt
  | Ok _ => mret tt
  end.

(** Lines 127-139 (230-242): [PathUri]. *)
Definition publish (s : Storage) (param : FileStorage) : M unit :=
  let uriAccessPrefix :=
    if nonempty (UriAccessPrefix param) then UriAccessPrefix param
    else uriAccessPrefix s in
  (if nonempty uriAccessPrefix then
     r ← result; assign (set_PathUri (Path.Join [uriAccessPrefix; PathUri r]))
   else mret tt);;
  r ← result;
  (if negb (Strings.HasPrefix (PathUri r) "/") then
     assign (set_PathUri ("/" ++ PathUri r))
   else mret tt);;
  r ← result;
  (if negb (Ascii.eqb PathSeparator Path.slash) then
     assign (set_PathUri
       (Strings.ReplaceAll (PathUri r) (String PathSeparator EmptyString) "/"))
   else mret tt).

(** Lines 141-159 of [multipartCopy]: an entry of the same size that is
    not a directory is removed; then the file is created and written. *)
Definition multipartWrite (src : Multipart.File) : M unit :=
  r ← result;
  st ← ask (Os.Stat (PathAbs r));
  match st with
  | Ok stat =>
      if (Os.Size stat =? Size r) && negb (Os.IsDir stat)
      then call_err (Os.Remove (PathAbs r))
      else mret tt
  | Fail _ => mret tt
  end;;
  dst ← call_res (Os.Create (PathAbs r));
  check (IO.read_error (Multipart.reader src));;
  effect (Os.Write dst (IO.data (Multipart.reader src))).

Definition multipartCopy_body (s : Storage) (param : FileStorage)
    (file : Multipart.FileHeader) : M unit :=
  assign (set_Size (Multipart.Size file));;
  assign (set_OriginName (Multipart.Filename file));;
  src ← attempt (Multipart.Open file);
  let '(hash, err) := sha256Reader (Multipart.reader src) in
  assign (set_Hash hash);;
  check err;;
  (* the next read starts at the beginning of the file *)
  check (Multipart.seek_error src);;
  assign (set_FileExt (Path.Ext (Multipart.Filename file)));;
  r ← result;
  assign (set_Name (Hash r ++ FileExt r));;
  storageDirectory ← locate s param;
  ensureDirectory storageDirectory;;
  publish s param;;
  multipartWrite src.

Definition multipartCopy (s : Storage) (param : FileStorage)
    (file : Multipart.FileHeader) (w : World) :=
  returns (multipartCopy_body s param file) w.

(** [MultipartCopy]; a nil pointer in [files] is [None]. *)
Fixpoint MultipartCopy_loop (s : Storage) (param : FileStorage)
    (files : list (option Multipart.FileHeader))
    (succeeded : list FileStorageResult) (w : World)
    : (list FileStorageResult * option error) * World :=
  match files with
  | nil => ((succeeded, None), w)
  | None :: files' => MultipartCopy_loop s param files' succeeded w
  | Some file :: files' =>
      let '((tmp, err), w') := multipartCopy s param file w in
      match err with
      | Some e => ((succeeded, Some e), w')
      | None => MultipartCopy_loop s param files' (succeeded ++ [tmp])%list w'
      end
  end.

Definition MultipartCopy (s : Storage) (param : FileStorage)
    (files : list (option Multipart.FileHeader)) (w : World) :=
  MultipartCopy_loop s param files nil w.

(** Lines 244-262 of [base64Copy]: an entry that is not a directory is
    removed; then the file is created and written. *)
Definition base64Write (imageContent : string) : M unit :=
  r ← result;
  st ← ask (Os.Stat (PathAbs r));
  match st with
  | Ok stat =>
      if negb (Os.IsDir stat) then call_err (Os.Remove (PathAbs r))
      else mret tt
  | Fail _ => mret tt
  end;;
  fil ← call_res (Os.Create (PathAbs r));
  effect (Os.Write fil imageContent).

Definition base64Copy_body (s : Storage) (param : FileStorage)
    (content : string) : M unit :=
  let matched := Regexp.FindAllSubmatch content in
  if (List.length matched =? 0)%nat
     || (List.length (nth 0 matched nil) <? 3)%nat then
    check (Some (Errorf "illegal image base64 value"))
  else
    let m0 := nth 0 matched nil in
    let '(imageContent, err) := Base64.DecodeString (nth 2 m0 EmptyString) in
    check err;;
    assign (set_FileExt ("." ++ nth 1 m0 EmptyString));;
    let '(hash, err) := sha256Reader (IO.NewBuffer content) in
    assign (set_Hash hash);;
    check err;;
    r ← result;
    assign (set_Name (Hash r ++ FileExt r));;
    storageDirectory ← locate s param;
    ensureDirectory storageDirectory;;
    publish s param;;
    base64Write imageContent.

Definition base64Copy (s : Storage) (param : FileStorage)
    (content : string) (w : World) :=
  returns (base64Copy_body s param content) w.

(** [Base64Copy]; a nil slice in [files] is [None]. *)
Fixpoint Base64Copy_loop (s : Storage) (param : FileStorage)
    (files : list (option string))
    (succeeded : list FileStorageResult) (w : World)
    : (list FileStorageResult * option error) * World :=
  match files with
  | nil => ((succeeded, None), w)
  | None :: files' => Base64Copy_loop s param files' succeeded w
  | Some content :: files' =>
      let '((tmp, err), w') := base64Copy s param content w in
      match err with
      | Some e => ((succeeded, Some e), w')
      | None => Base64Copy_loop s param files' (succeeded ++ [tmp])%list w'
      end
  end.

Definition Base64Copy (s : Storage) (param : FileStorage)
    (files : list (option string)) (w : World) :=
  Base64Copy_loop s param files nil w.

End Package.

(** [SubDirectoryDate], with [now] the reading of [time.Now()]. *)
Definition SubDirectoryDate (now : Time.Time) (subDirectory : string) : string :=
  Path.Join [subDirectory;
             Fmt.Sprintf_0d 4 (Time.Year now);
             Fmt.Sprintf_0d 2 (Time.Month now);
             Fmt.Sprintf_0d 2 (Time.Day now)].

(** ** Vocabulary of the statements *)

Fixpoint all_bytes (f : ascii -> bool) (s : string) : bool :=
  match s with
  | EmptyString => true
  | String c s' => f c && all_bytes f s'
  end.

Definition is_remove (e : event) : bool :=
  match e with EvRemove _ => true | _ => false end.

Section Vocabulary.
Context `{Host}.

(** What lines 127-139 make of [PathUri]. *)
Definition public_uri (s : Storage) (param : FileStorage) (uri : string) : string :=
  let prefix := if nonempty (UriAccessPrefix param) then UriAccessPrefix param
                else uriAccessPrefix s in
  let u1 := if nonempty prefix then Path.Join [prefix; uri] else uri in
  let u2 := if negb (Strings.HasPrefix u1 "/") then "/" ++ u1 else u1 in
  if negb (Ascii.eqb PathSeparator Path.slash)
  then Strings.ReplaceAll u2 (String PathSeparator EmptyString) "/"
  else u2.

(** [os.Create] followed by the copy into the file. *)
Definition create_write (path data : string) (read_error : option error) (w : World)
    : res unit * World :=
  match Os.Create path w with
  | (Ok dst, w1) =>
      match read_error with
      | Some e => (Fail e, w1)
      | None => (Ok tt, Os.Write dst data w1)
      end
  | (Fail e, w1) => (Fail e, w1)
  end.

(** The removal that precedes the write. *)
Definition remove_if (cond : Os.FileInfo → bool) (path : string) (w : World)
    : option error * World :=
  match Os.Stat path w with
  | Ok stat => if cond stat then Os.Remove path w else (None, w)
  | Fail _ => (None, w)
  end.

(** The common part of both functions: lines 96-139 and the write. *)
Definition store (s : Storage) (param : FileStorage) (write : M unit) : M unit :=
  storageDirectory ← locate s param;
  ensureDirectory storageDirectory;;
  publish s param;;
  write.

Definition finish (x : res unit * (FileStorageResult * World)) :=
  match x with
  | (Ok _, (r, w')) => ((r, None), w')
  | (Fail e, (r, w')) => ((r, Some e), w')
  end.

(** The record before [locate]: lines 70-94. *)
Definition multipart_named (file : Multipart.FileHeader) (src : Multipart.File) :=
  let hash := Hex.EncodeToString (Sha256.Sum256 (IO.data (Multipart.reader src))) in
  let ext := Path.Ext (Multipart.Filename file) in
  set_Name (hash ++ ext) (set_FileExt ext (set_Hash hash
    (set_OriginName (Multipart.Filename file) (set_Size (Multipart.Size file) zero_result)))).

(** The record before [locate] in [base64Copy]: lines 193-198. *)
Definition base64_named (content subtype : string) :=
  let hash := Hex.EncodeToString (Sha256.Sum256 content) in
  let ext := "." ++ subtype in
  set_Name (hash ++ ext) (set_Hash hash (set_FileExt ext zero_result)).

(** Both writes: a conditional removal, then create and copy. *)
Definition write_with (cond : FileStorageResult → Os.FileInfo → bool)
    (data : string) (read_error : option error) : M unit :=
  fun st =>
    match remove_if (cond (fst st)) (PathAbs (fst st)) (snd st) with
    | (Some e, w1) => (Fail e, (fst st, w1))
    | (None, w1) =>
        let '(o, w2) := create_write (PathAbs (fst st)) data read_error w1 in
        (o, (fst st, w2))
    end.

Definition multipart_cond (r : FileStorageResult) (stat : Os.FileInfo) : bool :=
  (Os.Size stat =? Size r) && negb (Os.IsDir stat).
Definition base64_cond (r : FileStorageResult) (stat : Os.FileInfo) : bool :=
  negb (Os.IsDir stat).

Definition removes_files (cond : FileStorageResult → Os.FileInfo → bool) : Prop :=
  ∀ r stat, cond r stat = true → Os.IsDir stat = false.

(** Lines 96-117 and 127-139: the paths of the record, which do not depend
    on the world. *)
Definition plan (s : Storage) (param : FileStorage) : M string :=
  storageDirectory ← locate s param;
  publish s param;;
  mret storageDirectory.

End Vocabulary.

(** ** The pattern of the regular expression, in words *)

(** The pattern as the specification writes it:
    [data:image/<type>;base64,<payload>]. *)
Definition spec_pattern (content : string) : Prop :=
  ∃ type payload, content = "data:image/" ++ type ++ ";base64," ++ payload.

(** The pattern of [regexpImageBase64]: white space may follow [data:], the
    type is a non-empty run of word characters, and anything may follow the
    comma. *)
Definition regexp_pattern (content : string) : Prop :=
  ∃ space subtype rest,
    content = "data:" ++ space ++ "image/" ++ subtype ++ ";base64," ++ rest
    ∧ all_bytes Regexp.is_space space = true
    ∧ subtype ≠ EmptyString
    ∧ all_bytes Regexp.is_word subtype = true.

(** ** The date in decimal *)

(** The [n] low decimal digits of [v], most significant first: the
    zero-padded decimal numeral of [v] in [n] digits when [0 <= v < 10^n]. *)
Fixpoint decimal (n : nat) (v : Z) : string :=
  match n with
  | O => EmptyString
  | S n' => decimal n' (v / 10) ++ String (Fmt.digit (v mod 10)) EmptyString
  end.

Definition upto (n : Z) : list Z := map Z.of_nat (seq 0 (Z.to_nat n)).

(** ** A concrete installation, for the examples *)

Module Demo.
Definition host : Host := Unix.host "/srv/app".
Definition storage : Storage :=
  NewStorage [WithStorageDirectory "/data"; WithUriAccessPrefix "/static"].
Definition param : FileStorage :=
  {| StorageDirectory := EmptyString; UriAccessPrefix := EmptyString;
     StorageSubDirectory := "2024/01/01" |}.
Definition empty : World := mkWorld ∅ nil.
Definition upload : Multipart.FileHeader := Multipart.in_memory "cat.png" "hello".
Definition image : string := "data:image/png;base64,aGVsbG8=".
Definition spaced_image : string := "data: image/png;base64,aGVsbG8=".

(** The record of [upload]. *)
Definition record : FileStorageResult :=
  {| Uid := 0; Size := 5; Bucket := EmptyString; Category := EmptyString;
     Name := "2cf24dba5fb0a30e26e83b2ac5b9e29e1b161e5c1fa7425e73043362938b9824.png";
     Hash := "2cf24dba5fb0a30e26e83b2ac5b9e29e1b161e5c1fa7425e73043362938b9824";
     FileExt := ".png";
     PathAbs := "/data/2024/01/01/2cf24dba5fb0a30e26e83b2ac5b9e29e1b161e5c1fa7425e73043362938b9824.png";
     PathRlt := "/2024/01/01/2cf24dba5fb0a30e26e83b2ac5b9e29e1b161e5c1fa7425e73043362938b9824.png";
     PathUri := "/static/2024/01/01/2cf24dba5fb0a30e26e83b2ac5b9e29e1b161e5c1fa7425e73043362938b9824.png";
     OriginName := "cat.png" |}.

(** The record of [image]. *)
Definition image_record : FileStorageResult :=
  {| Uid := 0; Size := 0; Bucket := EmptyString; Category := EmptyString;
     Name := "3ce781d3ab1d65fee96552a54415d9902cf9622911ab54192015a158e18dc0e6.png";
     Hash := "3ce781d3ab1d65fee96552a54415d9902cf9622911ab54192015a158e18dc0e6";
     FileExt := ".png";
     PathAbs := "/data/2024/01/01/3ce781d3ab1d65fee96552a54415d9902cf9622911ab54192015a158e18dc0e6.png";
     PathRlt := "/2024/01/01/3ce781d3ab1d65fee96552a54415d9902cf9622911ab54192015a158e18dc0e6.png";
     PathUri := "/static/2024/01/01/3ce781d3ab1d65fee96552a54415d9902cf9622911ab54192015a158e18dc0e6.png";
     OriginName := EmptyString |}.
End Demo.

(** [upload] stored in the empty world, and stored again in the world that
    leaves; [image] stored in the empty world. *)
Abbreviation demo_stored :=
  (multipartCopy (H := Demo.host) Demo.storage Demo.param Demo.upload Demo.empty).
Abbreviation demo_again :=
  (multipartCopy (H := Demo.host) Demo.storage Demo.param Demo.upload (snd demo_stored)).
Abbreviation demo_image_stored :=
  (base64Copy (H := Demo.host) Demo.storage Demo.param Demo.image Demo.empty).

(** ** Further vocabulary and code of the package *)

(** ** [path.Clean] on paths that are clean already *)

(** A path element that [Clean] copies: not empty, without slash, and
    neither [.] nor [..]. *)
Definition plain (e : list ascii) : bool :=
  match e with
  | nil => false
  | _ => forallb (fun c => negb (Ascii.eqb c Path.slash)) e
         && negb (bool_decide (e = [Path.dot]))
         && negb (bool_decide (e = [Path.dot; Path.dot]))
  end.

Abbreviation plains := (Forall (fun e => plain e = true)).

(** The elements, with a slash between them. *)
Fixpoint join_elements (es : list (list ascii)) : list ascii :=
  match es with
  | nil => nil
  | [e] => e
  | e :: es' => (e ++ Path.slash :: join_elements es')%list
  end.

Definition ends_element (rest : list ascii) : Prop :=
  rest = nil ∨ ∃ rest', rest = Path.slash :: rest'.

(** The slash that [Clean] writes before an element. *)
Definition with_slash (rooted : bool) (out : list ascii) : list ascii :=
  if rooted && negb (List.length out =? 1)%nat || negb rooted && negb (List.length out =? 0)%nat
  then Path.slash :: out else out.

(** An element of a path as [Join] builds it: plain, or empty (two slashes
    in a row, or a slash at the end). *)
Definition element (e : list ascii) : Prop := e = nil ∨ plain e = true.

Definition is_empty {A : Type} (l : list A) : bool :=
  match l with nil => true | _ => false end.

(** The elements that are not empty. *)
Definition solid (es : list (list ascii)) : list (list ascii) :=
  List.filter (fun e => negb (is_empty e)) es.

(** What the loop has written after the elements [es]. *)
Fixpoint written (rooted : bool) (es : list (list ascii)) (out : list ascii) : list ascii :=
  match es with
  | nil => out
  | e :: es' =>
      if is_empty e then written rooted es' out
      else written rooted es' (rev e ++ with_slash rooted out)%list
  end.

(** The string of a list of elements. *)
Definition path_of (es : list (list ascii)) : string := Bytes.of_list (join_elements es).

(** An absolute or a relative path of the elements [es]. *)
Definition path_from (abs : bool) (es : list (list ascii)) : string :=
  if abs then "/" ++ path_of es else path_of es.

(** No elements stand for the empty string, which is also the path of one
    empty element. *)
Definition els (es : list (list ascii)) : list (list ascii) :=
  match es with nil => [nil] | _ => es end.

Definition no_slash (c : ascii) : bool := negb (Ascii.eqb c Path.slash).

Module Relative.
(** An installation with a relative base directory, no sub-directory and no
    prefix. *)
Definition storage : Storage := NewStorage [WithStorageDirectory "uploads"].
Definition param : FileStorage :=
  {| StorageDirectory := EmptyString; UriAccessPrefix := EmptyString;
     StorageSubDirectory := EmptyString |}.
(** The record of [Demo.upload] there. *)
Definition record : FileStorageResult :=
  {| Uid := 0; Size := 5; Bucket := EmptyString; Category := EmptyString;
     Name := "2cf24dba5fb0a30e26e83b2ac5b9e29e1b161e5c1fa7425e73043362938b9824.png";
     Hash := "2cf24dba5fb0a30e26e83b2ac5b9e29e1b161e5c1fa7425e73043362938b9824";
     FileExt := ".png";
     PathAbs := "/srv/app/uploads/2cf24dba5fb0a30e26e83b2ac5b9e29e1b161e5c1fa7425e73043362938b9824.png";
     PathRlt := "uploads/2cf24dba5fb0a30e26e83b2ac5b9e29e1b161e5c1fa7425e73043362938b9824.png";
     PathUri := "/2cf24dba5fb0a30e26e83b2ac5b9e29e1b161e5c1fa7425e73043362938b9824.png";
     OriginName := "cat.png" |}.
End Relative.

Module Obstacles.
(** The entry of [Demo.record]. *)
Definition target : list string :=
  ["data"; "2024"; "01"; "01";
   "2cf24dba5fb0a30e26e83b2ac5b9e29e1b161e5c1fa7425e73043362938b9824.png"].
(** A tree in which [/data] is a regular file. *)
Definition below_file : World := mkWorld (<[ ["data"] := File "x" ]> ∅) nil.
(** A tree in which the target is a directory. *)
Definition at_directory : World :=
  mkWorld (<[ target := Dir ]> (<[ ["data"; "2024"; "01"; "01"] := Dir ]> ∅)) nil.
End Obstacles.

(** The entries of a batch that are not nil, in order. *)
Fixpoint present {A : Type} (l : list (option A)) : list A :=
  match l with
  | nil => nil
  | Some a :: l' => a :: present l'
  | None :: l' => present l'
  end.

(** The record of an upload: what [multipartCopy] reads off the header and
    the content. *)
Definition record_of_upload (file : Multipart.FileHeader) (r : FileStorageResult) : Prop :=
  ∃ src, Multipart.Open file = Ok src
    ∧ Hash r = Hex.EncodeToString (Sha256.Sum256 (IO.data (Multipart.reader src)))
    ∧ FileExt r = Path.Ext (Multipart.Filename file)
    ∧ Name r = Hash r ++ FileExt r
    ∧ Size r = Multipart.Size file
    ∧ OriginName r = Multipart.Filename file.

(** The record of an image text: what [base64Copy] reads off the text. *)
Definition record_of_image (content : string) (r : FileStorageResult) : Prop :=
  ∃ whole subtype payload,
    Regexp.FindAllSubmatch content = [[whole; subtype; payload]]
    ∧ Hash r = Hex.EncodeToString (Sha256.Sum256 content)
    ∧ FileExt r = "." ++ subtype
    ∧ Name r = Hash r ++ FileExt r.

(** ** mime/multipart.Form and echo.Context, as [Echo] uses them *)

Module Http.
(** [multipart.Form]: the uploads by form field ([File]); [RemoveAll]
    removes the temporary files of the form, and is given by what it does
    to the world. *)
Record Form := {
  File : gmap string (list (option Multipart.FileHeader));
  RemoveAll : World → World
}.
(** [echo.Context]: the outcome of [FormFile(name)], which is a header when
    the error is nil, and of [MultipartForm()]. *)
Record Context := {
  FormFile : string → res Multipart.FileHeader;
  MultipartForm : res Form
}.
End Http.

Record MultipartFileName := {
  Single : string;
  Multiple : string
}.

Section Handlers.
Context `{Host}.

(** [Echo]; a nil [name] is [None].  The deferred [form.RemoveAll()] runs
    when the function returns, once the form has been obtained. *)
Definition Echo (s : Storage) (c : Http.Context) (param : FileStorage)
    (name : option MultipartFileName) (w : World)
    : (list FileStorageResult * option error) * World :=
  match name with
  | None => ((nil, None), w)
  | Some name =>
      (* single file *)
      let '((succeeded, err), w1) :=
        if nonempty (Single name) then
          match Http.FormFile c (Single name) with
          | Fail e => ((nil, Some e), w)
          | Ok file =>
              let '((tmp, err), w1) := multipartCopy s param file w in
              match err with
              | Some e => ((nil, Some e), w1)
              | None => (([tmp], None), w1)
              end
          end
        else ((nil, None), w) in
      match err with
      | Some e => ((succeeded, Some e), w1)
      | None =>
          (* multiple files *)
          if nonempty (Multiple name) then
            match Http.MultipartForm c with
            | Fail e => ((succeeded, Some e), w1)
            | Ok form =>
                let files := default nil (Http.File form !! Multiple name) in
                let '((tmp, err), w2) := MultipartCopy s param files w1 in
                let w3 := Http.RemoveAll form w2 in
                match err with
                | Some e => ((succeeded, Some e), w3)
                | None => ((succeeded ++ tmp)%list, None, w3)
                end
            end
          else ((succeeded, None), w1)
      end
  end.

End Handlers.

(** The uploads a request offers under the two field names: the file of
    the single field, then the files of the multiple field. *)
Definition uploads_of (c : Http.Context) (name : MultipartFileName)
    : list Multipart.FileHeader :=
  ((if nonempty (Single name) then
      match Http.FormFile c (Single name) with
      | Ok file => [file]
      | Fail _ => nil
      end
    else nil)
   ++ (if nonempty (Multiple name) then
         match Http.MultipartForm c with
         | Ok form => present (default nil (Http.File form !! Multiple name))
         | Fail _ => nil
         end
       else nil))%list.

Module Request.
(** An upload that cannot be opened. *)
Definition broken : Multipart.FileHeader :=
  {| Multipart.Filename := "dog.png"; Multipart.Size := 3;
     Multipart.Open := Fail (ErrFile "open") |}.
Definition names : MultipartFileName := {| Single := "file"; Multiple := "files" |}.
(** A request without the field [file]. *)
Definition no_file : Http.Context :=
  {| Http.FormFile := fun _ => Fail (ErrFile "http: no such file");
     Http.MultipartForm := Ok {| Http.File := ∅; Http.RemoveAll := fun w => w |} |}.
(** A request with [upload] as [file] and [files], and [last] after it in
    [files]. *)
Definition form (last : Multipart.FileHeader) : Http.Form :=
  {| Http.File := <[ "files" := [Some Demo.upload; None; Some last] ]> ∅;
     Http.RemoveAll := fun w => w |}.
Definition context (last : Multipart.FileHeader) : Http.Context :=
  {| Http.FormFile := fun name => if String.eqb name "file" then Ok Demo.upload
                                  else Fail (ErrFile "http: no such file");
     Http.MultipartForm := Ok (form last) |}.
End Request.

(** [IterateResult]: [fn] is called on every element of [moves], in order.
    The elements are pointers, so what [fn] does to a record is a change of
    the state [S] that holds the records. *)
Definition IterateResult {S A : Type} (moves : list A) (fn : A → S → S) (st : S) : S :=
  fold_left (fun st move => fn move st) moves st.

(** ** The handlers of the example server *)

(** What a handler answers: [c.String(code, err.Error())] or
    [c.JSON(code, result)]. *)
Inductive Response : Type :=
| TextResponse (code : Z) (err : error)
| JSONResponse (code : Z) (result : list FileStorageResult).

Module Main.

Definition storageDirectory : string := "/var/files/uploads".
Definition uriAccessPrefix : string := "/resource/static".

Definition s : Storage :=
  NewStorage [WithStorageDirectory storageDirectory; WithUriAccessPrefix uriAccessPrefix].

(** The closure [fs]: [sd] is the header [SubDirectory] of the request
    after [strings.TrimSpace], [now] the reading of the clock in
    [SubDirectoryDate]. *)
Definition fs (now : Time.Time) (sd : string) : FileStorage :=
  let subDirectory := if nonempty sd then sd else "default" in
  {| StorageDirectory := EmptyString; UriAccessPrefix := EmptyString;
     StorageSubDirectory := SubDirectoryDate now (Path.Join ["project1"; subDirectory]) |}.

Definition mfn : MultipartFileName := {| Single := "file"; Multiple := "files" |}.

(** [func(move) { move.PathAbs = ""; move.PathRlt = "" }] on the record
    behind the pointer [move].  The records of [result] were allocated one
    by one by [multipartCopy] or [base64Copy], so the pointers are distinct:
    the state is the list of the records, a pointer is a position in it. *)
Definition blank (move : nat) (records : list FileStorageResult) : list FileStorageResult :=
  alter (fun r => set_PathRlt EmptyString (set_PathAbs EmptyString r)) move records.

Definition respond (result : list FileStorageResult) (err : option error) : Response :=
  match err with
  | Some e => TextResponse 500 e
  | None =>
      JSONResponse 200 (IterateResult (seq 0 (List.length result)) blank result)
  end.

Section Routes.
Context `{Host}.

(** [POST /v1/upload] *)
Definition upload (c : Http.Context) (now : Time.Time) (sd : string) (w : World)
    : Response * World :=
  let '((result, err), w') := Echo s c (fs now sd) (Some mfn) w in
  (respond result err, w').

(** [POST /v1/upload/base64]; [bind] is the outcome of [c.Bind(&s64)]. *)
Definition upload_base64 (bind : res (list string)) (now : Time.Time) (sd : string)
    (w : World) : Response * World :=
  match bind with
  | Fail e => (TextResponse 500 e, w)
  | Ok s64 =>
      let b64 := map Some s64 in
      let '((result, err), w') := Base64Copy s (fs now sd) b64 w in
      (respond result err, w')
  end.

End Routes.
End Main.

(** A record as the handlers answer it. *)
Definition without_paths (r : FileStorageResult) : FileStorageResult :=
  set_PathRlt EmptyString (set_PathAbs EmptyString r).

(** The elements that [SubDirectoryDate] appends: year, month and day in
    decimal. *)
Definition date_elements (now : Time.Time) : list (list ascii) :=
  [Bytes.to_list (decimal 4 (Time.Year now));
   Bytes.to_list (decimal 2 (Time.Month now));
   Bytes.to_list (decimal 2 (Time.Day now))].

Definition is_digit (c : ascii) : bool :=
  let n := N_of_ascii c in ((48 <=? n) && (n <=? 57))%N.

(** A record that some call of [multipartCopy] or [base64Copy] returned
    without error. *)
Definition stored_by `{Host} (s : Storage) (param : FileStorage) (r : FileStorageResult) : Prop :=
  ∃ w w', (∃ file, multipartCopy s param file w = ((r, None), w'))
          ∨ (∃ content, base64Copy s param content w = ((r, None), w')).

(** The sub-directory of a request: [project1], the elements of the header
    or [default], and the date. *)
Definition request_elements (now : Time.Time) (hs : list (list ascii)) : list (list ascii) :=
  ([Bytes.to_list "project1"]
   ++ (if is_empty hs then [Bytes.to_list "default"] else hs)
   ++ date_elements now)%list.

Module Served.
Definition now : Time.Time := {| Time.Year := 2024; Time.Month := 1; Time.Day := 5 |}.
(** The record of [Demo.upload] for a request without the header. *)
Definition stored : FileStorageResult :=
  {| Uid := 0; Size := 5; Bucket := EmptyString; Category := EmptyString;
     Name := "2cf24dba5fb0a30e26e83b2ac5b9e29e1b161e5c1fa7425e73043362938b9824.png";
     Hash := "2cf24dba5fb0a30e26e83b2ac5b9e29e1b161e5c1fa7425e73043362938b9824";
     FileExt := ".png";
     PathAbs := "/var/files/uploads/project1/default/2024/01/05/2cf24dba5fb0a30e26e83b2ac5b9e29e1b161e5c1fa7425e73043362938b9824.png";
     PathRlt := "/project1/default/2024/01/05/2cf24dba5fb0a30e26e83b2ac5b9e29e1b161e5c1fa7425e73043362938b9824.png";
     PathUri := "/resource/static/project1/default/2024/01/05/2cf24dba5fb0a30e26e83b2ac5b9e29e1b161e5c1fa7425e73043362938b9824.png";
     OriginName := "cat.png" |}.
(** The answer for [Demo.image] with the header [album]. *)
Definition image : FileStorageResult :=
  {| Uid := 0; Size := 0; Bucket := EmptyString; Category := EmptyString;
     Name := "3ce781d3ab1d65fee96552a54415d9902cf9622911ab54192015a158e18dc0e6.png";
     Hash := "3ce781d3ab1d65fee96552a54415d9902cf9622911ab54192015a158e18dc0e6";
     FileExt := ".png";
     PathAbs := EmptyString;
     PathRlt := EmptyString;
     PathUri := "/resource/static/project1/album/2024/01/05/3ce781d3ab1d65fee96552a54415d9902cf9622911ab54192015a158e18dc0e6.png";
     OriginName := EmptyString |}.
End Served.

Module Wrapped.
(** An image text whose payload goes on after a line feed, and its record. *)
Definition image : string :=
  "data:" ++ "" ++ "image/" ++ "png" ++ ";base64," ++ "aGVsbG8=" ++ String Base64.LF "d29ybGQ=".
Definition record : FileStorageResult :=
  {| Uid := 0; Size := 0; Bucket := EmptyString; Category := EmptyString;
     Name := "f7d13459eb84fb6ca53ba7abaf9f063166a2bb12ed220a15d5f88c7d6e09d3cd.png";
     Hash := "f7d13459eb84fb6ca53ba7abaf9f063166a2bb12ed220a15d5f88c7d6e09d3cd";
     FileExt := ".png";
     PathAbs := "/data/2024/01/01/f7d13459eb84fb6ca53ba7abaf9f063166a2bb12ed220a15d5f88c7d6e09d3cd.png";
     PathRlt := "/2024/01/01/f7d13459eb84fb6ca53ba7abaf9f063166a2bb12ed220a15d5f88c7d6e09d3cd.png";
     PathUri := "/static/2024/01/01/f7d13459eb84fb6ca53ba7abaf9f063166a2bb12ed220a15d5f88c7d6e09d3cd.png";
     OriginName := EmptyString |}.
End Wrapped.

(** The entry of the file [name] in the directory of the elements [es]. *)
Definition entry_of (es : list (list ascii)) (name : string) : list string :=
  (map Bytes.of_list es ++ [name])%list.

(** At most one event. *)
Definition at_most (e : event) (l : list event) : Prop := l = nil ∨ l = [e].

(** * The models of the library on known inputs *)

Example sha256_abc :
  Hex.EncodeToString (Sha256.Sum256 "abc") =
  "ba7816bf8f01cfea414140de5dae2223b00361a396177a9cb410ff61f20015ad".
Proof. vm_compute. reflexivity. Qed.

Example sha256_empty :
  Hex.EncodeToString (Sha256.Sum256 "") =
  "e3b0c44298fc1c149afbf4c8996fb92427ae41e4649b934ca495991b7852b855".
Proof. vm_compute. reflexivity. Qed.

Example sha256_two_blocks :
  Hex.EncodeToString
    (Sha256.Sum256 "abcdbcdecdefdefgefghfghighijhijkijkljklmklmnlmnomnopnopq") =
  "248d6a61d20638b8e5c026930c3e6039a33ce45964ff2167f6ecedd419db06c1".
Proof. vm_compute. reflexivity. Qed.

Example clean_examples :
  map Path.Clean ["a/c"; "a//c"; "a/c/."; "a/c/b/.."; "/../a/c"; "/../a/b/../././/c"; ""; "/"; "../../a"; "a/../.."; "abc/def/../../.."]
  = ["a/c"; "a/c"; "a/c"; "a/c"; "/a/c"; "/a/c"; "."; "/"; "../../a"; ".."; ".."].
Proof. reflexivity. Qed.

Example join_examples :
  map Path.Join [["a"; "b"; "c"]; ["a"; "b/c"]; ["a/b"; "../../../xyz"]; [""; ""]; ["a"; ""]; [""; "a"]; ["/data"; "2024/01/01"; "x.png"]]
  = ["a/b/c"; "a/b/c"; "../xyz"; ""; "a"; "a"; "/data/2024/01/01/x.png"].
Proof. reflexivity. Qed.

Example ext_examples :
  map Path.Ext ["index"; "index.js"; "main.test.js"; "a.b/c"; "a/.profile"; "cat.PNG"; "x."]
  = [""; ".js"; ".js"; ""; ".profile"; ".PNG"; "."].
Proof. reflexivity. Qed.

Example sprintf_examples :
  [Fmt.Sprintf_0d 4 2024; Fmt.Sprintf_0d 2 1; Fmt.Sprintf_0d 2 12;
   Fmt.Sprintf_0d 4 0; Fmt.Sprintf_0d 4 12345; Fmt.Sprintf_0d 4 (-5)]
  = ["2024"; "01"; "12"; "0000"; "12345"; "-005"].
Proof. reflexivity. Qed.

Example base64_examples :
  map Base64.DecodeString ["aGVsbG8="; "aGVsbG8gd29ybGQ="; ""; "YQ=="; "YWJj"; "aGVsbG8"; "a=bc"; "YQ==x"; "YQ="; "a b"]
  = [("hello", None); ("hello world", None); ("", None); ("a", None); ("abc", None);
     ("hel", Some (CorruptInputError 4)); ("", Some (CorruptInputError 1));
     ("a", Some (CorruptInputError 4)); ("", Some (CorruptInputError 3));
     ("", Some (CorruptInputError 1))].
Proof. reflexivity. Qed.

Example regexp_examples :
  map Regexp.FindAllSubmatch
    ["data:image/png;base64,aGVsbG8="; "data: image/jpeg;base64,QUJD"; "hello world";
     "data:text/plain;base64,aGVsbG8="; "data:image/svg+xml;base64,AAAA"; "data:image/;base64,AAAA";
     " data:image/png;base64,AAAA"]
  = [[["data:image/png;base64,aGVsbG8="; "png"; "aGVsbG8="]];
     [["data: image/jpeg;base64,QUJD"; "jpeg"; "QUJD"]];
     []; []; []; []; []].
Proof. reflexivity. Qed.

(** * Properties *)


Lemma to_list_length s : List.length (Bytes.to_list s) = String.length s.
Proof. induction s; simpl; congruence. Qed.

Lemma of_list_length l : String.length (Bytes.of_list l) = List.length l.
Proof. induction l; simpl; congruence. Qed.

Lemma Sum256_length msg : String.length (Sha256.Sum256 msg) = 32%nat.
Proof.
  unfold Sha256.Sum256.
  generalize (Sha256.blocks (List.length (Sha256.pad (Bytes.to_list msg)) / 64) Sha256.init
                (Sha256.pad (Bytes.to_list msg))).
  intros st. rewrite of_list_length. unfold Sha256.digest_bytes, Sha256.be_bytes.
  rewrite !length_app, !length_map. reflexivity.
Qed.

Lemma hex_length src : String.length (Hex.EncodeToString src) = (2 * String.length src)%nat.
Proof. induction src as [|v src IH]; simpl; [reflexivity | rewrite IH; lia]. Qed.

Lemma hex_digit_hi v : Hex.is_lower_hex (Hex.digit (N.shiftr (N_of_ascii v) 4)) = true.
Proof. destruct v as [[] [] [] [] [] [] [] []]; vm_compute; reflexivity. Qed.

Lemma hex_digit_lo v : Hex.is_lower_hex (Hex.digit (N.land (N_of_ascii v) 15)) = true.
Proof. destruct v as [[] [] [] [] [] [] [] []]; vm_compute; reflexivity. Qed.

Lemma hex_lower src : all_bytes Hex.is_lower_hex (Hex.EncodeToString src) = true.
Proof.
  induction src as [|v src IH]; [reflexivity|].
  cbn [Hex.EncodeToString all_bytes].
  rewrite hex_digit_hi, hex_digit_lo, IH. reflexivity.
Qed.


Lemma ascii_eqb_false a b : a ≠ b → Ascii.eqb a b = false.
Proof. intros Hne. destruct (Ascii.eqb_spec a b); congruence. Qed.

Section ReplaceSeparator.
Variable sep : ascii.
Hypothesis sep_not_slash : sep ≠ Path.slash.

Let old := String sep EmptyString.

Lemma replace_from_sep_cons b s :
  Strings.replace_from O (String b s) old "/" =
  if Ascii.eqb sep b then String Path.slash (Strings.replace_from O s old "/")
  else String b (Strings.replace_from O s old "/").
Proof.
  cbn [Strings.replace_from]. unfold Strings.HasPrefix, old. cbn [Strings.strip].
  destruct (Ascii.eqb sep b); reflexivity.
Qed.

Lemma replace_from_sep_free s :
  Strings.contains_byte sep (Strings.replace_from O s old "/") = false.
Proof.
  induction s as [|b s IH]; [reflexivity|].
  rewrite replace_from_sep_cons.
  destruct (Ascii.eqb_spec sep b) as [->|Hne]; cbn [Strings.contains_byte]; rewrite IH.
  - rewrite (ascii_eqb_false Path.slash b); [reflexivity | congruence].
  - rewrite (ascii_eqb_false b sep); [reflexivity | congruence].
Qed.

Lemma replace_from_sep_rooted s :
  Strings.HasPrefix s "/" = true →
  Strings.HasPrefix (Strings.replace_from O s old "/") "/" = true.
Proof.
  destruct s as [|b s]; [discriminate|].
  unfold Strings.HasPrefix at 1. cbn [Strings.strip].
  destruct (Ascii.eqb_spec "/" b) as [<-|]; [|discriminate]. intros _.
  rewrite replace_from_sep_cons.
  rewrite (ascii_eqb_false sep "/"); [reflexivity | exact sep_not_slash].
Qed.

Lemma ReplaceAll_sep s :
  Strings.ReplaceAll s old "/" = Strings.replace_from O s old "/".
Proof.
  unfold Strings.ReplaceAll, old. cbn.
  rewrite (ascii_eqb_false sep "/"); [reflexivity | exact sep_not_slash].
Qed.
End ReplaceSeparator.

Lemma set_PathUri_id r : set_PathUri (PathUri r) r = r.
Proof. destruct r; reflexivity. Qed.

Lemma set_PathUri_twice u v r : set_PathUri u (set_PathUri v r) = set_PathUri u r.
Proof. reflexivity. Qed.


Ltac run_M :=
  cbv beta iota zeta delta
    [mbind M_bind mret M_ret result assign check attempt ask call_err call_res effect fst snd].

Section Publish.
Context `{Host}.


Lemma publish_run s param r w :
  publish s param (r, w) = (Ok tt, (set_PathUri (public_uri s param (PathUri r)) r, w)).
Proof.
  unfold publish, public_uri.
  destruct (nonempty (if nonempty (UriAccessPrefix param) then _ else _)); run_M;
    cbn [PathUri set_PathUri];
    destruct (Strings.HasPrefix _ "/"); run_M; cbn [PathUri set_PathUri negb];
    destruct (Ascii.eqb PathSeparator Path.slash); run_M; cbn [PathUri set_PathUri negb];
    rewrite ?set_PathUri_id; reflexivity.
Qed.

Lemma public_uri_rooted s param uri :
  Strings.HasPrefix (public_uri s param uri) "/" = true.
Proof.
  unfold public_uri.
  set (u1 := if nonempty _ then _ else _).
  set (u2 := if negb (Strings.HasPrefix u1 "/") then "/" ++ u1 else u1).
  assert (Hu2 : Strings.HasPrefix u2 "/" = true).
  { unfold u2. destruct (Strings.HasPrefix u1 "/") eqn:E; [exact E | reflexivity]. }
  destruct (Ascii.eqb_spec PathSeparator Path.slash) as [Heq|Hne]; cbn [negb]; [exact Hu2|].
  rewrite ReplaceAll_sep by exact Hne. apply replace_from_sep_rooted; assumption.
Qed.

Lemma public_uri_sep_free s param uri :
  PathSeparator ≠ Path.slash →
  Strings.contains_byte PathSeparator (public_uri s param uri) = false.
Proof.
  intros Hne. unfold public_uri. rewrite (ascii_eqb_false _ _ Hne). cbn [negb].
  rewrite ReplaceAll_sep by exact Hne. apply replace_from_sep_free; assumption.
Qed.
End Publish.

(** ** The file system calls *)

Section FileAbove.
Variable k : list string.

Lemma file_above_insert m n done todo :
  k = (done ++ todo)%list →
  Os.file_above (<[k := n]> m) done todo = Os.file_above m done todo.
Proof.
  revert done. induction todo as [|d todo IH]; intros done Hk; [reflexivity|].
  cbn [Os.file_above]. destruct todo as [|d' todo]; [reflexivity|].
  rewrite lookup_insert_ne.
  - destruct (m !! (done ++ [d])%list) as [[]|]; try reflexivity;
      apply IH; rewrite Hk, <- app_assoc; reflexivity.
  - rewrite Hk. intros Heq. apply (f_equal List.length) in Heq.
    rewrite !length_app in Heq. cbn in Heq. lia.
Qed.

Lemma file_above_delete m done todo :
  k = (done ++ todo)%list →
  Os.file_above (delete k m) done todo = Os.file_above m done todo.
Proof.
  revert done. induction todo as [|d todo IH]; intros done Hk; [reflexivity|].
  cbn [Os.file_above]. destruct todo as [|d' todo]; [reflexivity|].
  rewrite lookup_delete_ne.
  - destruct (m !! (done ++ [d])%list) as [[]|]; try reflexivity;
      apply IH; rewrite Hk, <- app_assoc; reflexivity.
  - rewrite Hk. intros Heq. apply (f_equal List.length) in Heq.
    rewrite !length_app in Heq. cbn in Heq. lia.
Qed.
End FileAbove.

Lemma removelast_ne (k : list string) : k ≠ nil → removelast k ≠ k.
Proof.
  intros Hk Heq. apply (f_equal List.length) in Heq.
  destruct (exists_last Hk) as (k' & d & ->).
  rewrite removelast_last, length_app in Heq. cbn in Heq. lia.
Qed.

Lemma lookup_node_insert_parent m (k : list string) n :
  k ≠ nil → Os.lookup_node (<[k := n]> m) (removelast k) = Os.lookup_node m (removelast k).
Proof.
  intros Hk. unfold Os.lookup_node. destruct (removelast k) eqn:E; [reflexivity|].
  rewrite lookup_insert_ne; [reflexivity|]. rewrite <- E. apply not_eq_sym, removelast_ne, Hk.
Qed.

Lemma lookup_node_delete_parent m (k : list string) :
  k ≠ nil → Os.lookup_node (delete k m) (removelast k) = Os.lookup_node m (removelast k).
Proof.
  intros Hk. unfold Os.lookup_node. destruct (removelast k) eqn:E; [reflexivity|].
  rewrite lookup_delete_ne; [reflexivity|]. rewrite <- E. apply not_eq_sym, removelast_ne, Hk.
Qed.

(** [mkdirs] adds directories only: the files are those there before. *)
Lemma mkdirs_files m done todo m' err k data :
  Os.mkdirs m done todo = (m', err) →
  m' !! k = Some (File data) ↔ m !! k = Some (File data).
Proof.
  revert m done. induction todo as [|d todo IH]; intros m done Hm; cbn in Hm.
  - injection Hm as <- _. reflexivity.
  - destruct (m !! (done ++ [d])%list) as [[]|] eqn:E.
    + injection Hm as <- _. reflexivity.
    + exact (IH _ _ Hm).
    + rewrite (IH _ _ Hm). destruct (decide (k = (done ++ [d])%list)) as [->|Hne].
      * rewrite lookup_insert_eq, E. split; discriminate.
      * rewrite lookup_insert_ne by congruence. reflexivity.
Qed.

Section CallFacts.
Context `{Host}.

(** The entry a successful [Stat] found. *)
Lemma Stat_Ok path w info :
  Os.Stat path w = Ok info →
  ∃ k n, resolve path = Some k ∧ Os.file_above (fs w) nil k = false
         ∧ Os.lookup_node (fs w) k = Some n
         ∧ info = match n with
                  | File data => {| Os.Size := Bytes.len data; Os.IsDir := false |}
                  | Dir => {| Os.Size := dirSize; Os.IsDir := true |}
                  end.
Proof.
  unfold Os.Stat. destruct (resolve path) as [k|]; [|discriminate].
  destruct (Os.file_above (fs w) nil k) eqn:Ha; [discriminate|].
  destruct (Os.lookup_node (fs w) k) as [n|] eqn:Hn; [|discriminate].
  intros Hi. exists k, n. repeat split; destruct n; congruence.
Qed.

Lemma Stat_file path w info :
  Os.Stat path w = Ok info → Os.IsDir info = false →
  ∃ k data, resolve path = Some k ∧ k ≠ nil ∧ Os.file_above (fs w) nil k = false
            ∧ fs w !! k = Some (File data) ∧ Os.Size info = Bytes.len data.
Proof.
  intros Hs Hd. destruct (Stat_Ok _ _ _ Hs) as (k & n & Hk & Ha & Hn & ->).
  destruct n as [data|]; [|discriminate]. exists k, data.
  destruct k; [discriminate|]. repeat split; auto.
Qed.

Lemma Remove_file path w k data :
  resolve path = Some k → Os.file_above (fs w) nil k = false →
  fs w !! k = Some (File data) →
  Os.Remove path w = (None, mkWorld (delete k (fs w)) (trace w ++ [EvRemove path])).
Proof. intros Hk Ha Hf. unfold Os.Remove. rewrite Hk, Ha, Hf. reflexivity. Qed.

Lemma Create_trace path w r w' :
  Os.Create path w = (r, w') → trace w' = (trace w ++ [EvCreate path])%list.
Proof.
  unfold Os.Create. destruct (resolve path) as [k|]; [|intros [= _ <-]; reflexivity].
  destruct (Os.file_above (fs w) nil k); [intros [= _ <-]; reflexivity|].
  destruct k; [intros [= _ <-]; reflexivity|].
  destruct (Os.lookup_node _ _) as [[]|]; try (intros [= _ <-]; reflexivity).
  destruct (fs w !! _) as [[]|]; intros [= _ <-]; reflexivity.
Qed.

Lemma Create_Ok path w f w' :
  Os.Create path w = (Ok f, w') →
  f = path ∧ ∃ k, resolve path = Some k ∧ k ≠ nil
    ∧ Os.file_above (fs w) nil k = false
    ∧ Os.lookup_node (fs w) (removelast k) = Some Dir
    ∧ fs w !! k ≠ Some Dir
    ∧ w' = mkWorld (<[k := File EmptyString]> (fs w)) (trace w ++ [EvCreate path]).
Proof.
  unfold Os.Create. destruct (resolve path) as [k|]; [|discriminate].
  destruct (Os.file_above (fs w) nil k) eqn:Ha; [discriminate|].
  destruct k as [|d k]; [discriminate|].
  destruct (Os.lookup_node _ _) as [[]|] eqn:Hp; try discriminate.
  destruct (fs w !! (d :: k)) as [[]|] eqn:Hk; intros [= <- <-];
    (split; [reflexivity|]); exists (d :: k); repeat split; congruence.
Qed.

Lemma Create_file path w k :
  resolve path = Some k → k ≠ nil → Os.file_above (fs w) nil k = false →
  Os.lookup_node (fs w) (removelast k) = Some Dir → fs w !! k ≠ Some Dir →
  Os.Create path w =
    (Ok path, mkWorld (<[k := File EmptyString]> (fs w)) (trace w ++ [EvCreate path])).
Proof.
  intros Hk Hne Ha Hp Hd. unfold Os.Create. rewrite Hk, Ha.
  destruct k as [|d k]; [congruence|]. rewrite Hp.
  destruct (fs w !! (d :: k)) as [[]|]; try reflexivity. congruence.
Qed.

Lemma Write_created path k m tr data :
  resolve path = Some k →
  Os.Write path data (mkWorld (<[k := File EmptyString]> m) tr) =
    mkWorld (<[k := File data]> m) (tr ++ [EvWrite path data]).
Proof.
  intros Hk. unfold Os.Write. cbn [fs trace]. rewrite Hk, lookup_insert_eq.
  rewrite insert_insert_eq. reflexivity.
Qed.

Lemma ReadFile_insert path k m tr data :
  resolve path = Some k →
  Os.ReadFile path (mkWorld (<[k := File data]> m) tr) = Some data.
Proof. intros Hk. unfold Os.ReadFile. cbn [fs]. rewrite Hk, lookup_insert_eq. reflexivity. Qed.

End CallFacts.

Section StepFrames.
Context `{Host}.

(** [locate] reads and writes the record only, and of the record only the
    three paths. *)
Lemma locate_frame s param r w o r' w' :
  locate s param (r, w) = (o, (r', w')) →
  w' = w
  ∧ (Size r' = Size r ∧ Name r' = Name r ∧ Hash r' = Hash r
     ∧ FileExt r' = FileExt r ∧ OriginName r' = OriginName r)
  ∧ (∀ w2, locate s param (r, w2) = (o, (r', w2)))
  ∧ (∀ e, o = Fail e → PathAbs r' = EmptyString).
Proof.
  unfold locate. run_M.
  destruct (nonempty (StorageSubDirectory param)); run_M; cbn [PathRlt set_PathRlt set_PathUri set_PathAbs];
    (destruct (IsAbs _); run_M;
     [| cbn [PathRlt set_PathRlt set_PathUri set_PathAbs]; destruct (Abs _); run_M]);
    intros [= <- <- <-]; (repeat split; try reflexivity; intros; discriminate).
Qed.

Lemma ensureDirectory_run dir r w :
  ensureDirectory dir (r, w) =
  match Os.Stat (PathAbs r) w with
  | Fail err =>
      if Os.IsNotExist err
      then match Os.MkdirAll dir w with
           | (Some e, w') => (Fail e, (r, w'))
           | (None, w') => (Ok tt, (r, w'))
           end
      else (Ok tt, (r, w))
  | Ok _ => (Ok tt, (r, w))
  end.
Proof.
  unfold ensureDirectory. run_M.
  destruct (Os.Stat (PathAbs r) w) as [info|err]; [reflexivity|].
  destruct (Os.IsNotExist err); [|reflexivity].
  run_M. destruct (Os.MkdirAll dir w) as [[e|] w']; reflexivity.
Qed.

Lemma MkdirAll_frame dir w err w' :
  Os.MkdirAll dir w = (err, w') →
  trace w' = (trace w ++ [EvMkdirAll dir])%list
  ∧ ∀ k data, fs w' !! k = Some (File data) ↔ fs w !! k = Some (File data).
Proof.
  unfold Os.MkdirAll. destruct (resolve dir) as [k|].
  - destruct (Os.mkdirs (fs w) nil k) as [m e] eqn:Hm. intros [= <- <-]. split; [reflexivity|].
    intros k' data. cbn [fs]. exact (mkdirs_files _ _ _ _ _ _ _ Hm).
  - intros [= <- <-]. split; reflexivity.
Qed.

Lemma ensureDirectory_frame dir r w o r' w' :
  ensureDirectory dir (r, w) = (o, (r', w')) →
  r' = r ∧ ∀ k data, fs w' !! k = Some (File data) ↔ fs w !! k = Some (File data).
Proof.
  rewrite ensureDirectory_run.
  destruct (Os.Stat (PathAbs r) w) as [info|err]; [intros [= <- <- <-]; split; reflexivity|].
  destruct (Os.IsNotExist err); [|intros [= <- <- <-]; split; reflexivity].
  destruct (Os.MkdirAll dir w) as [[e|] w1] eqn:Hm; intros [= <- <- <-];
    (split; [reflexivity | exact (proj2 (MkdirAll_frame _ _ _ _ Hm))]).
Qed.

End StepFrames.


Section Writes.
Context `{Host}.

Lemma Stat_empty w : Os.Stat EmptyString w = Fail ENOENT.
Proof. unfold Os.Stat. rewrite resolve_empty. reflexivity. Qed.

Lemma Write_trace f data w :
  trace (Os.Write f data w) = (trace w ++ [EvWrite f data])%list.
Proof.
  unfold Os.Write. destruct (resolve f); [destruct (fs w !! _) as [[]|]|]; reflexivity.
Qed.


Lemma create_write_Ok path data re w w' :
  create_write path data re w = (Ok tt, w') →
  re = None ∧ ∃ k, resolve path = Some k ∧ k ≠ nil
    ∧ Os.file_above (fs w) nil k = false
    ∧ Os.lookup_node (fs w) (removelast k) = Some Dir
    ∧ fs w !! k ≠ Some Dir
    ∧ w' = mkWorld (<[k := File data]> (fs w))
                   (trace w ++ [EvCreate path; EvWrite path data]).
Proof.
  unfold create_write. destruct (Os.Create path w) as [[dst|e] w1] eqn:Hc; [|discriminate].
  destruct re; [discriminate|]. intros [= <-]. split; [reflexivity|].
  destruct (Create_Ok _ _ _ _ Hc) as (-> & k & Hk & Hne & Ha & Hp & Hd & ->).
  exists k. repeat split; try assumption.
  rewrite (Write_created _ _ _ _ _ Hk), <- app_assoc. reflexivity.
Qed.

Lemma create_write_file path data w k :
  resolve path = Some k → k ≠ nil → Os.file_above (fs w) nil k = false →
  Os.lookup_node (fs w) (removelast k) = Some Dir → fs w !! k ≠ Some Dir →
  create_write path data None w =
    (Ok tt, mkWorld (<[k := File data]> (fs w))
                    (trace w ++ [EvCreate path; EvWrite path data])).
Proof.
  intros Hk Hne Ha Hp Hd. unfold create_write.
  rewrite (Create_file _ _ _ Hk Hne Ha Hp Hd), (Write_created _ _ _ _ _ Hk), <- app_assoc.
  reflexivity.
Qed.

Lemma create_write_trace path data re w o w' :
  create_write path data re w = (o, w') →
  ∃ tl, trace w' = (trace w ++ EvCreate path :: tl)%list ∧ forallb (fun e => negb (is_remove e)) tl = true.
Proof.
  unfold create_write. destruct (Os.Create path w) as [[dst|e] w1] eqn:Hc.
  - destruct re; intros [= <- <-].
    + exists nil. rewrite (Create_trace _ _ _ _ Hc). split; reflexivity.
    + exists [EvWrite dst data]. split; [|reflexivity].
      rewrite Write_trace, (Create_trace _ _ _ _ Hc), <- app_assoc. reflexivity.
  - intros [= <- <-]. exists nil. rewrite (Create_trace _ _ _ _ Hc). split; reflexivity.
Qed.


Lemma multipartWrite_run src r w :
  multipartWrite src (r, w) =
  match remove_if (fun stat => (Os.Size stat =? Size r) && negb (Os.IsDir stat)) (PathAbs r) w with
  | (Some e, w1) => (Fail e, (r, w1))
  | (None, w1) =>
      let '(o, w2) := create_write (PathAbs r) (IO.data (Multipart.reader src))
                        (IO.read_error (Multipart.reader src)) w1 in
      (o, (r, w2))
  end.
Proof.
  unfold multipartWrite, remove_if, create_write. run_M.
  destruct (Os.Stat (PathAbs r) w) as [stat|e].
  - destruct ((Os.Size stat =? Size r) && negb (Os.IsDir stat)); run_M.
    + destruct (Os.Remove (PathAbs r) w) as [[e1|] w1]; [reflexivity|].
      destruct (Os.Create (PathAbs r) w1) as [[dst|e2] w2]; [|reflexivity].
      destruct (IO.read_error _); reflexivity.
    + destruct (Os.Create (PathAbs r) w) as [[dst|e2] w2]; [|reflexivity].
      destruct (IO.read_error _); reflexivity.
  - run_M. destruct (Os.Create (PathAbs r) w) as [[dst|e2] w2]; [|reflexivity].
    destruct (IO.read_error _); reflexivity.
Qed.

Lemma base64Write_run imageContent r w :
  base64Write imageContent (r, w) =
  match remove_if (fun stat => negb (Os.IsDir stat)) (PathAbs r) w with
  | (Some e, w1) => (Fail e, (r, w1))
  | (None, w1) =>
      let '(o, w2) := create_write (PathAbs r) imageContent None w1 in
      (o, (r, w2))
  end.
Proof.
  unfold base64Write, remove_if, create_write. run_M.
  destruct (Os.Stat (PathAbs r) w) as [stat|e].
  - destruct (negb (Os.IsDir stat)); run_M.
    + destruct (Os.Remove (PathAbs r) w) as [[e1|] w1]; [reflexivity|].
      destruct (Os.Create (PathAbs r) w1) as [[dst|e2] w2]; reflexivity.
    + destruct (Os.Create (PathAbs r) w) as [[dst|e2] w2]; reflexivity.
  - run_M. destruct (Os.Create (PathAbs r) w) as [[dst|e2] w2]; reflexivity.
Qed.

(** A removal happens only for a file, and then succeeds. *)
Lemma remove_if_spec cond path w :
  (∀ stat, cond stat = true → Os.IsDir stat = false) →
  match Os.Stat path w with
  | Ok stat =>
      if cond stat
      then ∃ k data, resolve path = Some k ∧ k ≠ nil ∧ Os.file_above (fs w) nil k = false
             ∧ fs w !! k = Some (File data)
             ∧ remove_if cond path w =
                 (None, mkWorld (delete k (fs w)) (trace w ++ [EvRemove path]))
      else remove_if cond path w = (None, w)
  | Fail _ => remove_if cond path w = (None, w)
  end.
Proof.
  intros Hcond. unfold remove_if.
  destruct (Os.Stat path w) as [stat|e] eqn:Hs; [|reflexivity].
  destruct (cond stat) eqn:Hc; [|reflexivity].
  destruct (Stat_file _ _ _ Hs (Hcond _ Hc)) as (k & data & Hk & Hne & Ha & Hf & _).
  exists k, data. repeat split; try assumption. apply (Remove_file _ _ _ _ Hk Ha Hf).
Qed.

Lemma remove_if_cases cond path w :
  (∀ stat, cond stat = true → Os.IsDir stat = false) →
  remove_if cond path w = (None, w)
  ∨ ∃ k data, resolve path = Some k ∧ k ≠ nil ∧ Os.file_above (fs w) nil k = false
      ∧ fs w !! k = Some (File data)
      ∧ remove_if cond path w =
          (None, mkWorld (delete k (fs w)) (trace w ++ [EvRemove path])).
Proof.
  intros Hcond. pose proof (remove_if_spec cond path w Hcond) as Hs.
  destruct (Os.Stat path w) as [stat|e]; [destruct (cond stat)|]; auto.
Qed.

Lemma multipart_cond_file r stat :
  (Os.Size stat =? Size r) && negb (Os.IsDir stat) = true → Os.IsDir stat = false.
Proof. rewrite andb_true_iff, negb_true_iff. tauto. Qed.

Lemma base64_cond_file stat : negb (Os.IsDir stat) = true → Os.IsDir stat = false.
Proof. rewrite negb_true_iff. tauto. Qed.

(** After a removal (if any) the write succeeds exactly when the parent
    is a directory and the entry is not; the file then holds [data]. *)
Lemma write_Ok cond path data re w w1 w' :
  (∀ stat, cond stat = true → Os.IsDir stat = false) →
  remove_if cond path w = (None, w1) →
  create_write path data re w1 = (Ok tt, w') →
  re = None ∧ ∃ k, resolve path = Some k ∧ k ≠ nil
    ∧ Os.file_above (fs w) nil k = false
    ∧ Os.lookup_node (fs w) (removelast k) = Some Dir
    ∧ fs w !! k ≠ Some Dir
    ∧ fs w' = <[k := File data]> (fs w)
    ∧ Os.ReadFile path w' = Some data.
Proof.
  intros Hcond Hr Hw.
  destruct (create_write_Ok _ _ _ _ _ Hw) as (-> & k & Hk & Hne & Ha & Hp & Hd & ->).
  split; [reflexivity|]. exists k.
  destruct (remove_if_cases cond path w Hcond) as [Hr'|(k' & d0 & Hk' & _ & Ha' & Hf & Hr')];
    rewrite Hr' in Hr; injection Hr as <-.
  - repeat split; try assumption.
    apply (ReadFile_insert _ _ _ _ _ Hk).
  - assert (k' = k) as -> by congruence. cbn [fs] in *.
    rewrite file_above_delete in Ha by reflexivity.
    rewrite lookup_node_delete_parent in Hp by assumption.
    repeat split; try assumption.
    + rewrite Hf. discriminate.
    + apply insert_delete_eq.
    + apply (ReadFile_insert _ _ _ _ _ Hk).
Qed.
End Writes.

Section Runs.
Context `{Host}.



(** [store] succeeds exactly through these four steps. *)
Lemma store_Ok s param write r0 w r w' :
  store s param write (r0, w) = (Ok tt, (r, w')) ↔
  ∃ dir r1 w1,
    locate s param (r0, w) = (Ok dir, (r1, w))
    ∧ ensureDirectory dir (r1, w) = (Ok tt, (r1, w1))
    ∧ write (set_PathUri (public_uri s param (PathUri r1)) r1, w1) = (Ok tt, (r, w')).
Proof.
  unfold store. run_M. split.
  - destruct (locate s param (r0, w)) as [[dir|e] [r1 wl]] eqn:Hl; [|discriminate].
    destruct (locate_frame _ _ _ _ _ _ _ Hl) as (-> & _).
    destruct (ensureDirectory dir (r1, w)) as [[[]|e] [r2 w1]] eqn:He; [|discriminate].
    destruct (ensureDirectory_frame _ _ _ _ _ _ He) as (-> & _).
    rewrite publish_run.
    intros Hw. exists dir, r1, w1. auto.
  - intros (dir & r1 & w1 & -> & -> & Hw). rewrite publish_run. exact Hw.
Qed.

Lemma store_ext s param write1 write2 st :
  (∀ st', write1 st' = write2 st') →
  store s param write1 st = store s param write2 st.
Proof.
  intros Hext. unfold store. run_M.
  destruct (locate s param st) as [[dir|e] st1]; [|reflexivity].
  destruct (ensureDirectory dir st1) as [[[]|e] st2]; [|reflexivity].
  destruct (publish s param st2) as [[[]|e] st3]; [|reflexivity].
  apply Hext.
Qed.


Lemma multipartCopy_run s param file w :
  multipartCopy s param file w =
  let r := set_OriginName (Multipart.Filename file) (set_Size (Multipart.Size file) zero_result) in
  match Multipart.Open file with
  | Fail e => ((r, Some e), w)
  | Ok src =>
      match IO.read_error (Multipart.reader src), Multipart.seek_error src with
      | Some e, _ => ((r, Some e), w)
      | None, Some e =>
          ((set_Hash (Hex.EncodeToString (Sha256.Sum256 (IO.data (Multipart.reader src)))) r,
            Some e), w)
      | None, None =>
          finish (store s param (multipartWrite src) (multipart_named file src, w))
      end
  end.
Proof.
  unfold multipartCopy, returns, multipartCopy_body, finish, store. run_M.
  destruct (Multipart.Open file) as [src|e]; [|reflexivity].
  unfold sha256Reader. destruct (IO.read_error (Multipart.reader src)); [reflexivity|].
  run_M. destruct (Multipart.seek_error src); reflexivity.
Qed.

Lemma multipartCopy_Ok s param file w r w' :
  multipartCopy s param file w = ((r, None), w') ↔
  ∃ src, Multipart.Open file = Ok src
    ∧ IO.read_error (Multipart.reader src) = None
    ∧ Multipart.seek_error src = None
    ∧ store s param (multipartWrite src) (multipart_named file src, w) = (Ok tt, (r, w')).
Proof.
  rewrite multipartCopy_run. cbv zeta. split.
  - destruct (Multipart.Open file) as [src|e]; [|discriminate].
    destruct (IO.read_error _) eqn:Hr; [discriminate|].
    destruct (Multipart.seek_error src) eqn:Hs; [discriminate|].
    destruct (store _ _ _ _) as [[[]|e] [r1 w1]] eqn:Hst; [|discriminate].
    intros [= <- <-]. exists src. auto.
  - intros (src & -> & -> & -> & ->). reflexivity.
Qed.


Lemma base64Copy_run s param content w :
  base64Copy s param content w =
  match Regexp.FindAllSubmatch content with
  | [whole; subtype; payload] :: _ =>
      match Base64.DecodeString payload with
      | (_, Some e) => ((zero_result, Some e), w)
      | (imageContent, None) =>
          finish (store s param (base64Write imageContent) (base64_named content subtype, w))
      end
  | _ => ((zero_result, Some (Errorf "illegal image base64 value")), w)
  end.
Proof.
  unfold base64Copy, returns, base64Copy_body, finish, store.
  unfold Regexp.FindAllSubmatch.
  destruct (Regexp.match_prefix content) as [m|] eqn:Hm; [|reflexivity].
  unfold Regexp.match_prefix in Hm.
  destruct (Strings.strip "data:" content) as [r1|]; [|discriminate]. cbn [mbind option_bind] in Hm.
  destruct (Strings.strip "image/" _) as [r3|]; [|discriminate]. cbn [mbind option_bind] in Hm.
  destruct (Strings.take_while Regexp.is_word r3) as [|c subtype]; [discriminate|].
  destruct (Strings.strip ";base64," _) as [r5|]; [|discriminate]. cbn [mbind option_bind] in Hm.
  injection Hm as <-. cbn [List.length nth Nat.eqb Nat.ltb Nat.leb orb].
  destruct (Base64.DecodeString _) as [imageContent [e|]]; reflexivity.
Qed.

Lemma base64Copy_Ok s param content w r w' :
  base64Copy s param content w = ((r, None), w') ↔
  ∃ whole subtype payload imageContent,
    Regexp.FindAllSubmatch content = [[whole; subtype; payload]]
    ∧ Base64.DecodeString payload = (imageContent, None)
    ∧ store s param (base64Write imageContent) (base64_named content subtype, w)
      = (Ok tt, (r, w')).
Proof.
  rewrite base64Copy_run. unfold Regexp.FindAllSubmatch.
  destruct (Regexp.match_prefix content) as [m|] eqn:Hm.
  - destruct m as [|whole [|subtype [|payload [|]]]];
      try (split; [discriminate | intros (?&?&?&?&?&_); discriminate]).
    destruct (Base64.DecodeString payload) as [imageContent [e|]] eqn:Hd.
    + split; [discriminate|]. intros (?&?&?&?& [= _ _ <-] & Hd' & _). congruence.
    + split.
      * destruct (store _ _ _ _) as [[[]|e] [r1 w1]] eqn:Hs; [|discriminate].
        intros [= <- <-]. exists whole, subtype, payload, imageContent. auto.
      * intros (?&?&?& ic & [= <- <- <-] & Hd' & Hs).
        assert (ic = imageContent) as -> by congruence.
        rewrite Hs. reflexivity.
  - split; [discriminate | intros (?&?&?&?&?&_); discriminate].
Qed.

End Runs.

Section StoreFacts.
Context `{Host}.


Lemma multipart_cond_files : removes_files multipart_cond.
Proof. intros r stat. apply multipart_cond_file. Qed.

Lemma base64_cond_files : removes_files base64_cond.
Proof. intros r stat. apply base64_cond_file. Qed.

Lemma multipartWrite_with src st :
  multipartWrite src st =
  write_with multipart_cond (IO.data (Multipart.reader src))
    (IO.read_error (Multipart.reader src)) st.
Proof. destruct st as [r w]. apply multipartWrite_run. Qed.

Lemma base64Write_with imageContent st :
  base64Write imageContent st = write_with base64_cond imageContent None st.
Proof. destruct st as [r w]. apply base64Write_run. Qed.

Lemma write_with_record cond data re st o r' w' :
  write_with cond data re st = (o, (r', w')) → r' = fst st.
Proof.
  unfold write_with. destruct (remove_if _ _ _) as [[e|] w1]; [intros [= _ <- _]; reflexivity|].
  destruct (create_write _ _ _ _) as [o2 w2]. intros [= _ <- _]. reflexivity.
Qed.

Lemma write_with_Ok cond data re r w r' w' :
  removes_files cond →
  write_with cond data re (r, w) = (Ok tt, (r', w')) →
  r' = r ∧ re = None ∧ ∃ k, resolve (PathAbs r) = Some k ∧ k ≠ nil
    ∧ Os.file_above (fs w) nil k = false
    ∧ Os.lookup_node (fs w) (removelast k) = Some Dir
    ∧ fs w !! k ≠ Some Dir
    ∧ fs w' = <[k := File data]> (fs w)
    ∧ Os.ReadFile (PathAbs r) w' = Some data.
Proof.
  intros Hcond. unfold write_with. cbn [fst snd].
  destruct (remove_if _ _ _) as [[e|] w1] eqn:Hr; [discriminate|].
  destruct (create_write _ _ _ _) as [o2 w2] eqn:Hw. intros [= -> <- <-].
  split; [reflexivity|]. exact (write_Ok _ _ _ _ _ _ _ (Hcond r) Hr Hw).
Qed.

Lemma Stat_found path w k n :
  resolve path = Some k → Os.file_above (fs w) nil k = false →
  Os.lookup_node (fs w) k = Some n →
  Os.Stat path w = Ok match n with
                      | File data => {| Os.Size := Bytes.len data; Os.IsDir := false |}
                      | Dir => {| Os.Size := dirSize; Os.IsDir := true |}
                      end.
Proof. intros Hk Ha Hn. unfold Os.Stat. rewrite Hk, Ha, Hn. destruct n; reflexivity. Qed.

Lemma lookup_node_cons m (k : list string) : k ≠ nil → Os.lookup_node m k = m !! k.
Proof. destruct k; [congruence | reflexivity]. Qed.

(** Writing over a file that is there: only its contents change. *)
Lemma write_with_existing cond data r w k data0 :
  removes_files cond →
  resolve (PathAbs r) = Some k → k ≠ nil →
  Os.file_above (fs w) nil k = false →
  Os.lookup_node (fs w) (removelast k) = Some Dir →
  fs w !! k = Some (File data0) →
  ∃ w', write_with cond data None (r, w) = (Ok tt, (r, w'))
        ∧ fs w' = <[k := File data]> (fs w).
Proof.
  intros Hcond Hk Hne Ha Hp Hf. unfold write_with. cbn [fst snd].
  pose proof (remove_if_spec (cond r) (PathAbs r) w (Hcond r)) as Hr.
  assert (Hn : Os.lookup_node (fs w) k = Some (File data0))
    by (rewrite lookup_node_cons; assumption).
  rewrite (Stat_found _ _ _ _ Hk Ha Hn) in Hr.
  destruct (cond r _).
  - destruct Hr as (k' & d' & Hk' & _ & _ & _ & ->).
    assert (k' = k) as -> by congruence.
    rewrite (create_write_file _ _ _ k); cbn [fs trace]; try assumption.
    + eexists. split; [reflexivity|]. cbn [fs]. apply insert_delete_eq.
    + rewrite file_above_delete by reflexivity. assumption.
    + rewrite lookup_node_delete_parent by assumption. assumption.
    + rewrite lookup_delete_eq. discriminate.
  - rewrite Hr. rewrite (create_write_file _ _ _ k); try assumption.
    + eexists. split; reflexivity.
    + rewrite Hf. discriminate.
Qed.

(** When the entry is there before the call, the trace of the write. *)
Lemma write_with_trace cond data re r w info :
  removes_files cond →
  Os.Stat (PathAbs r) w = Ok info →
  ∃ o w' tl, write_with cond data re (r, w) = (o, (r, w'))
    ∧ trace w' = (trace w ++ (if cond r info then [EvRemove (PathAbs r)] else nil)
                  ++ EvCreate (PathAbs r) :: tl)%list
    ∧ forallb (fun e => negb (is_remove e)) tl = true.
Proof.
  intros Hcond Hs. unfold write_with. cbn [fst snd].
  pose proof (remove_if_spec (cond r) (PathAbs r) w (Hcond r)) as Hr. rewrite Hs in Hr.
  destruct (cond r info).
  - destruct Hr as (k & d & _ & _ & _ & _ & ->).
    destruct (create_write _ _ _ _) as [o w2] eqn:Hw.
    destruct (create_write_trace _ _ _ _ _ _ Hw) as (tl & Ht & Hn).
    exists o, w2, tl. split; [reflexivity|]. split; [|exact Hn].
    rewrite Ht. cbn [trace]. rewrite <- app_assoc. reflexivity.
  - rewrite Hr. destruct (create_write _ _ _ _) as [o w2] eqn:Hw.
    destruct (create_write_trace _ _ _ _ _ _ Hw) as (tl & Ht & Hn).
    exists o, w2, tl. split; [reflexivity|]. split; [|exact Hn]. exact Ht.
Qed.

(** A successful [store]: the record and the file. *)
Lemma store_with_Ok s param cond data re r0 w r w' :
  removes_files cond →
  store s param (write_with cond data re) (r0, w) = (Ok tt, (r, w')) →
  ∃ dir r1 w1 k,
    locate s param (r0, w) = (Ok dir, (r1, w))
    ∧ ensureDirectory dir (r1, w) = (Ok tt, (r1, w1))
    ∧ r = set_PathUri (public_uri s param (PathUri r1)) r1
    ∧ re = None
    ∧ resolve (PathAbs r) = Some k ∧ k ≠ nil
    ∧ Os.file_above (fs w1) nil k = false
    ∧ Os.lookup_node (fs w1) (removelast k) = Some Dir
    ∧ fs w1 !! k ≠ Some Dir
    ∧ fs w' = <[k := File data]> (fs w1)
    ∧ Os.ReadFile (PathAbs r) w' = Some data.
Proof.
  intros Hcond Hs. apply store_Ok in Hs. destruct Hs as (dir & r1 & w1 & Hl & He & Hw).
  destruct (write_with_Ok _ _ _ _ _ _ _ Hcond Hw) as (-> & -> & k & Hk & Hne & Ha & Hp & Hd & Hf & Hrd).
  exists dir, r1, w1, k. repeat split; assumption.
Qed.

(** The fields of the record that [store] leaves as they were. *)
Lemma store_with_fields s param cond data re r0 w r w' :
  removes_files cond →
  store s param (write_with cond data re) (r0, w) = (Ok tt, (r, w')) →
  Size r = Size r0 ∧ Name r = Name r0 ∧ Hash r = Hash r0
  ∧ FileExt r = FileExt r0 ∧ OriginName r = OriginName r0
  ∧ Strings.HasPrefix (PathUri r) "/" = true
  ∧ (PathSeparator ≠ Path.slash → Strings.contains_byte PathSeparator (PathUri r) = false).
Proof.
  intros Hcond Hs.
  destruct (store_with_Ok _ _ _ _ _ _ _ _ _ Hcond Hs) as (dir & r1 & w1 & k & Hl & _ & -> & _).
  destruct (locate_frame _ _ _ _ _ _ _ Hl) as (_ & (H1 & H2 & H3 & H4 & H5) & _).
  cbn [Size Name Hash FileExt OriginName PathUri set_PathUri].
  repeat split; try assumption.
  - apply public_uri_rooted.
  - apply public_uri_sep_free.
Qed.

End StoreFacts.

Section Copies.
Context `{Host}.

Lemma multipartCopy_store s param file w r w' :
  multipartCopy s param file w = ((r, None), w') ↔
  ∃ src, Multipart.Open file = Ok src
    ∧ IO.read_error (Multipart.reader src) = None
    ∧ Multipart.seek_error src = None
    ∧ store s param (write_with multipart_cond (IO.data (Multipart.reader src)) None)
        (multipart_named file src, w) = (Ok tt, (r, w')).
Proof.
  rewrite multipartCopy_Ok. split; intros (src & Ho & Hr & Hs & Hst); exists src;
    (repeat split; try assumption).
  - rewrite <- Hr, <- Hst. symmetry. apply store_ext, multipartWrite_with.
  - rewrite <- Hst, <- Hr. apply store_ext, multipartWrite_with.
Qed.

Lemma base64Copy_store s param content w r w' :
  base64Copy s param content w = ((r, None), w') ↔
  ∃ whole subtype payload imageContent,
    Regexp.FindAllSubmatch content = [[whole; subtype; payload]]
    ∧ Base64.DecodeString payload = (imageContent, None)
    ∧ store s param (write_with base64_cond imageContent None)
        (base64_named content subtype, w) = (Ok tt, (r, w')).
Proof.
  rewrite base64Copy_Ok.
  split; intros (whole & subtype & payload & ic & Hm & Hd & Hst);
    exists whole, subtype, payload, ic; (repeat split; try assumption).
  - rewrite <- Hst. symmetry. apply store_ext, base64Write_with.
  - rewrite <- Hst. apply store_ext, base64Write_with.
Qed.

(** *** What a successful [multipartCopy] stored and returned *)
Lemma multipartCopy_stored s param file w r w' :
  multipartCopy s param file w = ((r, None), w') →
  ∃ src, Multipart.Open file = Ok src
    ∧ Os.ReadFile (PathAbs r) w' = Some (IO.data (Multipart.reader src))
    ∧ Hash r = Hex.EncodeToString (Sha256.Sum256 (IO.data (Multipart.reader src)))
    ∧ FileExt r = Path.Ext (Multipart.Filename file)
    ∧ Name r = Hash r ++ FileExt r
    ∧ Size r = Multipart.Size file
    ∧ OriginName r = Multipart.Filename file.
Proof.
  intros Hrun. apply multipartCopy_store in Hrun. destruct Hrun as (src & Ho & _ & _ & Hst).
  exists src. split; [exact Ho|].
  destruct (store_with_fields _ _ _ _ _ _ _ _ _ multipart_cond_files Hst)
    as (H1 & H2 & H3 & H4 & H5 & _).
  destruct (store_with_Ok _ _ _ _ _ _ _ _ _ multipart_cond_files Hst)
    as (dir & r1 & w1 & k & _ & _ & _ & _ & _ & _ & _ & _ & _ & _ & Hrd).
  split; [exact Hrd|]. rewrite H1, H2, H3, H4, H5. repeat split.
Qed.

(** *** What a successful [base64Copy] stored and returned *)
Lemma base64Copy_stored s param content w r w' :
  base64Copy s param content w = ((r, None), w') →
  ∃ whole subtype payload imageContent,
    Regexp.FindAllSubmatch content = [[whole; subtype; payload]]
    ∧ Base64.DecodeString payload = (imageContent, None)
    ∧ Os.ReadFile (PathAbs r) w' = Some imageContent
    ∧ Hash r = Hex.EncodeToString (Sha256.Sum256 content)
    ∧ FileExt r = "." ++ subtype
    ∧ Name r = Hash r ++ FileExt r
    ∧ Size r = 0
    ∧ OriginName r = EmptyString.
Proof.
  intros Hrun. apply base64Copy_store in Hrun.
  destruct Hrun as (whole & subtype & payload & ic & Hm & Hd & Hst).
  exists whole, subtype, payload, ic. split; [exact Hm|]. split; [exact Hd|].
  destruct (store_with_fields _ _ _ _ _ _ _ _ _ base64_cond_files Hst)
    as (H1 & H2 & H3 & H4 & H5 & _).
  destruct (store_with_Ok _ _ _ _ _ _ _ _ _ base64_cond_files Hst)
    as (dir & r1 & w1 & k & _ & _ & _ & _ & _ & _ & _ & _ & _ & _ & Hrd).
  split; [exact Hrd|]. rewrite H1, H2, H3, H4, H5. repeat split.
Qed.

Lemma hash_shape msg :
  String.length (Hex.EncodeToString (Sha256.Sum256 msg)) = 64%nat
  ∧ all_bytes Hex.is_lower_hex (Hex.EncodeToString (Sha256.Sum256 msg)) = true.
Proof. rewrite hex_length, Sum256_length, hex_lower. split; reflexivity. Qed.

(** *** When the entry exists before the call *)
Lemma store_existing s param cond data re r0 w r err w' info :
  removes_files cond → PathAbs r0 = EmptyString →
  finish (store s param (write_with cond data re) (r0, w)) = ((r, err), w') →
  Os.Stat (PathAbs r) w = Ok info →
  ∃ tl, trace w' = (trace w ++ (if cond r info then [EvRemove (PathAbs r)] else nil)
                    ++ EvCreate (PathAbs r) :: tl)%list
        ∧ forallb (fun e => negb (is_remove e)) tl = true.
Proof.
  intros Hcond H0. unfold store. run_M.
  destruct (locate s param (r0, w)) as [[dir|e] [r1 wl]] eqn:Hl;
    destruct (locate_frame _ _ _ _ _ _ _ Hl) as (-> & _ & _ & Hfail).
  2:{ cbn [finish]. intros [= <- _ _]. rewrite (Hfail e eq_refl), Stat_empty. discriminate. }
  rewrite ensureDirectory_run.
  set (r2 := set_PathUri (public_uri s param (PathUri r1)) r1).
  destruct (Os.Stat (PathAbs r1) w) as [info1|e0] eqn:Hs1.
  - rewrite publish_run. fold r2.
    destruct (write_with_trace cond data re r2 w info1 Hcond Hs1) as (o & w2 & tl & Hw & Ht & Hn).
    rewrite Hw. destruct o as [[]|e]; cbn [finish]; intros [= <- _ <-] Hs;
      cbn [r2 PathAbs set_PathUri] in Hs; rewrite Hs1 in Hs; injection Hs as <-;
      exists tl; split; assumption.
  - assert (Hno : ∀ o w1 w2 r',
              write_with cond data re (r2, w1) = (o, (r', w2)) →
              Os.Stat (PathAbs r') w = Ok info → False).
    { intros o w1 w2 r' Hw Hs. apply write_with_record in Hw. subst r'.
      cbn [fst r2 PathAbs set_PathUri] in Hs. congruence. }
    destruct (Os.IsNotExist e0).
    + destruct (Os.MkdirAll dir w) as [[e|] w1].
      * cbn [finish]. intros [= <- _ _] Hs. congruence.
      * rewrite publish_run. fold r2.
        destruct (write_with cond data re (r2, w1)) as [o [r' w2]] eqn:Hw.
        destruct o as [[]|e]; cbn [finish]; intros [= <- _ _] Hs;
          exfalso; exact (Hno _ _ _ _ Hw Hs).
    + rewrite publish_run. fold r2.
      destruct (write_with cond data re (r2, w)) as [o [r' w2]] eqn:Hw.
      destruct o as [[]|e]; cbn [finish]; intros [= <- _ _] Hs;
        exfalso; exact (Hno _ _ _ _ Hw Hs).
Qed.

Lemma finish_store_ext s param write1 write2 st :
  (∀ st', write1 st' = write2 st') →
  finish (store s param write1 st) = finish (store s param write2 st).
Proof. intros Hext. rewrite (store_ext _ _ _ _ _ Hext). reflexivity. Qed.

Lemma multipartCopy_existing s param file src w r err w' info :
  Multipart.parsed file → Multipart.Open file = Ok src →
  multipartCopy s param file w = ((r, err), w') →
  Os.Stat (PathAbs r) w = Ok info →
  ∃ tl, trace w' =
          (trace w ++ (if (Os.Size info =? Bytes.len (IO.data (Multipart.reader src)))
                          && negb (Os.IsDir info)
                       then [EvRemove (PathAbs r)] else nil)
           ++ EvCreate (PathAbs r) :: tl)%list
        ∧ forallb (fun e => negb (is_remove e)) tl = true.
Proof.
  intros Hp Ho. unfold Multipart.parsed in Hp. rewrite Ho in Hp.
  rewrite multipartCopy_run, Ho. cbv zeta.
  destruct (IO.read_error (Multipart.reader src)) eqn:Hr.
  { intros [= <- _ _]. cbn [PathAbs set_Hash set_OriginName set_Size zero_result]. rewrite Stat_empty. discriminate. }
  destruct (Multipart.seek_error src).
  { generalize (Hex.EncodeToString (Sha256.Sum256 (IO.data (Multipart.reader src)))).
    intros h [= <- _ _]. cbn [PathAbs set_Hash set_OriginName set_Size zero_result].
    rewrite Stat_empty. discriminate. }
  rewrite (finish_store_ext _ _ _ _ _ (multipartWrite_with src)), Hr.
  intros Hrun Hs.
  assert (H0 : PathAbs (multipart_named file src) = EmptyString) by reflexivity.
  destruct (store_existing _ _ _ _ _ _ _ _ _ _ _ multipart_cond_files H0 Hrun Hs)
    as (tl & Ht & Hn).
  exists tl. split; [|exact Hn]. rewrite Ht. unfold multipart_cond.
  replace (Size r) with (Bytes.len (IO.data (Multipart.reader src))); [reflexivity|].
  rewrite <- Hp. clear Ht Hs Hn.
  unfold store in Hrun. revert Hrun. run_M.
  destruct (locate s param _) as [[dir|e] [r1 wl]] eqn:Hl;
    destruct (locate_frame _ _ _ _ _ _ _ Hl) as (-> & (Hsz & _) & _).
  2:{ cbn [finish]. intros [= <- _ _]. rewrite Hsz. reflexivity. }
  destruct (ensureDirectory dir (r1, w)) as [[[]|e] [r2 w1]] eqn:He;
    destruct (ensureDirectory_frame _ _ _ _ _ _ He) as (-> & _).
  2:{ cbn [finish]. intros [= <- _ _]. rewrite Hsz. reflexivity. }
  rewrite publish_run.
  destruct (write_with _ _ _ _) as [o [r' w2]] eqn:Hw.
  apply write_with_record in Hw. subst r'. cbn [fst].
  destruct o as [[]|e]; cbn [finish]; intros [= <- _ _]; cbn [Size set_PathUri];
    rewrite Hsz; reflexivity.
Qed.

Lemma base64Copy_existing s param content w r err w' info :
  base64Copy s param content w = ((r, err), w') →
  Os.Stat (PathAbs r) w = Ok info →
  ∃ tl, trace w' =
          (trace w ++ (if negb (Os.IsDir info) then [EvRemove (PathAbs r)] else nil)
           ++ EvCreate (PathAbs r) :: tl)%list
        ∧ forallb (fun e => negb (is_remove e)) tl = true.
Proof.
  rewrite base64Copy_run.
  assert (Hz : ∀ e w0, ((zero_result, Some e), w) = ((r, err), w0) →
               Os.Stat (PathAbs r) w = Ok info → False).
  { intros e w0 [= <- _ _]. cbn [PathAbs zero_result]. rewrite Stat_empty. discriminate. }
  destruct (Regexp.FindAllSubmatch content) as [|[|whole [|subtype [|payload [|]]]] ms];
    try (intros Hrun Hs; exfalso; exact (Hz _ _ Hrun Hs)).
  destruct (Base64.DecodeString payload) as [ic [e|]];
    [intros Hrun Hs; exfalso; exact (Hz _ _ Hrun Hs)|].
  rewrite (finish_store_ext _ _ _ _ _ (base64Write_with ic)).
  intros Hrun Hs.
  assert (H0 : PathAbs (base64_named content subtype) = EmptyString) by reflexivity.
  exact (store_existing _ _ _ _ _ _ _ _ _ _ _ base64_cond_files H0 Hrun Hs).
Qed.

(** *** Storing the same upload again *)
Lemma multipartCopy_again s param file w r1 w1 :
  multipartCopy s param file w = ((r1, None), w1) →
  ∃ w2 src k,
    multipartCopy s param file w1 = ((r1, None), w2)
    ∧ fs w2 = fs w1
    ∧ Multipart.Open file = Ok src
    ∧ resolve (PathAbs r1) = Some k
    ∧ fs w2 !! k = Some (File (IO.data (Multipart.reader src)))
    ∧ ∀ k' data, fs w2 !! k' = Some (File data) → k' = k ∨ fs w !! k' = Some (File data).
Proof.
  intros Hrun. apply multipartCopy_store in Hrun. destruct Hrun as (src & Ho & Hr & Hs & Hst).
  destruct (store_with_Ok _ _ _ _ _ _ _ _ _ multipart_cond_files Hst)
    as (dir & ra & wa & k & Hl & He & Hr1 & _ & Hk & Hne & Ha & Hp & Hd & Hf & Hrd).
  destruct (locate_frame _ _ _ _ _ _ _ Hl) as (_ & _ & Hlw & _).
  destruct (ensureDirectory_frame _ _ _ _ _ _ He) as (_ & Hfiles).
  assert (Habs : PathAbs r1 = PathAbs ra) by (rewrite Hr1; reflexivity).
  set (data := IO.data (Multipart.reader src)) in *.
  assert (Ha1 : Os.file_above (fs w1) nil k = false)
    by (rewrite Hf, file_above_insert by reflexivity; exact Ha).
  assert (Hp1 : Os.lookup_node (fs w1) (removelast k) = Some Dir)
    by (rewrite Hf, lookup_node_insert_parent by exact Hne; exact Hp).
  assert (Hf1 : fs w1 !! k = Some (File data)) by (rewrite Hf; apply lookup_insert_eq).
  destruct (write_with_existing multipart_cond data r1 w1 k data multipart_cond_files
              Hk Hne Ha1 Hp1 Hf1) as (w2 & Hw & Hf2).
  assert (Hsame : fs w2 = fs w1) by (rewrite Hf2; apply insert_id; exact Hf1).
  exists w2, src, k. split; [|split; [exact Hsame|split; [exact Ho|split; [exact Hk|split]]]].
  - apply multipartCopy_store. exists src. repeat split; try assumption.
    apply store_Ok. exists dir, ra, w1. split; [apply Hlw|]. split.
    + rewrite ensureDirectory_run, <- Habs.
      rewrite (Stat_found _ _ k (File data)); [reflexivity | exact Hk | exact Ha1 |].
      rewrite lookup_node_cons by exact Hne. exact Hf1.
    + rewrite <- Hr1. exact Hw.
  - rewrite Hsame. exact Hf1.
  - intros k' d'. rewrite Hsame, Hf. destruct (decide (k' = k)) as [->|Hne']; [auto|].
    rewrite lookup_insert_ne by congruence. rewrite Hfiles. auto.
Qed.

(** *** The batch loops *)
Lemma MultipartCopy_loop_app s param pre rest acc w rs w1 :
  MultipartCopy_loop s param pre acc w = ((rs, None), w1) →
  MultipartCopy_loop s param (pre ++ rest) acc w = MultipartCopy_loop s param rest rs w1.
Proof.
  revert acc w. induction pre as [|[file|] pre IH]; intros acc w; cbn [MultipartCopy_loop app].
  - intros [= <- <-]. reflexivity.
  - destruct (multipartCopy s param file w) as [[tmp [e|]] w0]; [discriminate|]. apply IH.
  - apply IH.
Qed.

Lemma Base64Copy_loop_app s param pre rest acc w rs w1 :
  Base64Copy_loop s param pre acc w = ((rs, None), w1) →
  Base64Copy_loop s param (pre ++ rest) acc w = Base64Copy_loop s param rest rs w1.
Proof.
  revert acc w. induction pre as [|[content|] pre IH]; intros acc w; cbn [Base64Copy_loop app].
  - intros [= <- <-]. reflexivity.
  - destruct (base64Copy s param content w) as [[tmp [e|]] w0]; [discriminate|]. apply IH.
  - apply IH.
Qed.

End Copies.

(** ** The pattern of the regular expression *)



Lemma append_cons a (p t : string) : String a p ++ t = String a (p ++ t).
Proof. reflexivity. Qed.

Lemma append_nil (t : string) : EmptyString ++ t = t.
Proof. reflexivity. Qed.

Lemma strip_Some prefix s t : Strings.strip prefix s = Some t → s = prefix ++ t.
Proof.
  revert s. induction prefix as [|a p IH]; intros s; cbn [Strings.strip].
  - intros [= ->]. reflexivity.
  - destruct s as [|b s]; [discriminate|].
    destruct (Ascii.eqb_spec a b) as [->|]; [|discriminate].
    intros Hs. rewrite append_cons. f_equal. apply IH, Hs.
Qed.

Lemma take_drop_while f s : s = Strings.take_while f s ++ Strings.drop_while f s.
Proof.
  induction s as [|c s IH]; [reflexivity|]. cbn [Strings.take_while Strings.drop_while].
  destruct (f c); [rewrite append_cons; f_equal; exact IH | reflexivity].
Qed.

Lemma take_while_all f s : all_bytes f (Strings.take_while f s) = true.
Proof.
  induction s as [|c s IH]; [reflexivity|]. cbn [Strings.take_while].
  destruct (f c) eqn:E; [cbn [all_bytes]; rewrite E; exact IH | reflexivity].
Qed.

Lemma match_prefix_pattern content m :
  Regexp.match_prefix content = Some m → regexp_pattern content.
Proof.
  unfold Regexp.match_prefix.
  destruct (Strings.strip "data:" content) as [r1|] eqn:H1; [|discriminate].
  cbn [mbind option_bind].
  destruct (Strings.strip "image/" _) as [r3|] eqn:H3; [|discriminate].
  cbn [mbind option_bind].
  destruct (Strings.take_while Regexp.is_word r3) as [|c subtype] eqn:Hw; [discriminate|].
  destruct (Strings.strip ";base64," _) as [r5|] eqn:H5; [|discriminate].
  intros _.
  exists (Strings.take_while Regexp.is_space r1), (String c subtype), r5.
  split; [|split; [apply take_while_all | split; [discriminate|]]].
  - apply strip_Some in H1, H3, H5.
    rewrite H1. f_equal.
    rewrite (take_drop_while Regexp.is_space r1) at 1. f_equal.
    rewrite H3. f_equal.
    rewrite (take_drop_while Regexp.is_word r3) at 1. rewrite Hw, H5. reflexivity.
  - rewrite <- Hw. apply take_while_all.
Qed.

Lemma strip_app prefix t : Strings.strip prefix (prefix ++ t) = Some t.
Proof.
  induction prefix as [|a p IH]; [reflexivity|].
  rewrite append_cons. cbn [Strings.strip]. rewrite Ascii.eqb_refl. exact IH.
Qed.

Lemma while_app f a c b :
  all_bytes f a = true → f c = false →
  Strings.take_while f (a ++ String c b) = a
  ∧ Strings.drop_while f (a ++ String c b) = String c b.
Proof.
  intros Ha Hc. induction a as [|x a IH].
  - rewrite append_nil. cbn [Strings.take_while Strings.drop_while]. rewrite Hc. split; reflexivity.
  - cbn [all_bytes] in Ha. apply andb_true_iff in Ha. destruct Ha as [Hx Ha].
    rewrite append_cons. cbn [Strings.take_while Strings.drop_while]. rewrite Hx.
    destruct (IH Ha) as [-> ->]. split; reflexivity.
Qed.

(** The expression matches exactly the strings of [regexp_pattern]. *)
Lemma regexp_pattern_matches content :
  regexp_pattern content →
  ∃ whole subtype payload, Regexp.FindAllSubmatch content = [[whole; subtype; payload]].
Proof.
  intros (space & subtype & rest & -> & Hsp & Hne & Hw).
  unfold Regexp.FindAllSubmatch, Regexp.match_prefix.
  rewrite strip_app. cbn [mbind option_bind].
  change ("image/" ++ subtype ++ ";base64," ++ rest)
    with (String "i" ("mage/" ++ subtype ++ ";base64," ++ rest)).
  destruct (while_app Regexp.is_space space "i" ("mage/" ++ subtype ++ ";base64," ++ rest)
              Hsp eq_refl) as [_ ->].
  change (String "i" ("mage/" ++ subtype ++ ";base64," ++ rest))
    with ("image/" ++ subtype ++ ";base64," ++ rest).
  rewrite strip_app. cbn [mbind option_bind].
  change (";base64," ++ rest) with (String ";" ("base64," ++ rest)).
  destruct (while_app Regexp.is_word subtype ";" ("base64," ++ rest) Hw eq_refl) as [-> ->].
  destruct subtype as [|c subtype]; [congruence|].
  change (String ";" ("base64," ++ rest)) with (";base64," ++ rest).
  rewrite strip_app. cbn [mbind option_bind]. eauto.
Qed.

Lemma FindAllSubmatch_nil content :
  ¬ regexp_pattern content → Regexp.FindAllSubmatch content = nil.
Proof.
  intros Hno. unfold Regexp.FindAllSubmatch.
  destruct (Regexp.match_prefix content) as [m|] eqn:Hm; [|reflexivity].
  exfalso. exact (Hno (match_prefix_pattern _ _ Hm)).
Qed.

Lemma spec_pattern_regexp_pattern type payload :
  type ≠ EmptyString → all_bytes Regexp.is_word type = true →
  regexp_pattern ("data:image/" ++ type ++ ";base64," ++ payload).
Proof.
  intros Hne Hw. exists EmptyString, type, payload. repeat split; assumption.
Qed.

(** C5, as the specification states it, fails: white space after [data:] is
    outside the written pattern, and the upload is stored. *)
Lemma base64_rejection_counterexample :
  ¬ (∀ content : string, ¬ spec_pattern content →
       ∃ r, base64Copy (H := Demo.host) Demo.storage Demo.param content Demo.empty
            = ((r, Some (Errorf "illegal image base64 value")), Demo.empty)).
Proof.
  intros Hclaim.
  destruct (Hclaim Demo.spaced_image) as (r & Hr).
  - intros (type & payload & Heq). unfold Demo.spaced_image in Heq. discriminate Heq.
  - apply (f_equal (fun x => snd (fst x))) in Hr. cbn [fst snd] in Hr.
    assert (Hrun : snd (fst (base64Copy (H := Demo.host) Demo.storage Demo.param
                               Demo.spaced_image Demo.empty)) = None)
      by (vm_compute; reflexivity).
    congruence.
Qed.

Example spaced_image_stored :
  snd (fst (base64Copy (H := Demo.host) Demo.storage Demo.param Demo.spaced_image Demo.empty))
  = None
  ∧ Os.ReadFile (H := Demo.host)
      (PathAbs (fst (fst (base64Copy (H := Demo.host) Demo.storage Demo.param
                            Demo.spaced_image Demo.empty))))
      (snd (base64Copy (H := Demo.host) Demo.storage Demo.param Demo.spaced_image Demo.empty))
    = Some "hello".
Proof. split; vm_compute; reflexivity. Qed.

Section Rejection.
Context `{Host}.

(** C5 (amended).  An input outside the pattern of the regular expression
    is refused with the error of [base64Copy]; the world is as before: no
    file is created or written, and no call is made. *)
Theorem base64Copy_rejects s param content w :
  ¬ regexp_pattern content →
  base64Copy s param content w
  = ((zero_result, Some (Errorf "illegal image base64 value")), w).
Proof.
  intros Hno. rewrite base64Copy_run, (FindAllSubmatch_nil _ Hno). reflexivity.
Qed.
End Rejection.

Lemma base64Copy_rejects_witness :
  base64Copy (H := Demo.host) Demo.storage Demo.param "hello world" Demo.empty
  = ((zero_result, Some (Errorf "illegal image base64 value")), Demo.empty).
Proof.
  apply (base64Copy_rejects (H := Demo.host) Demo.storage Demo.param "hello world" Demo.empty).
  intros (space & subtype & rest & Heq & _). discriminate Heq.
Defined.

(** The two examples of the specification. *)
Example rejected_examples :
  map (fun content => fst (base64Copy (H := Demo.host) Demo.storage Demo.param content Demo.empty))
      ["hello world"; "data:text/plain;base64,aGVsbG8="; "data:;base64,aGVsbG8="]
  = repeat (zero_result, Some (Errorf "illegal image base64 value")) 3.
Proof. vm_compute. reflexivity. Qed.

(** * The claims *)

Section Claims.
Context `{Host}.

(** C10.  A record returned without error, by either function, has as
    [Hash] 64 lowercase hexadecimal characters, and its [Name] is [Hash]
    followed by [FileExt]. *)
Theorem record_hash_and_name s param w r w' :
  (∃ file, multipartCopy s param file w = ((r, None), w'))
  ∨ (∃ content, base64Copy s param content w = ((r, None), w')) →
  String.length (Hash r) = 64%nat
  ∧ all_bytes Hex.is_lower_hex (Hash r) = true
  ∧ Name r = Hash r ++ FileExt r.
Proof.
  intros [(file & Hrun)|(content & Hrun)].
  - destruct (multipartCopy_stored _ _ _ _ _ _ Hrun) as (src & _ & _ & Hh & _ & Hn & _).
    rewrite Hn, Hh. destruct (hash_shape (IO.data (Multipart.reader src))) as [-> ->].
    repeat split.
  - destruct (base64Copy_stored _ _ _ _ _ _ Hrun)
      as (whole & subtype & payload & ic & _ & _ & _ & Hh & _ & Hn & _).
    rewrite Hn, Hh. destruct (hash_shape content) as [-> ->]. repeat split.
Qed.

(** C8.  The [PathUri] of a record returned without error starts with a
    slash, and where the path separator of the host is not the slash it
    does not occur in [PathUri]. *)
Theorem public_path_forward_slashes s param w r w' :
  (∃ file, multipartCopy s param file w = ((r, None), w'))
  ∨ (∃ content, base64Copy s param content w = ((r, None), w')) →
  Strings.HasPrefix (PathUri r) "/" = true
  ∧ (PathSeparator ≠ Path.slash →
     Strings.contains_byte PathSeparator (PathUri r) = false).
Proof.
  intros [(file & Hrun)|(content & Hrun)].
  - apply multipartCopy_store in Hrun. destruct Hrun as (src & _ & _ & _ & Hst).
    destruct (store_with_fields _ _ _ _ _ _ _ _ _ multipart_cond_files Hst)
      as (_ & _ & _ & _ & _ & Hroot & Hsep). auto.
  - apply base64Copy_store in Hrun. destruct Hrun as (? & ? & ? & ic & _ & _ & Hst).
    destruct (store_with_fields _ _ _ _ _ _ _ _ _ base64_cond_files Hst)
      as (_ & _ & _ & _ & _ & Hroot & Hsep). auto.
Qed.

(** C4.  With an entry at [PathAbs] before the call, [multipartCopy] calls
    [Remove] on it exactly when its size is that of the upload and it is not
    a directory, [base64Copy] exactly when it is not a directory; the
    removal comes first, [Create] next, and no other removal follows. *)
Theorem existing_entry_removal s param w info :
  (∀ file src r err w',
     Multipart.parsed file → Multipart.Open file = Ok src →
     multipartCopy s param file w = ((r, err), w') →
     Os.Stat (PathAbs r) w = Ok info →
     ∃ tl, trace w' =
             (trace w
              ++ (if (Os.Size info =? Bytes.len (IO.data (Multipart.reader src)))
                     && negb (Os.IsDir info)
                  then [EvRemove (PathAbs r)] else nil)
              ++ EvCreate (PathAbs r) :: tl)%list
           ∧ forallb (fun e => negb (is_remove e)) tl = true)
  ∧ (∀ content r err w',
       base64Copy s param content w = ((r, err), w') →
       Os.Stat (PathAbs r) w = Ok info →
       ∃ tl, trace w' =
               (trace w
                ++ (if negb (Os.IsDir info) then [EvRemove (PathAbs r)] else nil)
                ++ EvCreate (PathAbs r) :: tl)%list
             ∧ forallb (fun e => negb (is_remove e)) tl = true).
Proof.
  split.
  - intros file src r err w' Hp Ho Hrun Hs.
    exact (multipartCopy_existing _ _ _ _ _ _ _ _ _ Hp Ho Hrun Hs).
  - intros content r err w' Hrun Hs.
    exact (base64Copy_existing _ _ _ _ _ _ _ _ Hrun Hs).
Qed.

(** C7.  Storing an upload that was just stored succeeds again with the
    same record and leaves the file system as the first call left it: the
    entry at [PathAbs] is a file with the bytes of the upload, and every
    file there is this one or was there before the first call. *)
Theorem duplicate_store s param file w r1 w1 :
  multipartCopy s param file w = ((r1, None), w1) →
  ∃ w2 src k,
    multipartCopy s param file w1 = ((r1, None), w2)
    ∧ fs w2 = fs w1
    ∧ Multipart.Open file = Ok src
    ∧ resolve (PathAbs r1) = Some k
    ∧ fs w2 !! k = Some (File (IO.data (Multipart.reader src)))
    ∧ ∀ k' data, fs w2 !! k' = Some (File data) → k' = k ∨ fs w !! k' = Some (File data).
Proof. apply multipartCopy_again. Qed.

(** C2 (amended).  A batch stops at the first input that fails: when the
    inputs before it gave the records [rs] and the input fails with [e], the
    batch returns [rs] together with [e], whatever follows in the batch, and
    the world is the one the failing call left. *)
Theorem batch_stops_at_first_error s param w :
  (∀ pre file post rs w1 r e w2,
     MultipartCopy s param pre w = ((rs, None), w1) →
     multipartCopy s param file w1 = ((r, Some e), w2) →
     MultipartCopy s param (pre ++ Some file :: post) w = ((rs, Some e), w2))
  ∧ (∀ pre content post rs w1 r e w2,
       Base64Copy s param pre w = ((rs, None), w1) →
       base64Copy s param content w1 = ((r, Some e), w2) →
       Base64Copy s param (pre ++ Some content :: post) w = ((rs, Some e), w2)).
Proof.
  split.
  - intros pre file post rs w1 r e w2 Hpre Hfail. unfold MultipartCopy in *.
    rewrite (MultipartCopy_loop_app _ _ _ _ _ _ _ _ Hpre).
    cbn [MultipartCopy_loop]. rewrite Hfail. reflexivity.
  - intros pre content post rs w1 r e w2 Hpre Hfail. unfold Base64Copy in *.
    rewrite (Base64Copy_loop_app _ _ _ _ _ _ _ _ Hpre).
    cbn [Base64Copy_loop]. rewrite Hfail. reflexivity.
Qed.

(** The records of a batch without error, in order. *)
Lemma MultipartCopy_loop_acc s param files acc w rs err w' :
  MultipartCopy_loop s param files acc w = ((rs, err), w') →
  ∃ new, rs = (acc ++ new)%list ∧ (List.length new ≤ List.length files)%nat.
Proof.
  revert acc w. induction files as [|[file|] files IH]; intros acc w; cbn [MultipartCopy_loop].
  - intros [= <- _ _]. exists nil. rewrite app_nil_r. split; [reflexivity | cbn; lia].
  - destruct (multipartCopy s param file w) as [[tmp [e|]] w0].
    + intros [= <- _ _]. exists nil. rewrite app_nil_r. split; [reflexivity | cbn; lia].
    + intros Hl. destruct (IH _ _ Hl) as (new & -> & Hlen).
      exists (tmp :: new). rewrite <- app_assoc. split; [reflexivity | cbn; lia].
  - intros Hl. destruct (IH _ _ Hl) as (new & -> & Hlen). exists new. split; [reflexivity | cbn; lia].
Qed.

End Claims.

Section Plan.
Context `{Host}.


(** The paths of a record returned without error are those of [plan]. *)
Lemma store_plan s param cond data re r0 w r w' :
  removes_files cond →
  store s param (write_with cond data re) (r0, w) = (Ok tt, (r, w')) →
  ∃ dir, plan s param (r0, w) = (Ok dir, (r, w)).
Proof.
  intros Hcond Hst.
  destruct (store_with_Ok _ _ _ _ _ _ _ _ _ Hcond Hst) as (dir & r1 & w1 & k & Hl & _ & -> & _).
  exists dir. unfold plan. run_M. rewrite Hl, publish_run. reflexivity.
Qed.

Lemma multipartCopy_plan s param file w r w' :
  multipartCopy s param file w = ((r, None), w') →
  ∃ src dir, Multipart.Open file = Ok src
    ∧ plan s param (multipart_named file src, w) = (Ok dir, (r, w)).
Proof.
  intros Hrun. apply multipartCopy_store in Hrun. destruct Hrun as (src & Ho & _ & _ & Hst).
  destruct (store_plan _ _ _ _ _ _ _ _ _ multipart_cond_files Hst) as (dir & Hp). eauto.
Qed.

Lemma base64Copy_plan s param content w r w' :
  base64Copy s param content w = ((r, None), w') →
  ∃ whole subtype payload dir,
    Regexp.FindAllSubmatch content = [[whole; subtype; payload]]
    ∧ plan s param (base64_named content subtype, w) = (Ok dir, (r, w)).
Proof.
  intros Hrun. apply base64Copy_store in Hrun.
  destruct Hrun as (whole & subtype & payload & ic & Hm & _ & Hst).
  destruct (store_plan _ _ _ _ _ _ _ _ _ base64_cond_files Hst) as (dir & Hp).
  exists whole, subtype, payload, dir. auto.
Qed.
End Plan.

(** C6.  On a Unix host, with base directory [/data], sub-directory
    [2024/01/01] and prefix [/static] (each a default of the storage or an
    override of the request), a record with hash [abc123] and extension
    [.png] gets the absolute path [/data/2024/01/01/abc123.png] and the
    public path [/static/2024/01/01/abc123.png]. *)
Theorem path_example cwd s param r0 w :
  (if nonempty (StorageDirectory param) then StorageDirectory param
   else storageDirectory s) = "/data" →
  (if nonempty (UriAccessPrefix param) then UriAccessPrefix param
   else uriAccessPrefix s) = "/static" →
  StorageSubDirectory param = "2024/01/01" →
  Hash r0 = "abc123" → FileExt r0 = ".png" → Name r0 = Hash r0 ++ FileExt r0 →
  ∃ r, plan (H := Unix.host cwd) s param (r0, w) = (Ok "/data/2024/01/01", (r, w))
       ∧ PathAbs r = "/data/2024/01/01/abc123.png"
       ∧ PathUri r = "/static/2024/01/01/abc123.png"
       ∧ PathRlt r = "/2024/01/01/abc123.png".
Proof.
  intros Hdir Huri Hsub Hh He Hn. rewrite Hh, He in Hn.
  unfold plan, locate, publish. rewrite Hdir, Huri, Hsub.
  destruct r0; cbn in Hn, Hh, He; subst.
  eexists. split; [vm_compute; reflexivity|]. repeat split.
Qed.

Lemma path_example_witness :
  ∃ r, plan (H := Unix.host "/srv/app") Demo.storage Demo.param
         (set_Name "abc123.png" (set_FileExt ".png" (set_Hash "abc123" zero_result)), Demo.empty)
       = (Ok "/data/2024/01/01", (r, Demo.empty))
       ∧ PathAbs r = "/data/2024/01/01/abc123.png"
       ∧ PathUri r = "/static/2024/01/01/abc123.png"
       ∧ PathRlt r = "/2024/01/01/abc123.png".
Proof.
  apply (path_example "/srv/app" Demo.storage Demo.param
           (set_Name "abc123.png" (set_FileExt ".png" (set_Hash "abc123" zero_result)))
           Demo.empty); reflexivity.
Defined.

(** The same paths with the directory and the prefix given by the request. *)
Example path_example_override :
  ∃ r, plan (H := Unix.host "/srv/app") (NewStorage [])
         {| StorageDirectory := "/data"; UriAccessPrefix := "/static";
            StorageSubDirectory := "2024/01/01" |}
         (set_Name "abc123.png" (set_FileExt ".png" (set_Hash "abc123" zero_result)), Demo.empty)
       = (Ok "/data/2024/01/01", (r, Demo.empty))
       ∧ PathAbs r = "/data/2024/01/01/abc123.png"
       ∧ PathUri r = "/static/2024/01/01/abc123.png"
       ∧ PathRlt r = "/2024/01/01/abc123.png".
Proof. eexists. split; [vm_compute; reflexivity|]. repeat split. Qed.


Lemma in_upto n v : 0 ≤ v < n → In v (upto n).
Proof.
  intros Hv. unfold upto. apply in_map_iff. exists (Z.to_nat v).
  split; [lia|]. apply in_seq. lia.
Qed.

Lemma Sprintf_0d_decimal_upto wid bound :
  forallb (fun v => String.eqb (Fmt.Sprintf_0d wid v) (decimal wid v)) (upto bound) = true →
  ∀ v, 0 ≤ v < bound → Fmt.Sprintf_0d wid v = decimal wid v.
Proof.
  intros Hall v Hv. rewrite forallb_forall in Hall.
  apply String.eqb_eq, Hall, in_upto, Hv.
Qed.

Lemma Sprintf_04d v : 0 ≤ v ≤ 9999 → Fmt.Sprintf_0d 4 v = decimal 4 v.
Proof.
  intros Hv. apply (Sprintf_0d_decimal_upto 4 10000); [vm_compute; reflexivity | lia].
Qed.

Lemma Sprintf_02d v : 0 ≤ v ≤ 99 → Fmt.Sprintf_0d 2 v = decimal 2 v.
Proof.
  intros Hv. apply (Sprintf_0d_decimal_upto 2 100); [vm_compute; reflexivity | lia].
Qed.

Lemma append_length (a b : string) :
  String.length (a ++ b) = (String.length a + String.length b)%nat.
Proof. induction a as [|c a IH]; [reflexivity|]. rewrite append_cons. cbn. rewrite IH. reflexivity. Qed.

Lemma decimal_length n v : String.length (decimal n v) = n.
Proof.
  revert v. induction n as [|n IH]; intros v; [reflexivity|].
  cbn [decimal]. rewrite append_length, IH. cbn. lia.
Qed.



Example SubDirectoryDate_examples :
  [SubDirectoryDate {| Time.Year := 2024; Time.Month := 1; Time.Day := 5 |} "project1/default";
   SubDirectoryDate {| Time.Year := 1999; Time.Month := 12; Time.Day := 31 |} "";
   SubDirectoryDate {| Time.Year := 987; Time.Month := 6; Time.Day := 9 |} "/uploads/"]
  = ["project1/default/2024/01/05"; "1999/12/31"; "/uploads/0987/06/09"].
Proof. reflexivity. Qed.

(** ** The claims on the concrete installation *)

Lemma result_eta {A B : Type} (x : A * B) (a : A) : fst x = a → x = (a, snd x).
Proof. destruct x as [a' b]. cbn. intros ->. reflexivity. Qed.

Lemma record_hash_and_name_witness :
  String.length (Hash Demo.record) = 64%nat
  ∧ all_bytes Hex.is_lower_hex (Hash Demo.record) = true
  ∧ Name Demo.record = Hash Demo.record ++ FileExt Demo.record.
Proof.
  apply (record_hash_and_name (H := Demo.host) Demo.storage Demo.param Demo.empty
           Demo.record (snd demo_stored)).
  left. exists Demo.upload. apply result_eta. vm_compute. reflexivity.
Defined.

Lemma public_path_forward_slashes_witness :
  Strings.HasPrefix (PathUri Demo.image_record) "/" = true
  ∧ (PathSeparator (Host := Demo.host) ≠ Path.slash →
     Strings.contains_byte (PathSeparator (Host := Demo.host)) (PathUri Demo.image_record)
     = false).
Proof.
  apply (public_path_forward_slashes (H := Demo.host) Demo.storage Demo.param Demo.empty
           Demo.image_record (snd demo_image_stored)).
  right. exists Demo.image. apply result_eta. vm_compute. reflexivity.
Defined.

Lemma existing_entry_removal_witness :
  ∃ tl, trace (snd demo_again) =
          (trace (snd demo_stored)
           ++ (if (Os.Size {| Os.Size := 5; Os.IsDir := false |}
                   =? Bytes.len (IO.data (Multipart.reader
                        {| Multipart.reader := IO.NewBuffer "hello";
                           Multipart.seek_error := None |})))
                  && negb (Os.IsDir {| Os.Size := 5; Os.IsDir := false |})
               then [EvRemove (PathAbs Demo.record)] else nil)
           ++ EvCreate (PathAbs Demo.record) :: tl)%list
        ∧ forallb (fun e => negb (is_remove e)) tl = true.
Proof.
  apply (proj1 (existing_entry_removal (H := Demo.host) Demo.storage Demo.param
                  (snd demo_stored) {| Os.Size := 5; Os.IsDir := false |})
           Demo.upload
           {| Multipart.reader := IO.NewBuffer "hello"; Multipart.seek_error := None |}
           Demo.record None (snd demo_again)).
  - vm_compute. reflexivity.
  - reflexivity.
  - apply result_eta. vm_compute. reflexivity.
  - vm_compute. reflexivity.
Defined.

Lemma duplicate_store_witness :
  ∃ w2 src k,
    multipartCopy (H := Demo.host) Demo.storage Demo.param Demo.upload (snd demo_stored)
    = ((Demo.record, None), w2)
    ∧ fs w2 = fs (snd demo_stored)
    ∧ Multipart.Open Demo.upload = Ok src
    ∧ resolve (Host := Demo.host) (PathAbs Demo.record) = Some k
    ∧ fs w2 !! k = Some (File (IO.data (Multipart.reader src)))
    ∧ ∀ k' data, fs w2 !! k' = Some (File data) →
                 k' = k ∨ fs Demo.empty !! k' = Some (File data).
Proof.
  apply (duplicate_store (H := Demo.host) Demo.storage Demo.param Demo.upload Demo.empty
           Demo.record (snd demo_stored)).
  apply result_eta. vm_compute. reflexivity.
Defined.

Lemma batch_stops_at_first_error_witness :
  Base64Copy (H := Demo.host) Demo.storage Demo.param
    ([Some Demo.image] ++ Some "hello world" :: [Some Demo.spaced_image]) Demo.empty
  = (([Demo.image_record], Some (Errorf "illegal image base64 value")),
     snd (base64Copy (H := Demo.host) Demo.storage Demo.param "hello world"
            (snd (Base64Copy (H := Demo.host) Demo.storage Demo.param
                    [Some Demo.image] Demo.empty)))).
Proof.
  apply (proj2 (batch_stops_at_first_error (H := Demo.host) Demo.storage Demo.param
                  Demo.empty)
           [Some Demo.image] "hello world" [Some Demo.spaced_image]
           [Demo.image_record]
           (snd (Base64Copy (H := Demo.host) Demo.storage Demo.param
                   [Some Demo.image] Demo.empty))
           zero_result).
  - apply result_eta. vm_compute. reflexivity.
  - apply result_eta. vm_compute. reflexivity.
Defined.

(** C2, as the specification states it, fails: the caller receives the
    records of the earlier inputs together with the error. *)
Lemma batch_partial_list_counterexample :
  ¬ (∀ files rs e w',
       Base64Copy (H := Demo.host) Demo.storage Demo.param files Demo.empty
       = ((rs, Some e), w') → rs = nil).
Proof.
  intros Hclaim.
  assert (Hrun : fst (Base64Copy (H := Demo.host) Demo.storage Demo.param
                        [Some Demo.image; Some "hello world"; Some Demo.spaced_image]
                        Demo.empty)
                 = ([Demo.image_record], Some (Errorf "illegal image base64 value")))
    by (vm_compute; reflexivity).
  apply result_eta in Hrun. discriminate (Hclaim _ _ _ _ Hrun).
Qed.

(** C1, at a failing input.  [base64Copy] stores the decoded bytes [hello]
    and names the file after the digest of the text of the data URI, which is
    not the digest of the bytes in the file. *)
Theorem base64Copy_name_not_digest_of_file :
  fst demo_image_stored = (Demo.image_record, None)
  ∧ Os.ReadFile (H := Demo.host) (PathAbs Demo.image_record) (snd demo_image_stored)
    = Some "hello"
  ∧ Name Demo.image_record
    = "3ce781d3ab1d65fee96552a54415d9902cf9622911ab54192015a158e18dc0e6.png"
  ∧ Hex.EncodeToString (Sha256.Sum256 "hello") ++ FileExt Demo.image_record
    = "2cf24dba5fb0a30e26e83b2ac5b9e29e1b161e5c1fa7425e73043362938b9824.png"
  ∧ Hex.EncodeToString (Sha256.Sum256 Demo.image) ++ FileExt Demo.image_record
    = Name Demo.image_record.
Proof.
  split; [vm_compute; reflexivity|]. split; [vm_compute; reflexivity|].
  split; [reflexivity|]. split; vm_compute; reflexivity.
Qed.

(** C3, at a failing input.  [base64Copy] stores five bytes and returns a
    record whose [Size] is 0. *)
Theorem base64Copy_size_not_set :
  fst demo_image_stored = (Demo.image_record, None)
  ∧ Os.ReadFile (H := Demo.host) (PathAbs Demo.image_record) (snd demo_image_stored)
    = Some "hello"
  ∧ Bytes.len "hello" = 5
  ∧ Size Demo.image_record = 0.
Proof.
  split; [vm_compute; reflexivity|]. split; [vm_compute; reflexivity|].
  split; reflexivity.
Qed.

(** * Further properties of the package *)

Lemma to_list_app a b : Bytes.to_list (a ++ b) = (Bytes.to_list a ++ Bytes.to_list b)%list.
Proof. induction a as [|c a IH]; [reflexivity|]. rewrite append_cons. cbn. rewrite IH. reflexivity. Qed.

Lemma of_to_list s : Bytes.of_list (Bytes.to_list s) = s.
Proof. induction s as [|c s IH]; [reflexivity|]. cbn. rewrite IH. reflexivity. Qed.

Lemma to_of_list l : Bytes.to_list (Bytes.of_list l) = l.
Proof. induction l as [|c l IH]; [reflexivity|]. cbn. rewrite IH. reflexivity. Qed.

Lemma of_list_app a b : Bytes.of_list (a ++ b)%list = Bytes.of_list a ++ Bytes.of_list b.
Proof. induction a as [|c a IH]; [reflexivity|]. cbn. rewrite IH. reflexivity. Qed.

Lemma copy_element_stops e rest out :
  forallb (fun c => negb (Ascii.eqb c Path.slash)) e = true → ends_element rest →
  Path.copy_element (e ++ rest)%list out = (rest, (rev e ++ out)%list).
Proof.
  revert out. induction e as [|c e IH]; intros out He Hrest.
  - destruct Hrest as [->|(rest' & ->)]; reflexivity.
  - cbn [forallb] in He. apply andb_true_iff in He. destruct He as [Hc He].
    cbn [app Path.copy_element]. apply negb_true_iff in Hc. rewrite Hc.
    rewrite (IH _ He Hrest). cbn [rev]. rewrite <- app_assoc. reflexivity.
Qed.

Lemma plain_cons c e :
  plain (c :: e) = true →
  Ascii.eqb c Path.slash = false
  ∧ forallb (fun c => negb (Ascii.eqb c Path.slash)) (c :: e) = true
  ∧ (c = Path.dot → ∃ x e', e = x :: e' ∧ Ascii.eqb x Path.slash = false
       ∧ (x = Path.dot → ∃ y e'', e' = y :: e'' ∧ Ascii.eqb y Path.slash = false)).
Proof.
  unfold plain. rewrite !andb_true_iff, !negb_true_iff, !bool_decide_eq_false.
  intros [[Hall Hd] Hdd]. split; [|split; [exact Hall|]].
  - cbn in Hall. apply andb_true_iff in Hall. destruct Hall as [Hc _].
    apply negb_true_iff in Hc. exact Hc.
  - intros ->. destruct e as [|x e']; [congruence|].
    cbn in Hall. rewrite !andb_true_iff, !negb_true_iff in Hall. destruct Hall as (Hx & Hrest).
    exists x, e'. split; [reflexivity|]. split; [exact Hx|].
    intros ->. destruct e' as [|y e'']; [congruence|].
    cbn in Hrest. rewrite !andb_true_iff, !negb_true_iff in Hrest. destruct Hrest as (Hy & _).
    exists y, e''. auto.
Qed.

(** One iteration of the loop on a plain element. *)
Lemma clean_loop_element fuel rooted e rest out dotdot :
  plain e = true → ends_element rest →
  Path.clean_loop (S fuel) rooted (e ++ rest)%list out dotdot
  = Path.clean_loop fuel rooted rest (rev e ++ with_slash rooted out)%list dotdot.
Proof.
  intros He Hrest. destruct e as [|c e]; [discriminate|].
  destruct (plain_cons _ _ He) as (Hc & Hall & Hdot).
  cbn [Path.clean_loop app]. rewrite Hc.
  assert (Hnot_dot :
    Ascii.eqb c Path.dot
    && (match (e ++ rest)%list with nil => true | _ => false end
        || Path.byte_is Path.slash (head (e ++ rest)%list)) = false).
  { destruct (Ascii.eqb_spec c Path.dot) as [->|]; [|reflexivity].
    destruct (Hdot eq_refl) as (x & e' & -> & Hx & _). cbn. rewrite Hx. reflexivity. }
  assert (Hnot_dotdot :
    Ascii.eqb c Path.dot && Path.byte_is Path.dot (head (e ++ rest)%list)
    && (match tail (e ++ rest)%list with nil => true | _ => false end
        || Path.byte_is Path.slash (head (tail (e ++ rest)%list))) = false).
  { destruct (Ascii.eqb_spec c Path.dot) as [->|]; [|reflexivity].
    destruct (Hdot eq_refl) as (x & e' & -> & Hx & Hx').
    cbn. destruct (Ascii.eqb_spec x Path.dot) as [->|]; [|reflexivity].
    destruct (Hx' eq_refl) as (y & e'' & -> & Hy). cbn. rewrite Hy. reflexivity. }
  rewrite Hnot_dot, Hnot_dotdot.
  change (c :: (e ++ rest)%list) with ((c :: e) ++ rest)%list.
  fold (with_slash rooted out).
  rewrite (copy_element_stops _ _ _ Hall Hrest). reflexivity.
Qed.

Lemma clean_loop_slash fuel rooted rest out dotdot :
  Path.clean_loop (S fuel) rooted (Path.slash :: rest) out dotdot
  = Path.clean_loop fuel rooted rest out dotdot.
Proof. reflexivity. Qed.

Lemma clean_loop_nil fuel rooted out dotdot : Path.clean_loop fuel rooted nil out dotdot = out.
Proof. destruct fuel; reflexivity. Qed.

Lemma plain_nonempty e : plain e = true → e ≠ nil.
Proof. destruct e; [discriminate | congruence]. Qed.

Lemma plain_not_empty e : plain e = true → is_empty e = false.
Proof. destruct e; [discriminate | reflexivity]. Qed.

Lemma join_elements_cons e es :
  es ≠ nil → join_elements (e :: es) = (e ++ Path.slash :: join_elements es)%list.
Proof. destruct es; [congruence | reflexivity]. Qed.

Lemma clean_loop_elements fuel rooted es out dotdot :
  Forall element es →
  (List.length (join_elements es) ≤ fuel)%nat →
  Path.clean_loop fuel rooted (join_elements es) out dotdot = written rooted es out.
Proof.
  intros Hes. revert fuel out.
  induction Hes as [|e es He Hes IH]; intros fuel out Hfuel.
  - apply clean_loop_nil.
  - destruct He as [->|He].
    + cbn [written is_empty]. destruct es as [|e2 es].
      * cbn [join_elements written]. apply clean_loop_nil.
      * rewrite (join_elements_cons nil (e2 :: es)) in * by congruence.
        cbn [app List.length] in *. destruct fuel as [|fuel]; [lia|].
        rewrite clean_loop_slash. apply IH. lia.
    + pose proof (plain_nonempty _ He) as Hne.
      assert (1 ≤ List.length e)%nat as Hlen by (destruct e; [congruence | cbn; lia]).
      cbn [written]. rewrite (plain_not_empty _ He).
      destruct es as [|e2 es].
      * cbn [join_elements written] in *. destruct fuel as [|fuel]; [lia|].
        rewrite <- (app_nil_r e) at 1.
        rewrite (clean_loop_element _ _ _ _ _ _ He) by (left; reflexivity).
        apply clean_loop_nil.
      * rewrite (join_elements_cons e (e2 :: es)) in * by congruence.
        rewrite length_app in Hfuel. cbn [List.length] in Hfuel.
        destruct fuel as [|[|fuel]]; [lia | lia |].
        rewrite (clean_loop_element _ _ _ _ _ _ He) by (right; eauto).
        rewrite clean_loop_slash. apply IH. lia.
Qed.

Lemma written_solid rooted es out : written rooted es out = written rooted (solid es) out.
Proof.
  revert out. induction es as [|e es IH]; intros out; [reflexivity|].
  unfold solid. cbn [written List.filter]. fold (solid es).
  destruct (is_empty e) eqn:E; cbn [negb]; [apply IH|].
  cbn [written]. rewrite E. apply IH.
Qed.

Lemma solid_plain es : Forall element es → Forall (fun e => plain e = true) (solid es).
Proof.
  induction 1 as [|e es He Hes IH]; [constructor|].
  unfold solid. cbn [List.filter]. fold (solid es). destruct He as [->|He]; [exact IH|].
  rewrite (plain_not_empty _ He). constructor; assumption.
Qed.

Lemma solid_id es : Forall (fun e => plain e = true) es → solid es = es.
Proof.
  induction 1 as [|e es He Hes IH]; [reflexivity|].
  unfold solid. cbn [List.filter]. fold (solid es). rewrite (plain_not_empty _ He), IH. reflexivity.
Qed.

Lemma plain_element es : Forall (fun e => plain e = true) es → Forall element es.
Proof. induction 1; constructor; [right|]; assumption. Qed.

Lemma with_slash_long rooted out :
  (2 ≤ List.length out)%nat → with_slash rooted out = Path.slash :: out.
Proof.
  intros Hlen. unfold with_slash.
  destruct out as [|a [|b out]]; cbn in Hlen; try lia.
  destruct rooted; reflexivity.
Qed.

Lemma with_slash_relative out :
  out ≠ nil → with_slash false out = Path.slash :: out.
Proof. destruct out; [congruence | reflexivity]. Qed.

(** Once something is written, every further element comes after a slash. *)
Lemma written_after rooted es out :
  with_slash rooted out = Path.slash :: out →
  Forall (fun e => plain e = true) es → es ≠ nil →
  written rooted es out = (rev (Path.slash :: join_elements es) ++ out)%list.
Proof.
  intros Hout Hes. revert out Hout.
  induction Hes as [|e es He Hes IH]; intros out Hout Hne; [congruence|].
  cbn [written]. rewrite (plain_not_empty _ He), Hout. destruct es as [|e2 es].
  - cbn [written join_elements rev]. rewrite <- app_assoc. reflexivity.
  - rewrite IH; [| |congruence].
    + rewrite (join_elements_cons e (e2 :: es)) by congruence.
      cbn [rev]. rewrite rev_app_distr. cbn [rev]. rewrite <- !app_assoc. reflexivity.
    + pose proof (plain_nonempty _ He) as Hne'.
      destruct rooted.
      * apply with_slash_long. rewrite length_app, length_rev. cbn.
        destruct e; [congruence | cbn; lia].
      * apply with_slash_relative. destruct e; [congruence|].
        cbn. destruct (rev e); discriminate.
Qed.

Lemma written_first rooted es out :
  with_slash rooted out = out → (rooted = true → out = [Path.slash]) → (rooted = false → out = nil) →
  Forall (fun e => plain e = true) es → es ≠ nil →
  written rooted es out = (rev (join_elements es) ++ out)%list.
Proof.
  intros Hout Hr Hn Hes Hne. destruct Hes as [|e es He Hes]; [congruence|].
  cbn [written]. rewrite (plain_not_empty _ He), Hout. destruct es as [|e2 es]; [reflexivity|].
  rewrite written_after; [| |exact Hes|congruence].
  - rewrite (join_elements_cons e (e2 :: es)) by congruence.
    rewrite rev_app_distr. cbn [rev]. rewrite <- !app_assoc. reflexivity.
  - pose proof (plain_nonempty _ He) as Hne'. destruct rooted.
    + rewrite (Hr eq_refl). apply with_slash_long. rewrite length_app, length_rev. cbn.
      destruct e; [congruence | cbn; lia].
    + rewrite (Hn eq_refl). apply with_slash_relative. rewrite app_nil_r.
      destruct e; [congruence|]. cbn. destruct (rev e); discriminate.
Qed.

(** [Clean] of an absolute path drops the empty elements and leaves the
    plain ones. *)
Lemma Clean_absolute es :
  Forall element es →
  Path.Clean ("/" ++ path_of es) = "/" ++ path_of (solid es).
Proof.
  intros Hes. unfold path_of.
  change ("/" ++ Bytes.of_list (join_elements es))
    with (String Path.slash (Bytes.of_list (join_elements es))).
  unfold Path.Clean. rewrite Ascii.eqb_refl.
  cbn [Bytes.to_list tail List.length]. rewrite to_of_list.
  rewrite clean_loop_elements by (auto; lia).
  rewrite written_solid. pose proof (solid_plain _ Hes) as Hs.
  destruct (solid es) as [|e es']; [reflexivity|].
  rewrite written_first; [| reflexivity | reflexivity | discriminate | exact Hs | congruence].
  destruct (rev (join_elements (e :: es')) ++ [Path.slash])%list eqn:E.
  { destruct (rev (join_elements (e :: es'))); discriminate. }
  rewrite <- E, rev_app_distr. cbn [rev app]. rewrite rev_involutive. reflexivity.
Qed.

Lemma join_elements_head c e es :
  ∃ l, join_elements ((c :: e) :: es) = c :: l.
Proof.
  destruct es; [eexists; reflexivity|].
  rewrite (join_elements_cons (c :: e)) by congruence. eexists. reflexivity.
Qed.

(** [Clean] of a relative path that starts with a plain element. *)
Lemma Clean_relative e es :
  plain e = true → Forall element es →
  Path.Clean (path_of (e :: es)) = path_of (e :: solid es).
Proof.
  intros He Hes. unfold path_of.
  destruct e as [|c e]; [discriminate|].
  destruct (plain_cons _ _ He) as (Hc & _).
  destruct (join_elements_head c e es) as (l & Hj).
  unfold Path.Clean. rewrite Hj at 1. cbn [Bytes.of_list]. rewrite Hc.
  rewrite !to_of_list.
  rewrite clean_loop_elements by (try constructor; auto; right; exact He).
  rewrite written_solid.
  assert (Hs : solid ((c :: e) :: es) = (c :: e) :: solid es) by reflexivity.
  rewrite Hs.
  rewrite written_first;
    [| reflexivity | discriminate | reflexivity
     | constructor; [exact He | exact (solid_plain _ Hes)] | congruence].
  rewrite app_nil_r.
  destruct (join_elements_head c e (solid es)) as (l' & Hj').
  destruct (rev (join_elements ((c :: e) :: solid es))) eqn:E.
  { rewrite Hj' in E. cbn in E. destruct (rev l'); discriminate. }
  rewrite <- E, rev_involutive. reflexivity.
Qed.

Lemma path_of_els es : path_of (els es) = path_of es.
Proof. destruct es; reflexivity. Qed.

Lemma els_nonempty es : els es ≠ nil.
Proof. destruct es; discriminate. Qed.

Lemma solid_app xs ys : solid (xs ++ ys) = (solid xs ++ solid ys)%list.
Proof. apply List.filter_app. Qed.

Lemma solid_els es : plains es → solid (els es) = es.
Proof. destruct 1 as [|e es He Hes]; [reflexivity|]. apply solid_id. constructor; assumption. Qed.

Lemma els_element es : plains es → Forall element (els es).
Proof.
  destruct 1 as [|e es He Hes]; [repeat constructor|].
  apply plain_element. constructor; assumption.
Qed.

Lemma join_elements_app xs ys :
  xs ≠ nil → ys ≠ nil →
  join_elements (xs ++ ys) = (join_elements xs ++ Path.slash :: join_elements ys)%list.
Proof.
  intros Hx Hy. induction xs as [|x xs IH]; [congruence|].
  destruct xs as [|x2 xs].
  - cbn [app]. rewrite join_elements_cons by exact Hy. reflexivity.
  - change ((x :: x2 :: xs) ++ ys)%list with (x :: ((x2 :: xs) ++ ys))%list.
    rewrite join_elements_cons by (destruct ys; discriminate).
    rewrite IH by discriminate.
    rewrite (join_elements_cons x (x2 :: xs)) by discriminate.
    rewrite <- app_assoc. reflexivity.
Qed.

Lemma path_of_app xs ys :
  xs ≠ nil → ys ≠ nil →
  path_of (xs ++ ys) = path_of xs ++ String Path.slash (path_of ys).
Proof.
  intros Hx Hy. unfold path_of. rewrite join_elements_app by assumption.
  rewrite of_list_app. reflexivity.
Qed.

Lemma append_assoc (a b c : string) : (a ++ b) ++ c = a ++ (b ++ c).
Proof. induction a as [|x a IH]; [reflexivity|]. rewrite !append_cons, IH. reflexivity. Qed.

Lemma append_empty_r (a : string) : a ++ "" = a.
Proof. induction a as [|x a IH]; [reflexivity|]. rewrite append_cons, IH. reflexivity. Qed.

(** [Join] of two elements, the first of which is not empty. *)
Lemma Join_two a b :
  a ≠ "" → Path.Join [a; b] = Path.Clean (a ++ String Path.slash b).
Proof.
  intros Ha. destruct a as [|c a]; [congruence|].
  unfold Path.Join. cbn [fold_left String.length Nat.add Nat.eqb Path.join_buf]. reflexivity.
Qed.

Lemma Join_empty b : b ≠ "" → Path.Join [""; b] = Path.Clean b.
Proof.
  intros Hb. destruct b as [|c b]; [congruence|].
  unfold Path.Join. cbn [fold_left String.length Nat.add Nat.eqb Path.join_buf]. reflexivity.
Qed.

Lemma path_of_nonempty e es : plain e = true → path_of (e :: es) ≠ "".
Proof.
  intros He. destruct e as [|c e]; [discriminate|].
  unfold path_of. destruct (join_elements_head c e es) as (l & ->). discriminate.
Qed.

Lemma path_of_relative e es :
  plain e = true → Strings.HasPrefix (path_of (e :: es)) "/" = false.
Proof.
  intros He. destruct e as [|c e]; [discriminate|].
  destruct (plain_cons _ _ He) as (Hc & _).
  unfold path_of. destruct (join_elements_head c e es) as (l & ->).
  unfold Strings.HasPrefix. cbn [Bytes.of_list Strings.strip].
  rewrite Ascii.eqb_sym. fold Path.slash. rewrite Hc. reflexivity.
Qed.

(** [Join] of clean paths: the elements of the one, then of the other. *)
Lemma Join_paths abs ds ss :
  plains ds → plains ss →
  Path.Join [path_from abs ds; path_of ss] = path_from abs (ds ++ ss).
Proof.
  intros Hds Hss. destruct abs; unfold path_from.
  - rewrite Join_two by discriminate.
    rewrite append_assoc.
    rewrite <- (path_of_els ds), <- (path_of_els ss).
    rewrite <- path_of_app by apply els_nonempty.
    rewrite Clean_absolute by (apply Forall_app; split; apply els_element; assumption).
    rewrite solid_app, !solid_els by assumption. reflexivity.
  - destruct Hds as [|d ds Hd Hds].
    + cbn [app]. destruct Hss as [|e ss He Hss]; [reflexivity|].
      change (path_of []) with "". rewrite Join_empty by (apply path_of_nonempty; exact He).
      rewrite Clean_relative by (try apply plain_element; assumption).
      rewrite solid_id by assumption. reflexivity.
    + rewrite Join_two by (apply path_of_nonempty; exact Hd).
      rewrite <- (path_of_els ss).
      rewrite <- path_of_app by (try apply els_nonempty; discriminate).
      change ((d :: ds) ++ els ss)%list with (d :: (ds ++ els ss))%list.
      rewrite Clean_relative;
        [| exact Hd | apply Forall_app; split; [apply plain_element | apply els_element]; assumption].
      rewrite solid_app, solid_els, solid_id by assumption. reflexivity.
Qed.

Lemma nonempty_path_of es : plains es → nonempty (path_of es) = negb (is_empty es).
Proof.
  destruct 1 as [|e es He Hes]; [reflexivity|].
  pose proof (path_of_nonempty e es He) as Hne. destruct (path_of (e :: es)); [congruence | reflexivity].
Qed.

Lemma HasPrefix_rooted s : Strings.HasPrefix ("/" ++ s) "/" = true.
Proof. reflexivity. Qed.

Lemma TrimPrefix_app prefix t : Strings.TrimPrefix (prefix ++ t) prefix = t.
Proof. unfold Strings.TrimPrefix. rewrite strip_app. reflexivity. Qed.

Lemma TrimPrefix_directory ds rest :
  rest ≠ nil →
  Strings.TrimPrefix ("/" ++ path_of (ds ++ rest)) ("/" ++ path_of ds)
  = match ds with nil => path_of rest | _ => "/" ++ path_of rest end.
Proof.
  intros Hrest. destruct ds as [|d ds].
  - apply (TrimPrefix_app "/").
  - rewrite path_of_app by (assumption || discriminate).
    rewrite <- append_assoc. apply TrimPrefix_app.
Qed.

Lemma Abs_unix cs es :
  plains cs → plains es → es ≠ nil →
  Abs (Host := Unix.host ("/" ++ path_of cs)) (path_of es) = Ok ("/" ++ path_of (cs ++ es)).
Proof.
  intros Hcs Hes Hne. destruct Hes as [|e es He Hes]; [congruence|].
  cbn [Abs Unix.host]. unfold Unix.Abs, Unix.IsAbs. rewrite (path_of_relative e es He).
  change ("/" ++ path_of cs) with (path_from true cs).
  rewrite (Join_paths true cs (e :: es)) by (try constructor; assumption). reflexivity.
Qed.

(** [locate] as a function of the record's name. *)
Lemma locate_run `{Host} s param r0 w :
  locate s param (r0, w) =
  let base := if nonempty (StorageDirectory param) then StorageDirectory param
              else storageDirectory s in
  let sub := StorageSubDirectory param in
  let dir := if nonempty sub then Path.Join [base; sub] else base in
  let uri := if nonempty sub then Path.Join [sub; Name r0] else Name r0 in
  let rlt := Path.Join [dir; Name r0] in
  if IsAbs rlt
  then (Ok dir, (set_PathRlt (Strings.TrimPrefix rlt base)
                   (set_PathAbs rlt (set_PathUri uri r0)), w))
  else match Abs rlt with
       | Ok abs => (Ok dir, (set_PathRlt rlt (set_PathAbs abs (set_PathUri uri r0)), w))
       | Fail e => (Fail e, (set_PathRlt rlt (set_PathAbs "" (set_PathUri uri r0)), w))
       end.
Proof.
  unfold locate. run_M. cbv zeta.
  destruct (nonempty (StorageSubDirectory param));
    cbn [Name PathRlt PathUri set_PathUri set_PathRlt set_PathAbs];
    (destruct (IsAbs _); [reflexivity|]); destruct (Abs _); reflexivity.
Qed.

(** What [locate] computes on a Unix host from clean paths. *)
Lemma locate_unix cwd cs s param abs ds ss n r0 w :
  (abs = false → cwd = "/" ++ path_of cs ∧ plains cs) →
  (if nonempty (StorageDirectory param) then StorageDirectory param
   else storageDirectory s) = path_from abs ds →
  StorageSubDirectory param = path_of ss →
  plains ds → plains ss → plain n = true → Name r0 = Bytes.of_list n →
  locate (H := Unix.host cwd) s param (r0, w)
  = (Ok (path_from abs (ds ++ ss)),
     (set_PathRlt (if abs
                   then match ds with
                        | nil => path_of (ss ++ [n])
                        | _ => "/" ++ path_of (ss ++ [n])
                        end
                   else path_of (ds ++ ss ++ [n]))
        (set_PathAbs ("/" ++ path_of ((if abs then nil else cs) ++ ds ++ ss ++ [n]))
           (set_PathUri (path_of (ss ++ [n])) r0)), w)).
Proof.
  intros Hcwd Hbase Hsub Hds Hss Hn Hname.
  assert (Hn1 : plains [n]) by (repeat constructor; exact Hn).
  assert (Hname' : Name r0 = path_of [n]) by exact Hname.
  assert (Hne : ∀ xs : list (list ascii), (xs ++ [n])%list ≠ nil) by (intros []; discriminate).
  assert (Hall : plains (ds ++ ss ++ [n])) by (repeat (apply Forall_app; split); assumption).
  rewrite locate_run. cbv zeta. rewrite Hbase, Hsub, Hname', (nonempty_path_of _ Hss).
  assert (Hdir : (if negb (is_empty ss) then Path.Join [path_from abs ds; path_of ss]
                  else path_from abs ds) = path_from abs (ds ++ ss)).
  { destruct ss; cbn [is_empty negb]; [rewrite app_nil_r; reflexivity|].
    apply Join_paths; assumption. }
  assert (Huri : (if negb (is_empty ss) then Path.Join [path_of ss; path_of [n]]
                  else path_of [n]) = path_of (ss ++ [n])).
  { destruct ss; cbn [is_empty negb]; [reflexivity|].
    apply (Join_paths false); assumption. }
  rewrite Hdir, Huri.
  rewrite (Join_paths abs (ds ++ ss) [n]) by (try apply Forall_app; auto).
  rewrite <- app_assoc.
  destruct abs; unfold path_from.
  - change (IsAbs ("/" ++ path_of (ds ++ ss ++ [n]))) with true. cbv iota.
    rewrite TrimPrefix_directory by apply Hne. reflexivity.
  - destruct (Hcwd eq_refl) as [-> Hcs].
    assert (Hrel : IsAbs (Host := Unix.host ("/" ++ path_of cs)) (path_of (ds ++ ss ++ [n])) = false).
    { destruct (ds ++ ss ++ [n])%list as [|x xs] eqn:E.
      - destruct ds; [exfalso; exact (Hne _ E) | discriminate].
      - apply (path_of_relative x xs). exact (Forall_inv Hall). }
    rewrite Hrel, Abs_unix; [reflexivity | assumption | assumption |].
    destruct ds; [apply Hne | discriminate].
Qed.

(** What lines 127-139 make of a clean relative path on a Unix host. *)
Lemma public_uri_unix cwd s param pabs us es :
  (if nonempty (UriAccessPrefix param) then UriAccessPrefix param
   else uriAccessPrefix s) = path_from pabs us →
  plains us → plains es → es ≠ nil →
  public_uri (H := Unix.host cwd) s param (path_of es) = "/" ++ path_of (us ++ es).
Proof.
  intros Hprefix Hus Hes Hne. unfold public_uri. rewrite Hprefix.
  cbn [PathSeparator Unix.host]. rewrite Ascii.eqb_refl. cbn [negb].
  assert (Hu1 : (if nonempty (path_from pabs us) then Path.Join [path_from pabs us; path_of es]
                 else path_of es) = path_from pabs (us ++ es)).
  { destruct (nonempty (path_from pabs us)) eqn:E; [apply Join_paths; assumption|].
    destruct pabs; [discriminate|]. unfold path_from in E.
    rewrite nonempty_path_of in E by assumption. destruct us; [reflexivity | discriminate]. }
  rewrite Hu1. destruct pabs; unfold path_from; [reflexivity|].
  assert (Hrel : Strings.HasPrefix (path_of (us ++ es)) "/" = false).
  { destruct (us ++ es)%list as [|x xs] eqn:E.
    - destruct us; cbn in E; [congruence | discriminate].
    - apply (path_of_relative x xs).
      assert (Hall : plains (x :: xs)) by (rewrite <- E; apply Forall_app; auto).
      exact (Forall_inv Hall). }
  rewrite Hrel. reflexivity.
Qed.

(** The paths of a record on a Unix host, from clean settings. *)
Lemma plan_unix cwd cs s param abs ds ss pabs us n r0 w :
  (abs = false → cwd = "/" ++ path_of cs ∧ plains cs) →
  (if nonempty (StorageDirectory param) then StorageDirectory param
   else storageDirectory s) = path_from abs ds →
  StorageSubDirectory param = path_of ss →
  (if nonempty (UriAccessPrefix param) then UriAccessPrefix param
   else uriAccessPrefix s) = path_from pabs us →
  plains ds → plains ss → plains us → plain n = true → Name r0 = Bytes.of_list n →
  ∀ dir r, plan (H := Unix.host cwd) s param (r0, w) = (Ok dir, (r, w)) →
    dir = path_from abs (ds ++ ss)
    ∧ PathAbs r = "/" ++ path_of ((if abs then nil else cs) ++ ds ++ ss ++ [n])
    ∧ PathRlt r = (if abs
                   then match ds with
                        | nil => path_of (ss ++ [n])
                        | _ => "/" ++ path_of (ss ++ [n])
                        end
                   else path_of (ds ++ ss ++ [n]))
    ∧ PathUri r = "/" ++ path_of (us ++ ss ++ [n]).
Proof.
  intros Hcwd Hbase Hsub Hprefix Hds Hss Hus Hn Hname dir r.
  unfold plan. run_M.
  rewrite (locate_unix cwd cs s param abs ds ss n r0 w) by assumption.
  rewrite publish_run. cbn [PathUri set_PathUri set_PathRlt set_PathAbs].
  rewrite (public_uri_unix cwd s param pabs us (ss ++ [n]));
    [| assumption | assumption | apply Forall_app; auto | destruct ss; discriminate].
  intros [= <- <-]. cbn [PathAbs PathRlt PathUri set_PathUri set_PathRlt set_PathAbs].
  repeat split.
Qed.

Lemma all_bytes_forallb f s : all_bytes f s = forallb f (Bytes.to_list s).
Proof. induction s as [|c s IH]; [reflexivity|]. cbn. rewrite IH. reflexivity. Qed.

Lemma all_bytes_impl (f g : ascii → bool) s :
  (∀ c, f c = true → g c = true) → all_bytes f s = true → all_bytes g s = true.
Proof.
  intros Hfg. induction s as [|c s IH]; [reflexivity|]. cbn [all_bytes].
  rewrite !andb_true_iff. intros [Hc Hs]. auto.
Qed.

Lemma all_bytes_app f a b :
  all_bytes f (a ++ b) = all_bytes f a && all_bytes f b.
Proof.
  induction a as [|c a IH]; [reflexivity|]. rewrite append_cons. cbn [all_bytes].
  rewrite IH, andb_assoc. reflexivity.
Qed.

Lemma no_slash_contains s :
  all_bytes no_slash s = negb (Strings.contains_byte Path.slash s).
Proof.
  induction s as [|c s IH]; [reflexivity|]. cbn [all_bytes Strings.contains_byte].
  rewrite IH, negb_orb. reflexivity.
Qed.

Lemma lower_hex_no_slash c : Hex.is_lower_hex c = true → no_slash c = true.
Proof. destruct c as [[] [] [] [] [] [] [] []]; try reflexivity; discriminate. Qed.

Lemma word_no_slash c : Regexp.is_word c = true → no_slash c = true.
Proof. destruct c as [[] [] [] [] [] [] [] []]; try reflexivity; discriminate. Qed.

(** [path.Ext] never returns a slash: the scan stops at the last one. *)
Lemma ext_loop_no_slash rpath suffix :
  forallb no_slash suffix = true → forallb no_slash (Path.ext_loop rpath suffix) = true.
Proof.
  revert suffix. induction rpath as [|c r IH]; intros suffix Hs; [reflexivity|].
  cbn [Path.ext_loop]. destruct (Ascii.eqb c Path.slash) eqn:Hc; [reflexivity|].
  assert (Hcs : forallb no_slash (c :: suffix) = true)
    by (cbn [forallb]; unfold no_slash at 1; rewrite Hc; exact Hs).
  destruct (Ascii.eqb c Path.dot); [exact Hcs | apply IH, Hcs].
Qed.

Lemma Ext_no_slash path : all_bytes no_slash (Path.Ext path) = true.
Proof.
  rewrite all_bytes_forallb. unfold Path.Ext. rewrite to_of_list.
  apply ext_loop_no_slash. reflexivity.
Qed.

(** A string of three bytes or more without a slash is a plain element. *)
Lemma plain_long s :
  all_bytes no_slash s = true → (3 ≤ String.length s)%nat →
  plain (Bytes.to_list s) = true.
Proof.
  intros Hs Hlen. rewrite all_bytes_forallb in Hs. rewrite <- to_list_length in Hlen.
  unfold plain. destruct (Bytes.to_list s) as [|a [|b [|c l]]]; cbn in Hlen; try lia.
  fold no_slash. rewrite Hs. cbn [andb].
  rewrite !bool_decide_eq_false_2 by discriminate. reflexivity.
Qed.

(** The name of a stored file: the digest in hex, then an extension
    without slash. *)
Lemma name_plain msg ext :
  all_bytes no_slash ext = true →
  plain (Bytes.to_list (Hex.EncodeToString (Sha256.Sum256 msg) ++ ext)) = true.
Proof.
  intros Hext. destruct (hash_shape msg) as [Hlen Hhex].
  revert Hlen Hhex. generalize (Hex.EncodeToString (Sha256.Sum256 msg)). intros h Hlen Hhex.
  apply plain_long.
  - rewrite all_bytes_app, Hext, andb_true_r.
    exact (all_bytes_impl _ _ _ lower_hex_no_slash Hhex).
  - rewrite append_length. lia.
Qed.

(** The groups of a match. *)
Lemma FindAllSubmatch_groups content whole subtype payload :
  Regexp.FindAllSubmatch content = [[whole; subtype; payload]] →
  ∃ space rest,
    content = "data:" ++ space ++ "image/" ++ subtype ++ ";base64," ++ payload ++ rest
    ∧ all_bytes Regexp.is_space space = true
    ∧ subtype ≠ "" ∧ all_bytes Regexp.is_word subtype = true
    ∧ all_bytes Regexp.not_newline payload = true
    ∧ (rest = "" ∨ ∃ rest', rest = String Base64.LF rest').
Proof.
  unfold Regexp.FindAllSubmatch, Regexp.match_prefix.
  destruct (Strings.strip "data:" content) as [r1|] eqn:H1; [|discriminate].
  cbn [mbind option_bind].
  destruct (Strings.strip "image/" _) as [r3|] eqn:H3; [|discriminate].
  cbn [mbind option_bind].
  destruct (Strings.take_while Regexp.is_word r3) as [|c st] eqn:Hw; [discriminate|].
  destruct (Strings.strip ";base64," _) as [r5|] eqn:H5; [|discriminate].
  cbn [mbind option_bind]. intros [= _ <- <-].
  exists (Strings.take_while Regexp.is_space r1), (Strings.drop_while Regexp.not_newline r5).
  split; [|split; [apply take_while_all | split; [discriminate | split; [|split]]]].
  - apply strip_Some in H1, H3, H5.
    rewrite H1. f_equal.
    rewrite (take_drop_while Regexp.is_space r1) at 1. f_equal.
    rewrite H3. f_equal.
    rewrite (take_drop_while Regexp.is_word r3) at 1. rewrite Hw, H5. f_equal. f_equal.
    apply take_drop_while.
  - rewrite <- Hw. apply take_while_all.
  - apply take_while_all.
  - clear. induction r5 as [|c r5 IH]; [left; reflexivity|].
    cbn [Strings.drop_while]. destruct (Regexp.not_newline c) eqn:E; [exact IH|].
    right. exists r5. f_equal. unfold Regexp.not_newline in E.
    apply negb_false_iff, Ascii.eqb_eq in E. exact E.
Qed.

Section Stored.
Context `{Host}.

(** A record returned without error: its name before [locate]. *)
Lemma stored_name s param w r w' :
  (∃ file, multipartCopy s param file w = ((r, None), w'))
  ∨ (∃ content, base64Copy s param content w = ((r, None), w')) →
  ∃ msg ext, Name r = Hex.EncodeToString (Sha256.Sum256 msg) ++ ext
             ∧ all_bytes no_slash ext = true.
Proof.
  intros [(file & Hrun)|(content & Hrun)].
  - destruct (multipartCopy_stored _ _ _ _ _ _ Hrun) as (src & _ & _ & Hh & He & Hn & _).
    exists (IO.data (Multipart.reader src)), (Path.Ext (Multipart.Filename file)).
    rewrite Hn, Hh, He. split; [reflexivity | apply Ext_no_slash].
  - destruct (base64Copy_stored _ _ _ _ _ _ Hrun)
      as (whole & subtype & payload & ic & Hm & _ & _ & Hh & He & Hn & _).
    destruct (FindAllSubmatch_groups _ _ _ _ Hm) as (space & rest & _ & _ & _ & Hw & _).
    exists content, ("." ++ subtype). rewrite Hn, Hh, He. split; [reflexivity|].
    change ("." ++ subtype) with (String "." subtype). cbn [all_bytes].
    exact (all_bytes_impl _ _ _ word_no_slash Hw).
Qed.

Lemma plan_name s param r0 w dir r :
  plan s param (r0, w) = (Ok dir, (r, w)) → Name r = Name r0.
Proof.
  unfold plan. run_M.
  destruct (locate s param (r0, w)) as [[d|e] [r1 w1]] eqn:Hl; [|discriminate].
  destruct (locate_frame _ _ _ _ _ _ _ Hl) as (-> & (_ & Hn & _) & _).
  rewrite publish_run. intros [= _ <-]. exact Hn.
Qed.

Lemma stored_plan s param w r w' :
  (∃ file, multipartCopy s param file w = ((r, None), w'))
  ∨ (∃ content, base64Copy s param content w = ((r, None), w')) →
  ∃ r0 dir, plan s param (r0, w) = (Ok dir, (r, w)).
Proof.
  intros [(file & Hrun)|(content & Hrun)].
  - destruct (multipartCopy_plan _ _ _ _ _ _ Hrun) as (src & dir & _ & Hp). eauto.
  - destruct (base64Copy_plan _ _ _ _ _ _ Hrun) as (wh & st & pl & dir & _ & Hp). eauto.
Qed.

End Stored.

(** X1.  The name of a stored file is one path element: at least the 64
    digits of the digest, and no slash, whatever the file name of the upload
    or the type of the image. *)
Theorem stored_name_is_one_element `{Host} s param w r w' :
  (∃ file, multipartCopy s param file w = ((r, None), w'))
  ∨ (∃ content, base64Copy s param content w = ((r, None), w')) →
  Strings.contains_byte Path.slash (Name r) = false
  ∧ (64 ≤ String.length (Name r))%nat
  ∧ plain (Bytes.to_list (Name r)) = true.
Proof.
  intros Hrun. destruct (stored_name _ _ _ _ _ Hrun) as (msg & ext & -> & Hext).
  pose proof (name_plain msg ext Hext) as Hplain.
  destruct (hash_shape msg) as [Hlen Hhex].
  revert Hplain Hlen Hhex. generalize (Hex.EncodeToString (Sha256.Sum256 msg)).
  intros h Hplain Hlen Hhex. split; [|split; [|exact Hplain]].
  - apply negb_true_iff. rewrite <- no_slash_contains, all_bytes_app, Hext, andb_true_r.
    exact (all_bytes_impl _ _ _ lower_hex_no_slash Hhex).
  - rewrite append_length. lia.
Qed.

Lemma stored_name_is_one_element_witness :
  Strings.contains_byte Path.slash (Name Demo.record) = false
  ∧ (64 ≤ String.length (Name Demo.record))%nat
  ∧ plain (Bytes.to_list (Name Demo.record)) = true.
Proof.
  apply (stored_name_is_one_element (H := Demo.host) Demo.storage Demo.param Demo.empty
           Demo.record (snd demo_stored)).
  left. exists Demo.upload. apply result_eta. vm_compute. reflexivity.
Defined.

Lemma unix_paths cwd cs s param abs ds ss pabs us w r w' :
  (abs = false → cwd = "/" ++ path_of cs ∧ plains cs) →
  (if nonempty (StorageDirectory param) then StorageDirectory param
   else storageDirectory s) = path_from abs ds →
  StorageSubDirectory param = path_of ss →
  (if nonempty (UriAccessPrefix param) then UriAccessPrefix param
   else uriAccessPrefix s) = path_from pabs us →
  plains ds → plains ss → plains us →
  (∃ file, multipartCopy (H := Unix.host cwd) s param file w = ((r, None), w'))
  ∨ (∃ content, base64Copy (H := Unix.host cwd) s param content w = ((r, None), w')) →
  PathAbs r = "/" ++ path_of ((if abs then nil else cs) ++ ds ++ ss ++ [Bytes.to_list (Name r)])
  ∧ PathRlt r = (if abs
                 then match ds with
                      | nil => path_of (ss ++ [Bytes.to_list (Name r)])
                      | _ => "/" ++ path_of (ss ++ [Bytes.to_list (Name r)])
                      end
                 else path_of (ds ++ ss ++ [Bytes.to_list (Name r)]))
  ∧ PathUri r = "/" ++ path_of (us ++ ss ++ [Bytes.to_list (Name r)]).
Proof.
  intros Hcwd Hbase Hsub Hprefix Hds Hss Hus Hrun.
  assert (Hn : plain (Bytes.to_list (Name r)) = true).
  { destruct (stored_name (H := Unix.host cwd) _ _ _ _ _ Hrun) as (msg & ext & -> & Hext).
    apply name_plain, Hext. }
  destruct (stored_plan (H := Unix.host cwd) _ _ _ _ _ Hrun) as (r0 & dir & Hp).
  rewrite (plan_name (H := Unix.host cwd) _ _ _ _ _ _ Hp) in *.
  assert (Hname : Name r0 = Bytes.of_list (Bytes.to_list (Name r0))) by (rewrite of_to_list; reflexivity).
  destruct (plan_unix cwd cs s param abs ds ss pabs us _ r0 w
              Hcwd Hbase Hsub Hprefix Hds Hss Hus Hn Hname dir r Hp) as (_ & Ha & Hr & Hu).
  auto.
Qed.

(** X2.  On a Unix host, with an absolute base directory of the plain
    elements [ds], a sub-directory of the plain elements [ss] (none for the
    empty string) and a prefix of the plain elements [us] (absolute,
    relative or empty), a stored record has the absolute path
    [/ds/ss/name], the public path [/us/ss/name] and the relative path
    [/ss/name], which loses its slash when the base directory is the
    root. *)
Theorem paths_under_absolute_directory cwd s param ds ss pabs us w r w' :
  (if nonempty (StorageDirectory param) then StorageDirectory param
   else storageDirectory s) = "/" ++ path_of ds →
  StorageSubDirectory param = path_of ss →
  (if nonempty (UriAccessPrefix param) then UriAccessPrefix param
   else uriAccessPrefix s) = path_from pabs us →
  Forall (fun e => plain e = true) ds →
  Forall (fun e => plain e = true) ss →
  Forall (fun e => plain e = true) us →
  (∃ file, multipartCopy (H := Unix.host cwd) s param file w = ((r, None), w'))
  ∨ (∃ content, base64Copy (H := Unix.host cwd) s param content w = ((r, None), w')) →
  PathAbs r = "/" ++ path_of (ds ++ ss ++ [Bytes.to_list (Name r)])
  ∧ PathRlt r = match ds with
                | nil => path_of (ss ++ [Bytes.to_list (Name r)])
                | _ => "/" ++ path_of (ss ++ [Bytes.to_list (Name r)])
                end
  ∧ PathUri r = "/" ++ path_of (us ++ ss ++ [Bytes.to_list (Name r)]).
Proof.
  intros Hbase Hsub Hprefix Hds Hss Hus Hrun.
  apply (unix_paths cwd nil s param true ds ss pabs us w r w'); try assumption.
  discriminate.
Qed.

Lemma paths_under_absolute_directory_witness :
  PathAbs Demo.record
  = "/" ++ path_of ([Bytes.to_list "data"]
                     ++ [Bytes.to_list "2024"; Bytes.to_list "01"; Bytes.to_list "01"]
                     ++ [Bytes.to_list (Name Demo.record)])
  ∧ PathRlt Demo.record
    = "/" ++ path_of ([Bytes.to_list "2024"; Bytes.to_list "01"; Bytes.to_list "01"]
                       ++ [Bytes.to_list (Name Demo.record)])
  ∧ PathUri Demo.record
    = "/" ++ path_of ([Bytes.to_list "static"]
                       ++ [Bytes.to_list "2024"; Bytes.to_list "01"; Bytes.to_list "01"]
                       ++ [Bytes.to_list (Name Demo.record)]).
Proof.
  apply (paths_under_absolute_directory "/srv/app" Demo.storage Demo.param
           [Bytes.to_list "data"]
           [Bytes.to_list "2024"; Bytes.to_list "01"; Bytes.to_list "01"]
           true [Bytes.to_list "static"] Demo.empty Demo.record (snd demo_stored)).
  - reflexivity.
  - reflexivity.
  - reflexivity.
  - repeat constructor.
  - repeat constructor.
  - repeat constructor.
  - left. exists Demo.upload. apply result_eta. vm_compute. reflexivity.
Defined.

(** X3.  On a Unix host with working directory [/cs], a relative base
    directory of the plain elements [ds] (none for the empty string) is
    resolved against the working directory: the absolute path is
    [/cs/ds/ss/name], the relative path is [ds/ss/name] as joined, and the
    public path is [/us/ss/name]. *)
Theorem paths_under_relative_directory cs s param ds ss pabs us w r w' :
  Forall (fun e => plain e = true) cs →
  (if nonempty (StorageDirectory param) then StorageDirectory param
   else storageDirectory s) = path_of ds →
  StorageSubDirectory param = path_of ss →
  (if nonempty (UriAccessPrefix param) then UriAccessPrefix param
   else uriAccessPrefix s) = path_from pabs us →
  Forall (fun e => plain e = true) ds →
  Forall (fun e => plain e = true) ss →
  Forall (fun e => plain e = true) us →
  (∃ file, multipartCopy (H := Unix.host ("/" ++ path_of cs)) s param file w = ((r, None), w'))
  ∨ (∃ content,
       base64Copy (H := Unix.host ("/" ++ path_of cs)) s param content w = ((r, None), w')) →
  PathAbs r = "/" ++ path_of (cs ++ ds ++ ss ++ [Bytes.to_list (Name r)])
  ∧ PathRlt r = path_of (ds ++ ss ++ [Bytes.to_list (Name r)])
  ∧ PathUri r = "/" ++ path_of (us ++ ss ++ [Bytes.to_list (Name r)]).
Proof.
  intros Hcs Hbase Hsub Hprefix Hds Hss Hus Hrun.
  apply (unix_paths ("/" ++ path_of cs) cs s param false ds ss pabs us w r w'); try assumption.
  intros _. split; [reflexivity | exact Hcs].
Qed.

Lemma paths_under_relative_directory_witness :
  PathAbs Relative.record
  = "/" ++ path_of ([Bytes.to_list "srv"; Bytes.to_list "app"] ++ [Bytes.to_list "uploads"]
                     ++ nil ++ [Bytes.to_list (Name Relative.record)])
  ∧ PathRlt Relative.record
    = path_of ([Bytes.to_list "uploads"] ++ nil ++ [Bytes.to_list (Name Relative.record)])
  ∧ PathUri Relative.record
    = "/" ++ path_of (nil ++ nil ++ [Bytes.to_list (Name Relative.record)]).
Proof.
  apply (paths_under_relative_directory [Bytes.to_list "srv"; Bytes.to_list "app"]
           Relative.storage Relative.param [Bytes.to_list "uploads"] nil false nil
           Demo.empty Relative.record
           (snd (multipartCopy (H := Demo.host) Relative.storage Relative.param
                   Demo.upload Demo.empty))).
  - repeat constructor.
  - reflexivity.
  - reflexivity.
  - reflexivity.
  - repeat constructor.
  - constructor.
  - constructor.
  - left. exists Demo.upload. apply result_eta. vm_compute. reflexivity.
Defined.

(** ** The match of the regular expression, group by group *)

Lemma while_all f a :
  all_bytes f a = true →
  Strings.take_while f a = a ∧ Strings.drop_while f a = "".
Proof.
  induction a as [|x a IH]; [split; reflexivity|].
  cbn [all_bytes]. rewrite andb_true_iff. intros [Hx Ha].
  cbn [Strings.take_while Strings.drop_while]. rewrite Hx.
  destruct (IH Ha) as [-> ->]. split; reflexivity.
Qed.

Lemma while_line payload rest :
  all_bytes Regexp.not_newline payload = true →
  (rest = "" ∨ ∃ rest', rest = String Base64.LF rest') →
  Strings.take_while Regexp.not_newline (payload ++ rest) = payload
  ∧ Strings.drop_while Regexp.not_newline (payload ++ rest) = rest.
Proof.
  intros Hp [->|(rest' & ->)].
  - rewrite append_empty_r. apply while_all, Hp.
  - apply while_app; [exact Hp | reflexivity].
Qed.

Lemma substring_prefix a b : substring 0 (String.length a) (a ++ b) = a.
Proof.
  induction a as [|x a IH]; [destruct b; reflexivity|].
  rewrite append_cons. cbn [String.length substring]. rewrite IH. reflexivity.
Qed.

(** The expression on a text of its pattern: the match ends before the
    first line feed of the payload. *)
Lemma FindAllSubmatch_pattern space subtype payload rest :
  all_bytes Regexp.is_space space = true →
  subtype ≠ "" → all_bytes Regexp.is_word subtype = true →
  all_bytes Regexp.not_newline payload = true →
  (rest = "" ∨ ∃ rest', rest = String Base64.LF rest') →
  Regexp.FindAllSubmatch
    ("data:" ++ space ++ "image/" ++ subtype ++ ";base64," ++ payload ++ rest)
  = [["data:" ++ space ++ "image/" ++ subtype ++ ";base64," ++ payload; subtype; payload]].
Proof.
  intros Hsp Hne Hw Hp Hrest.
  unfold Regexp.FindAllSubmatch, Regexp.match_prefix.
  rewrite strip_app. cbn [mbind option_bind].
  change ("image/" ++ subtype ++ ";base64," ++ payload ++ rest)
    with (String "i" ("mage/" ++ subtype ++ ";base64," ++ payload ++ rest)).
  destruct (while_app Regexp.is_space space "i" ("mage/" ++ subtype ++ ";base64," ++ payload ++ rest)
              Hsp eq_refl) as [_ ->].
  change (String "i" ("mage/" ++ subtype ++ ";base64," ++ payload ++ rest))
    with ("image/" ++ subtype ++ ";base64," ++ payload ++ rest).
  rewrite strip_app. cbn [mbind option_bind].
  change (";base64," ++ payload ++ rest) with (String ";" ("base64," ++ payload ++ rest)).
  destruct (while_app Regexp.is_word subtype ";" ("base64," ++ payload ++ rest) Hw eq_refl)
    as [-> ->].
  destruct subtype as [|c subtype]; [congruence|].
  change (String ";" ("base64," ++ payload ++ rest)) with (";base64," ++ payload ++ rest).
  rewrite strip_app. cbn [mbind option_bind].
  destruct (while_line payload rest Hp Hrest) as [-> ->].
  f_equal. f_equal.
  assert (Hc : "data:" ++ space ++ "image/" ++ String c subtype ++ ";base64," ++ payload ++ rest
               = ("data:" ++ space ++ "image/" ++ String c subtype ++ ";base64," ++ payload) ++ rest).
  { rewrite !append_assoc. reflexivity. }
  rewrite Hc. rewrite append_length, Nat.add_sub. apply substring_prefix.
Qed.

(** ** Failures before the first file system call *)

(** X4.  When the upload cannot be opened, read or rewound, [multipartCopy]
    returns that error without any file system call; the record carries
    the size and the original name of the upload, and no name or path. *)
Theorem unreadable_upload_touches_nothing `{Host} s param file w e :
  Multipart.Open file = Fail e
  ∨ (∃ src, Multipart.Open file = Ok src
       ∧ (IO.read_error (Multipart.reader src) = Some e
          ∨ (IO.read_error (Multipart.reader src) = None
             ∧ Multipart.seek_error src = Some e))) →
  ∃ r, multipartCopy s param file w = ((r, Some e), w)
       ∧ Size r = Multipart.Size file
       ∧ OriginName r = Multipart.Filename file
       ∧ Name r = "" ∧ PathAbs r = "" ∧ PathRlt r = "" ∧ PathUri r = "".
Proof.
  rewrite multipartCopy_run. cbv zeta.
  intros [->|(src & -> & [->|[-> ->]])].
  - eexists. split; [reflexivity|]. repeat split.
  - eexists. split; [reflexivity|]. repeat split.
  - generalize (Hex.EncodeToString (Sha256.Sum256 (IO.data (Multipart.reader src)))).
    intros h. eexists. split; [reflexivity|]. repeat split.
Qed.

Lemma unreadable_upload_touches_nothing_witness :
  ∃ r, multipartCopy (H := Demo.host) Demo.storage Demo.param
         {| Multipart.Filename := "cat.png"; Multipart.Size := 5;
            Multipart.Open := Fail (ErrFile "open") |} Demo.empty
       = ((r, Some (ErrFile "open")), Demo.empty)
       ∧ Size r = 5 ∧ OriginName r = "cat.png"
       ∧ Name r = "" ∧ PathAbs r = "" ∧ PathRlt r = "" ∧ PathUri r = "".
Proof.
  apply (unreadable_upload_touches_nothing (H := Demo.host) Demo.storage Demo.param
           {| Multipart.Filename := "cat.png"; Multipart.Size := 5;
              Multipart.Open := Fail (ErrFile "open") |} Demo.empty (ErrFile "open")).
  left. reflexivity.
Defined.

(** X5.  A text of the pattern whose payload does not decode: [base64Copy]
    returns the error of the decoder and the zero record, without any file
    system call. *)
Theorem undecodable_payload_touches_nothing `{Host} s param space subtype payload decoded e w :
  all_bytes Regexp.is_space space = true →
  subtype ≠ "" → all_bytes Regexp.is_word subtype = true →
  all_bytes Regexp.not_newline payload = true →
  Base64.DecodeString payload = (decoded, Some e) →
  base64Copy s param ("data:" ++ space ++ "image/" ++ subtype ++ ";base64," ++ payload) w
  = ((zero_result, Some e), w).
Proof.
  intros Hsp Hne Hw Hp Hd. rewrite base64Copy_run.
  pose proof (FindAllSubmatch_pattern space subtype payload "" Hsp Hne Hw Hp (or_introl eq_refl)) as Hm.
  rewrite append_empty_r in Hm. rewrite Hm, Hd. reflexivity.
Qed.

Lemma undecodable_payload_touches_nothing_witness :
  base64Copy (H := Demo.host) Demo.storage Demo.param
    ("data:" ++ "" ++ "image/" ++ "png" ++ ";base64," ++ "aGVsbG8") Demo.empty
  = ((zero_result, Some (CorruptInputError 4)), Demo.empty).
Proof.
  apply (undecodable_payload_touches_nothing (H := Demo.host) Demo.storage Demo.param
           "" "png" "aGVsbG8" "hel" (CorruptInputError 4) Demo.empty);
    try reflexivity.
  discriminate.
Defined.

(** ** Targets that cannot be written *)

Section BlockedTargets.
Context `{Host}.

(** Every run either stops before the paths are set, with the world as it
    was, or goes through [store]. *)
Lemma copy_cases s param w r err w' :
  (∃ file, multipartCopy s param file w = ((r, err), w'))
  ∨ (∃ content, base64Copy s param content w = ((r, err), w')) →
  (PathAbs r = "" ∧ w' = w ∧ ∃ e, err = Some e)
  ∨ ∃ cond data re r0,
      removes_files cond ∧ PathAbs r0 = ""
      ∧ finish (store s param (write_with cond data re) (r0, w)) = ((r, err), w').
Proof.
  intros [(file & Hrun)|(content & Hrun)].
  - rewrite multipartCopy_run in Hrun. cbv zeta in Hrun.
    destruct (Multipart.Open file) as [src|e].
    2:{ injection Hrun as <- <- <-. left. split; [reflexivity|]. split; [reflexivity | eauto]. }
    destruct (IO.read_error (Multipart.reader src)) eqn:Hr.
    { injection Hrun as <- <- <-. left. split; [reflexivity|]. split; [reflexivity | eauto]. }
    destruct (Multipart.seek_error src).
    { revert Hrun. generalize (Hex.EncodeToString (Sha256.Sum256 (IO.data (Multipart.reader src)))).
      intros h [= <- <- <-]. left. split; [reflexivity|]. split; [reflexivity | eauto]. }
    rewrite (finish_store_ext _ _ _ _ _ (multipartWrite_with src)) in Hrun.
    right. exists multipart_cond, (IO.data (Multipart.reader src)),
             (IO.read_error (Multipart.reader src)), (multipart_named file src).
    split; [apply multipart_cond_files|]. split; [reflexivity | exact Hrun].
  - rewrite base64Copy_run in Hrun.
    assert (Hz : ∀ e, ((zero_result, Some e), w) = ((r, err), w') →
                 PathAbs r = "" ∧ w' = w ∧ ∃ e, err = Some e).
    { intros e [= <- <- <-]. split; [reflexivity|]. split; [reflexivity | eauto]. }
    destruct (Regexp.FindAllSubmatch content) as [|[|whole [|subtype [|payload [|]]]] ms];
      try (left; exact (Hz _ Hrun)).
    destruct (Base64.DecodeString payload) as [ic [e|]]; [left; exact (Hz _ Hrun)|].
    rewrite (finish_store_ext _ _ _ _ _ (base64Write_with ic)) in Hrun.
    right. exists base64_cond, ic, None, (base64_named content subtype).
    split; [apply base64_cond_files|]. split; [reflexivity | exact Hrun].
Qed.

Lemma Stat_blocked path w k :
  resolve path = Some k → Os.file_above (fs w) nil k = true →
  Os.Stat path w = Fail ENOTDIR.
Proof. intros Hk Ha. unfold Os.Stat. rewrite Hk, Ha. reflexivity. Qed.

Lemma write_with_blocked cond data re r w k :
  resolve (PathAbs r) = Some k → Os.file_above (fs w) nil k = true →
  write_with cond data re (r, w)
  = (Fail ENOTDIR, (r, mkWorld (fs w) (trace w ++ [EvCreate (PathAbs r)]))).
Proof.
  intros Hk Ha. unfold write_with, remove_if, create_write, Os.Create. cbn [fst snd].
  rewrite (Stat_blocked _ _ _ Hk Ha), Hk, Ha. reflexivity.
Qed.

(** The steps of [store] after [locate], run one after the other. *)
Lemma store_steps s param write r0 w :
  store s param write (r0, w) =
  match locate s param (r0, w) with
  | (Ok dir, (r1, w0)) =>
      match ensureDirectory dir (r1, w0) with
      | (Ok _, (r2, w1)) => write (set_PathUri (public_uri s param (PathUri r2)) r2, w1)
      | (Fail e, st) => (Fail e, st)
      end
  | (Fail e, st) => (Fail e, st)
  end.
Proof.
  unfold store. run_M.
  destruct (locate s param (r0, w)) as [[dir|e] [r1 w0]]; [|reflexivity].
  destruct (ensureDirectory dir (r1, w0)) as [[[]|e] [r2 w1]]; [|reflexivity].
  rewrite publish_run. reflexivity.
Qed.

Lemma store_blocked s param cond data re r0 w r err w' k :
  PathAbs r0 = "" →
  finish (store s param (write_with cond data re) (r0, w)) = ((r, err), w') →
  resolve (PathAbs r) = Some k → Os.file_above (fs w) nil k = true →
  err = Some ENOTDIR ∧ w' = mkWorld (fs w) (trace w ++ [EvCreate (PathAbs r)]).
Proof.
  intros H0. rewrite store_steps.
  destruct (locate s param (r0, w)) as [[dir|e] [r1 w0]] eqn:Hl;
    destruct (locate_frame _ _ _ _ _ _ _ Hl) as (-> & _ & _ & Hfail).
  2:{ cbn [finish]. intros [= <- _ _] Hk. rewrite (Hfail e eq_refl), resolve_empty in Hk.
      discriminate. }
  rewrite ensureDirectory_run.
  pose (r2 := set_PathUri (public_uri s param (PathUri r1)) r1).
  assert (Hrec : ∀ w1 o r' w2, write_with cond data re (r2, w1) = (o, (r', w2)) →
            ∀ x, finish (o, (r', w2)) = ((r, x), w') → PathAbs r = PathAbs r1).
  { intros w1 o r' w2 Hw x Hfin. apply write_with_record in Hw. cbn [fst] in Hw. subst r'.
    destruct o as [[]|e]; cbn [finish] in Hfin; injection Hfin as <- _ _; reflexivity. }
  destruct (Os.Stat (PathAbs r1) w) as [info|e0] eqn:Hs.
  - fold r2. destruct (write_with cond data re (r2, w)) as [o [r' w2]] eqn:Hw.
    intros Hfin Hk Ha. rewrite (Hrec _ _ _ _ Hw _ Hfin) in Hk.
    rewrite (Stat_blocked _ _ _ Hk Ha) in Hs. discriminate.
  - destruct (Os.IsNotExist e0) eqn:Hne.
    + destruct (Os.MkdirAll dir w) as [[e|] w1] eqn:Hm.
      * cbn [finish]. intros [= <- _ _] Hk Ha.
        rewrite (Stat_blocked _ _ _ Hk Ha) in Hs. injection Hs as <-. discriminate.
      * fold r2. destruct (write_with cond data re (r2, w1)) as [o [r' w2]] eqn:Hw.
        intros Hfin Hk Ha. rewrite (Hrec _ _ _ _ Hw _ Hfin) in Hk.
        rewrite (Stat_blocked _ _ _ Hk Ha) in Hs. injection Hs as <-. discriminate.
    + fold r2. destruct (write_with cond data re (r2, w)) as [o [r' w2]] eqn:Hw.
      intros Hfin Hk Ha. pose proof (Hrec _ _ _ _ Hw _ Hfin) as Habs.
      rewrite Habs in *.
      change (PathAbs r1) with (PathAbs r2) in Hk.
      rewrite (write_with_blocked _ _ _ _ _ _ Hk Ha) in Hw. injection Hw as <- <- <-.
      cbn [finish] in Hfin. injection Hfin as _ <- <-. split; reflexivity.
Qed.

(** A target that is a directory, in a directory. *)
Lemma write_with_directory cond data re r w k :
  removes_files cond →
  resolve (PathAbs r) = Some k → Os.file_above (fs w) nil k = false →
  Os.lookup_node (fs w) k = Some Dir →
  Os.lookup_node (fs w) (removelast k) = Some Dir →
  write_with cond data re (r, w)
  = (Fail EISDIR, (r, mkWorld (fs w) (trace w ++ [EvCreate (PathAbs r)]))).
Proof.
  intros Hcond Hk Ha Hd Hp. unfold write_with, remove_if, create_write, Os.Create. cbn [fst snd].
  rewrite (Stat_found _ _ _ _ Hk Ha Hd).
  destruct (cond r _) eqn:Hc; [apply Hcond in Hc; discriminate|].
  rewrite Hk, Ha. destruct k as [|d k]; [reflexivity|].
  rewrite Hp. cbn [Os.lookup_node] in Hd. rewrite Hd. reflexivity.
Qed.

Lemma store_directory s param cond data re r0 w r err w' k :
  removes_files cond → PathAbs r0 = "" →
  finish (store s param (write_with cond data re) (r0, w)) = ((r, err), w') →
  resolve (PathAbs r) = Some k → Os.file_above (fs w) nil k = false →
  Os.lookup_node (fs w) k = Some Dir →
  Os.lookup_node (fs w) (removelast k) = Some Dir →
  err = Some EISDIR ∧ w' = mkWorld (fs w) (trace w ++ [EvCreate (PathAbs r)]).
Proof.
  intros Hcond H0. rewrite store_steps.
  destruct (locate s param (r0, w)) as [[dir|e] [r1 w0]] eqn:Hl;
    destruct (locate_frame _ _ _ _ _ _ _ Hl) as (-> & _ & _ & Hfail).
  2:{ cbn [finish]. intros [= <- _ _] Hk. rewrite (Hfail e eq_refl), resolve_empty in Hk.
      discriminate. }
  rewrite ensureDirectory_run.
  pose (r2 := set_PathUri (public_uri s param (PathUri r1)) r1).
  assert (Hrec : ∀ w1 o r' w2, write_with cond data re (r2, w1) = (o, (r', w2)) →
            ∀ x, finish (o, (r', w2)) = ((r, x), w') → PathAbs r = PathAbs r1).
  { intros w1 o r' w2 Hw x Hfin. apply write_with_record in Hw. cbn [fst] in Hw. subst r'.
    destruct o as [[]|e]; cbn [finish] in Hfin; injection Hfin as <- _ _; reflexivity. }
  destruct (Os.Stat (PathAbs r1) w) as [info|e0] eqn:Hs.
  - fold r2. destruct (write_with cond data re (r2, w)) as [o [r' w2]] eqn:Hw.
    intros Hfin Hk Ha Hd Hp. pose proof (Hrec _ _ _ _ Hw _ Hfin) as Habs.
    rewrite Habs in *. change (PathAbs r1) with (PathAbs r2) in Hk.
    rewrite (write_with_directory _ _ _ _ _ _ Hcond Hk Ha Hd Hp) in Hw. injection Hw as <- <- <-.
    cbn [finish] in Hfin. injection Hfin as _ <- <-. split; reflexivity.
  - assert (Hno : ∀ k, resolve (PathAbs r1) = Some k → Os.file_above (fs w) nil k = false →
              Os.lookup_node (fs w) k = Some Dir → False).
    { intros k' Hk Ha Hd. rewrite (Stat_found _ _ _ _ Hk Ha Hd) in Hs. discriminate. }
    destruct (Os.IsNotExist e0) eqn:Hne.
    + destruct (Os.MkdirAll dir w) as [[e|] w1] eqn:Hm.
      * cbn [finish]. intros [= <- _ _] Hk Ha Hd. exfalso. exact (Hno _ Hk Ha Hd).
      * fold r2. destruct (write_with cond data re (r2, w1)) as [o [r' w2]] eqn:Hw.
        intros Hfin Hk Ha Hd. rewrite (Hrec _ _ _ _ Hw _ Hfin) in Hk.
        exfalso. exact (Hno _ Hk Ha Hd).
    + fold r2. destruct (write_with cond data re (r2, w)) as [o [r' w2]] eqn:Hw.
      intros Hfin Hk Ha Hd. rewrite (Hrec _ _ _ _ Hw _ Hfin) in Hk.
      exfalso. exact (Hno _ Hk Ha Hd).
Qed.

End BlockedTargets.

(** X6.  When an entry above the target is a regular file, the upload
    fails with ENOTDIR: the code asks for the target, tries to create it,
    and leaves every entry of the file system as it was. *)
Theorem file_in_the_way `{Host} s param w r err w' k :
  (∃ file, multipartCopy s param file w = ((r, err), w'))
  ∨ (∃ content, base64Copy s param content w = ((r, err), w')) →
  resolve (PathAbs r) = Some k → Os.file_above (fs w) nil k = true →
  err = Some ENOTDIR ∧ fs w' = fs w ∧ trace w' = (trace w ++ [EvCreate (PathAbs r)])%list.
Proof.
  intros Hrun Hk Ha.
  destruct (copy_cases _ _ _ _ _ _ Hrun) as [[H0 _]|(cond & data & re & r0 & Hcond & H0 & Hst)].
  - rewrite H0, resolve_empty in Hk. discriminate.
  - destruct (store_blocked _ _ _ _ _ _ _ _ _ _ _ H0 Hst Hk Ha) as [-> ->].
    repeat split.
Qed.

(** X7.  When the target is a directory (in a directory), the upload fails
    with EISDIR; the directory is not removed and nothing is written. *)
Theorem directory_in_the_way `{Host} s param w r err w' k :
  (∃ file, multipartCopy s param file w = ((r, err), w'))
  ∨ (∃ content, base64Copy s param content w = ((r, err), w')) →
  resolve (PathAbs r) = Some k → Os.file_above (fs w) nil k = false →
  Os.lookup_node (fs w) k = Some Dir →
  Os.lookup_node (fs w) (removelast k) = Some Dir →
  err = Some EISDIR ∧ fs w' = fs w ∧ trace w' = (trace w ++ [EvCreate (PathAbs r)])%list.
Proof.
  intros Hrun Hk Ha Hd Hp.
  destruct (copy_cases _ _ _ _ _ _ Hrun) as [[H0 _]|(cond & data & re & r0 & Hcond & H0 & Hst)].
  - rewrite H0, resolve_empty in Hk. discriminate.
  - destruct (store_directory _ _ _ _ _ _ _ _ _ _ _ Hcond H0 Hst Hk Ha Hd Hp) as [-> ->].
    repeat split.
Qed.

Lemma file_in_the_way_witness :
  Some ENOTDIR = Some ENOTDIR
  ∧ fs (snd (multipartCopy (H := Demo.host) Demo.storage Demo.param Demo.upload
               Obstacles.below_file)) = fs Obstacles.below_file
  ∧ trace (snd (multipartCopy (H := Demo.host) Demo.storage Demo.param Demo.upload
                  Obstacles.below_file))
    = (trace Obstacles.below_file ++ [EvCreate (PathAbs Demo.record)])%list.
Proof.
  apply (file_in_the_way (H := Demo.host) Demo.storage Demo.param Obstacles.below_file
           Demo.record (Some ENOTDIR)
           (snd (multipartCopy (H := Demo.host) Demo.storage Demo.param Demo.upload
                   Obstacles.below_file))
           Obstacles.target).
  - left. exists Demo.upload. apply result_eta. vm_compute. reflexivity.
  - vm_compute. reflexivity.
  - vm_compute. reflexivity.
Defined.

Lemma directory_in_the_way_witness :
  Some EISDIR = Some EISDIR
  ∧ fs (snd (multipartCopy (H := Demo.host) Demo.storage Demo.param Demo.upload
               Obstacles.at_directory)) = fs Obstacles.at_directory
  ∧ trace (snd (multipartCopy (H := Demo.host) Demo.storage Demo.param Demo.upload
                  Obstacles.at_directory))
    = (trace Obstacles.at_directory ++ [EvCreate (PathAbs Demo.record)])%list.
Proof.
  apply (directory_in_the_way (H := Demo.host) Demo.storage Demo.param Obstacles.at_directory
           Demo.record (Some EISDIR)
           (snd (multipartCopy (H := Demo.host) Demo.storage Demo.param Demo.upload
                   Obstacles.at_directory))
           Obstacles.target).
  - left. exists Demo.upload. apply result_eta. vm_compute. reflexivity.
  - vm_compute. reflexivity.
  - vm_compute. reflexivity.
  - vm_compute. reflexivity.
  - vm_compute. reflexivity.
Defined.

(** ** What a stored upload leaves of the tree *)

(** [mkdirs] keeps every entry that is there. *)
Lemma mkdirs_keeps m done todo m' err (k : list string) n :
  Os.mkdirs m done todo = (m', err) → m !! k = Some n → m' !! k = Some n.
Proof.
  revert m done. induction todo as [|d todo IH]; intros m done Hm Hk; cbn in Hm.
  - injection Hm as <- _. exact Hk.
  - destruct (m !! (done ++ [d])%list) as [[]|] eqn:E.
    + injection Hm as <- _. exact Hk.
    + exact (IH _ _ Hm Hk).
    + apply (IH _ _ Hm). rewrite lookup_insert_ne; [exact Hk|]. congruence.
Qed.

Section StoreFrame.
Context `{Host}.

Lemma ensureDirectory_keeps dir r w o r' w' k n :
  ensureDirectory dir (r, w) = (o, (r', w')) →
  fs w !! k = Some n → fs w' !! k = Some n.
Proof.
  rewrite ensureDirectory_run.
  destruct (Os.Stat (PathAbs r) w) as [info|err]; [intros [= <- <- <-]; auto|].
  destruct (Os.IsNotExist err); [|intros [= <- <- <-]; auto].
  unfold Os.MkdirAll. destruct (resolve dir) as [kd|].
  - destruct (Os.mkdirs (fs w) nil kd) as [m e] eqn:Hm.
    destruct e; intros [= <- <- <-]; cbn [fs]; apply (mkdirs_keeps _ _ _ _ _ _ _ Hm).
  - intros [= <- <- <-]. auto.
Qed.

Lemma store_frame s param cond data re r0 w r w' :
  removes_files cond →
  store s param (write_with cond data re) (r0, w) = (Ok tt, (r, w')) →
  ∃ k, resolve (PathAbs r) = Some k
    ∧ fs w' !! k = Some (File data)
    ∧ (∀ k' d, k' ≠ k → fs w' !! k' = Some (File d) ↔ fs w !! k' = Some (File d))
    ∧ (∀ k', fs w !! k' = Some Dir → fs w' !! k' = Some Dir).
Proof.
  intros Hcond Hst.
  destruct (store_with_Ok _ _ _ _ _ _ _ _ _ Hcond Hst)
    as (dir & r1 & w1 & k & Hl & He & Hr & _ & Hk & Hne & Ha & Hp & Hd & Hf & Hrd).
  destruct (ensureDirectory_frame _ _ _ _ _ _ He) as (_ & Hfiles).
  exists k. split; [exact Hk|]. rewrite Hf. split; [apply lookup_insert_eq|]. split.
  - intros k' d Hk'. rewrite lookup_insert_ne by congruence. apply Hfiles.
  - intros k' Hdir. pose proof (ensureDirectory_keeps _ _ _ _ _ _ _ _ He Hdir) as Hdir1.
    rewrite lookup_insert_ne; [exact Hdir1|]. intros <-. congruence.
Qed.

End StoreFrame.

(** X8.  After a successful call the target holds exactly the bytes of the
    upload (of the decoded payload), whatever it held before; every other
    file of the tree is there as before, no file is added besides, and
    every directory of the tree is still there. *)
Theorem stored_file_and_frame `{Host} s param w r w' data :
  (∃ file src, multipartCopy s param file w = ((r, None), w')
     ∧ Multipart.Open file = Ok src ∧ data = IO.data (Multipart.reader src))
  ∨ (∃ content whole subtype payload, base64Copy s param content w = ((r, None), w')
       ∧ Regexp.FindAllSubmatch content = [[whole; subtype; payload]]
       ∧ Base64.DecodeString payload = (data, None)) →
  ∃ k, resolve (PathAbs r) = Some k
    ∧ fs w' !! k = Some (File data)
    ∧ (∀ k' d, k' ≠ k → fs w' !! k' = Some (File d) ↔ fs w !! k' = Some (File d))
    ∧ (∀ k', fs w !! k' = Some Dir → fs w' !! k' = Some Dir).
Proof.
  intros [(file & src & Hrun & Ho & ->)|(content & whole & subtype & payload & Hrun & Hm & Hd)].
  - apply multipartCopy_store in Hrun. destruct Hrun as (src' & Ho' & _ & _ & Hst).
    assert (src' = src) as -> by congruence.
    exact (store_frame _ _ _ _ _ _ _ _ _ multipart_cond_files Hst).
  - apply base64Copy_store in Hrun.
    destruct Hrun as (whole' & subtype' & payload' & ic & Hm' & Hd' & Hst).
    assert (ic = data) as -> by congruence.
    exact (store_frame _ _ _ _ _ _ _ _ _ base64_cond_files Hst).
Qed.

Lemma stored_file_and_frame_witness :
  ∃ k, resolve (Host := Demo.host) (PathAbs Demo.image_record) = Some k
    ∧ fs (snd demo_image_stored) !! k = Some (File "hello")
    ∧ (∀ k' d, k' ≠ k → fs (snd demo_image_stored) !! k' = Some (File d)
                        ↔ fs Demo.empty !! k' = Some (File d))
    ∧ (∀ k', fs Demo.empty !! k' = Some Dir → fs (snd demo_image_stored) !! k' = Some Dir).
Proof.
  apply (stored_file_and_frame (H := Demo.host) Demo.storage Demo.param Demo.empty
           Demo.image_record (snd demo_image_stored) "hello").
  right. exists Demo.image, Demo.image, "png", "aGVsbG8=".
  split; [apply result_eta; vm_compute; reflexivity|].
  split; reflexivity.
Defined.

(** ** The batches *)

Section Batches.
Context `{Host}.

Lemma multipartCopy_record s param file w r w' :
  multipartCopy s param file w = ((r, None), w') → record_of_upload file r.
Proof.
  intros Hrun. destruct (multipartCopy_stored _ _ _ _ _ _ Hrun) as (src & Ho & _ & Hrest).
  exists src. split; assumption.
Qed.

Lemma base64Copy_record s param content w r w' :
  base64Copy s param content w = ((r, None), w') → record_of_image content r.
Proof.
  intros Hrun.
  destruct (base64Copy_stored _ _ _ _ _ _ Hrun)
    as (whole & subtype & payload & ic & Hm & _ & _ & Hh & He & Hn & _).
  exists whole, subtype, payload. auto.
Qed.

Lemma MultipartCopy_loop_records s param files acc w rs w' :
  MultipartCopy_loop s param files acc w = ((rs, None), w') →
  ∃ new, rs = (acc ++ new)%list ∧ Forall2 record_of_upload (present files) new.
Proof.
  revert acc w. induction files as [|[file|] files IH]; intros acc w; cbn [MultipartCopy_loop present].
  - intros [= <- _]. exists nil. rewrite app_nil_r. split; [reflexivity | constructor].
  - destruct (multipartCopy s param file w) as [[tmp [e|]] w0] eqn:Hrun; [discriminate|].
    intros Hl. destruct (IH _ _ Hl) as (new & -> & Hnew).
    exists (tmp :: new). rewrite <- app_assoc. split; [reflexivity|].
    constructor; [exact (multipartCopy_record _ _ _ _ _ _ Hrun) | exact Hnew].
  - apply IH.
Qed.

Lemma Base64Copy_loop_records s param files acc w rs w' :
  Base64Copy_loop s param files acc w = ((rs, None), w') →
  ∃ new, rs = (acc ++ new)%list ∧ Forall2 record_of_image (present files) new.
Proof.
  revert acc w. induction files as [|[content|] files IH]; intros acc w; cbn [Base64Copy_loop present].
  - intros [= <- _]. exists nil. rewrite app_nil_r. split; [reflexivity | constructor].
  - destruct (base64Copy s param content w) as [[tmp [e|]] w0] eqn:Hrun; [discriminate|].
    intros Hl. destruct (IH _ _ Hl) as (new & -> & Hnew).
    exists (tmp :: new). rewrite <- app_assoc. split; [reflexivity|].
    constructor; [exact (base64Copy_record _ _ _ _ _ _ Hrun) | exact Hnew].
  - apply IH.
Qed.

(** The records collected so far are handed through. *)
Lemma MultipartCopy_loop_from s param files acc w :
  MultipartCopy_loop s param files acc w =
  let '((rs, err), w') := MultipartCopy_loop s param files nil w in ((acc ++ rs)%list, err, w').
Proof.
  revert acc w. induction files as [|[file|] files IH]; intros acc w; cbn [MultipartCopy_loop].
  - rewrite app_nil_r. reflexivity.
  - destruct (multipartCopy s param file w) as [[tmp [e|]] w0].
    + rewrite app_nil_r. reflexivity.
    + rewrite (IH (acc ++ [tmp])%list), (IH (nil ++ [tmp])%list).
      destruct (MultipartCopy_loop s param files nil w0) as [[rs err] w'].
      rewrite <- app_assoc. reflexivity.
  - apply IH.
Qed.

Lemma Base64Copy_loop_from s param files acc w :
  Base64Copy_loop s param files acc w =
  let '((rs, err), w') := Base64Copy_loop s param files nil w in ((acc ++ rs)%list, err, w').
Proof.
  revert acc w. induction files as [|[content|] files IH]; intros acc w; cbn [Base64Copy_loop].
  - rewrite app_nil_r. reflexivity.
  - destruct (base64Copy s param content w) as [[tmp [e|]] w0].
    + rewrite app_nil_r. reflexivity.
    + rewrite (IH (acc ++ [tmp])%list), (IH (nil ++ [tmp])%list).
      destruct (Base64Copy_loop s param files nil w0) as [[rs err] w'].
      rewrite <- app_assoc. reflexivity.
  - apply IH.
Qed.

End Batches.

(** X9.  A [MultipartCopy] that returns no error returns one record for
    every entry of the batch that is not nil, in the order of the batch;
    each record carries the digest of its upload's content, the extension
    of its file name, its size and its file name. *)
Theorem MultipartCopy_records_in_order `{Host} s param files w rs w' :
  MultipartCopy s param files w = ((rs, None), w') →
  Forall2 record_of_upload (present files) rs.
Proof.
  intros Hrun. destruct (MultipartCopy_loop_records _ _ _ _ _ _ _ Hrun) as (new & -> & Hnew).
  exact Hnew.
Qed.

(** X10.  A [Base64Copy] that returns no error returns one record for every
    entry that is not nil, in order; each record carries the digest of the
    whole text of its entry and the image type as extension. *)
Theorem Base64Copy_records_in_order `{Host} s param files w rs w' :
  Base64Copy s param files w = ((rs, None), w') →
  Forall2 record_of_image (present files) rs.
Proof.
  intros Hrun. destruct (Base64Copy_loop_records _ _ _ _ _ _ _ Hrun) as (new & -> & Hnew).
  exact Hnew.
Qed.

(** X11.  A batch over [pre ++ rest], when the part [pre] goes through, is
    the batch over [pre] followed by the batch over [rest] in the world that
    [pre] left, with the records of both in order. *)
Theorem batch_of_two_parts `{Host} s param w :
  (∀ pre rest rs1 w1,
     MultipartCopy s param pre w = ((rs1, None), w1) →
     MultipartCopy s param (pre ++ rest) w
     = let '((rs2, err), w2) := MultipartCopy s param rest w1 in ((rs1 ++ rs2)%list, err, w2))
  ∧ (∀ pre rest rs1 w1,
       Base64Copy s param pre w = ((rs1, None), w1) →
       Base64Copy s param (pre ++ rest) w
       = let '((rs2, err), w2) := Base64Copy s param rest w1 in ((rs1 ++ rs2)%list, err, w2)).
Proof.
  split; intros pre rest rs1 w1 Hpre.
  - unfold MultipartCopy in *. rewrite (MultipartCopy_loop_app _ _ _ _ _ _ _ _ Hpre).
    apply MultipartCopy_loop_from.
  - unfold Base64Copy in *. rewrite (Base64Copy_loop_app _ _ _ _ _ _ _ _ Hpre).
    apply Base64Copy_loop_from.
Qed.

Lemma MultipartCopy_records_in_order_witness :
  Forall2 record_of_upload (present [None; Some Demo.upload; None]) [Demo.record].
Proof.
  apply (MultipartCopy_records_in_order (H := Demo.host) Demo.storage Demo.param
           [None; Some Demo.upload; None] Demo.empty [Demo.record]
           (snd (MultipartCopy (H := Demo.host) Demo.storage Demo.param
                   [None; Some Demo.upload; None] Demo.empty))).
  apply result_eta. vm_compute. reflexivity.
Defined.

Lemma Base64Copy_records_in_order_witness :
  Forall2 record_of_image (present [Some Demo.image; None]) [Demo.image_record].
Proof.
  apply (Base64Copy_records_in_order (H := Demo.host) Demo.storage Demo.param
           [Some Demo.image; None] Demo.empty [Demo.image_record]
           (snd (Base64Copy (H := Demo.host) Demo.storage Demo.param
                   [Some Demo.image; None] Demo.empty))).
  apply result_eta. vm_compute. reflexivity.
Defined.

Lemma batch_of_two_parts_witness :
  Base64Copy (H := Demo.host) Demo.storage Demo.param
    ([Some Demo.image] ++ [Some "hello world"]) Demo.empty
  = let '((rs2, err), w2) :=
      Base64Copy (H := Demo.host) Demo.storage Demo.param [Some "hello world"]
        (snd (Base64Copy (H := Demo.host) Demo.storage Demo.param [Some Demo.image] Demo.empty)) in
    (([Demo.image_record] ++ rs2)%list, err, w2).
Proof.
  apply (proj2 (batch_of_two_parts (H := Demo.host) Demo.storage Demo.param Demo.empty)
           [Some Demo.image] [Some "hello world"] [Demo.image_record]
           (snd (Base64Copy (H := Demo.host) Demo.storage Demo.param [Some Demo.image] Demo.empty))).
  apply result_eta. vm_compute. reflexivity.
Defined.

(** ** [Echo] *)

(** X12.  When the single field is asked for and its file is missing or
    cannot be stored, [Echo] returns that error and no record; the form of
    the multiple field is not obtained, so none of its files is stored and
    [RemoveAll] does not run. *)
Theorem Echo_single_failure `{Host} s c param name w e w1 :
  Single name ≠ "" →
  (Http.FormFile c (Single name) = Fail e ∧ w1 = w)
  ∨ (∃ file r, Http.FormFile c (Single name) = Ok file
       ∧ multipartCopy s param file w = ((r, Some e), w1)) →
  Echo s c param (Some name) w = ((nil, Some e), w1).
Proof.
  intros Hne Hfail. unfold Echo.
  destruct (Single name) as [|a sn]; [congruence|]. cbn [nonempty].
  destruct Hfail as [[-> ->]|(file & r & -> & ->)]; reflexivity.
Qed.

Lemma Echo_single_failure_witness :
  Echo (H := Demo.host) Demo.storage Request.no_file Demo.param (Some Request.names) Demo.empty
  = ((nil, Some (ErrFile "http: no such file")), Demo.empty).
Proof.
  apply (Echo_single_failure (H := Demo.host) Demo.storage Request.no_file Demo.param
           Request.names Demo.empty (ErrFile "http: no such file") Demo.empty).
  - discriminate.
  - left. split; reflexivity.
Defined.

(** X13.  When the batch of the multiple field stops at an error, [Echo]
    returns the error with the record of the single field only: the records
    of the files the batch had stored are dropped, and [RemoveAll] has run. *)
Theorem Echo_batch_failure `{Host} s c param name w first w1 form rs e w2 :
  (Single name = "" ∧ first = nil ∧ w1 = w)
  ∨ (Single name ≠ "" ∧ ∃ file r, Http.FormFile c (Single name) = Ok file
       ∧ multipartCopy s param file w = ((r, None), w1) ∧ first = [r]) →
  Multiple name ≠ "" → Http.MultipartForm c = Ok form →
  MultipartCopy s param (default nil (Http.File form !! Multiple name)) w1
  = ((rs, Some e), w2) →
  Echo s c param (Some name) w = ((first, Some e), Http.RemoveAll form w2).
Proof.
  intros Hsingle Hne Hform Hbatch. unfold Echo.
  assert (Hm : nonempty (Multiple name) = true) by (destruct (Multiple name); [congruence | reflexivity]).
  destruct Hsingle as [(-> & -> & ->)|(Hs & file & r & Hf & Hrun & ->)].
  - cbn [nonempty]. rewrite Hm, Hform. cbv zeta. rewrite Hbatch. reflexivity.
  - destruct (Single name) as [|a sn] eqn:E; [congruence|]. cbn [nonempty].
    rewrite Hf, Hrun, Hm, Hform. cbv zeta. rewrite Hbatch. reflexivity.
Qed.

Lemma Echo_batch_failure_witness :
  Echo (H := Demo.host) Demo.storage (Request.context Request.broken) Demo.param
    (Some Request.names) Demo.empty
  = (([Demo.record], Some (ErrFile "open")),
     Http.RemoveAll (Request.form Request.broken)
       (snd (MultipartCopy (H := Demo.host) Demo.storage Demo.param
               (default nil (Http.File (Request.form Request.broken) !! Multiple Request.names))
               (snd demo_stored)))).
Proof.
  apply (Echo_batch_failure (H := Demo.host) Demo.storage (Request.context Request.broken)
           Demo.param Request.names Demo.empty [Demo.record] (snd demo_stored)
           (Request.form Request.broken) [Demo.record] (ErrFile "open")).
  - right. split; [discriminate|]. exists Demo.upload, Demo.record.
    split; [reflexivity|]. split; [|reflexivity]. apply result_eta. vm_compute. reflexivity.
  - discriminate.
  - reflexivity.
  - apply result_eta. vm_compute. reflexivity.
Defined.

(** X14.  An [Echo] that returns no error returns one record for every
    upload of the request, the file of the single field first and then the
    files of the multiple field in the order of the form. *)
Theorem Echo_records_in_order `{Host} s c param name w rs w' :
  Echo s c param (Some name) w = ((rs, None), w') →
  Forall2 record_of_upload (uploads_of c name) rs.
Proof.
  unfold Echo, uploads_of.
  destruct (nonempty (Single name)).
  - destruct (Http.FormFile c (Single name)) as [file|e]; [|discriminate].
    destruct (multipartCopy s param file w) as [[tmp [e|]] w1] eqn:Hrun; [discriminate|].
    pose proof (multipartCopy_record _ _ _ _ _ _ Hrun) as Hfirst.
    destruct (nonempty (Multiple name)).
    + destruct (Http.MultipartForm c) as [form|e]; [|discriminate]. cbv zeta.
      destruct (MultipartCopy s param _ w1) as [[tmp2 [e|]] w2] eqn:Hb; [discriminate|].
      intros [= <- _]. constructor; [exact Hfirst|].
      destruct (MultipartCopy_loop_records _ _ _ nil _ _ _ Hb) as (new & -> & Hn). exact Hn.
    + intros [= <- _]. repeat constructor. exact Hfirst.
  - cbn [app]. destruct (nonempty (Multiple name)).
    + destruct (Http.MultipartForm c) as [form|e]; [|discriminate]. cbv zeta.
      destruct (MultipartCopy s param _ w) as [[tmp2 [e|]] w2] eqn:Hb; [discriminate|].
      intros [= <- _].
      destruct (MultipartCopy_loop_records _ _ _ nil _ _ _ Hb) as (new & -> & Hn). exact Hn.
    + intros [= <- _]. constructor.
Qed.

Lemma Echo_records_in_order_witness :
  Forall2 record_of_upload (uploads_of (Request.context Demo.upload) Request.names)
    [Demo.record; Demo.record; Demo.record].
Proof.
  apply (Echo_records_in_order (H := Demo.host) Demo.storage (Request.context Demo.upload)
           Demo.param Request.names Demo.empty [Demo.record; Demo.record; Demo.record]
           (snd (Echo (H := Demo.host) Demo.storage (Request.context Demo.upload) Demo.param
                   (Some Request.names) Demo.empty))).
  apply result_eta. vm_compute. reflexivity.
Defined.

(** ** The handlers *)

Lemma fold_alter_seq {A : Type} (f : A → A) (pre l : list A) :
  fold_left (fun st i => alter f i st) (seq (List.length pre) (List.length l)) (pre ++ l)%list
  = (pre ++ map f l)%list.
Proof.
  revert pre. induction l as [|x l IH]; intros pre; [reflexivity|].
  cbn [List.length seq fold_left map].
  replace (alter f (List.length pre) (pre ++ x :: l)%list) with ((pre ++ [f x]) ++ l)%list.
  - specialize (IH (pre ++ [f x])%list). rewrite length_app in IH. cbn [List.length] in IH.
    rewrite Nat.add_1_r in IH. rewrite IH, <- app_assoc. reflexivity.
  - rewrite <- app_assoc. cbn [app].
    rewrite <- (Nat.add_0_r (List.length pre)) at 1.
    rewrite (alter_app_r f pre (x :: l) 0). reflexivity.
Qed.

(** Calling the closure of the handlers on every pointer of the result. *)
Lemma IterateResult_blank result :
  IterateResult (seq 0 (List.length result)) Main.blank result = map without_paths result.
Proof. exact (fold_alter_seq without_paths nil result). Qed.

Lemma respond_run result err :
  Main.respond result err
  = match err with
    | Some e => TextResponse 500 e
    | None => JSONResponse 200 (map without_paths result)
    end.
Proof. destruct err; [reflexivity|]. unfold Main.respond. rewrite IterateResult_blank. reflexivity. Qed.

(** X15.  The upload handler answers an error of [Echo] with status 500 and
    the error alone, and a success with status 200 and the records of
    [Echo], in order, each with [PathAbs] and [PathRlt] emptied and every
    other field as stored. *)
Theorem upload_answer `{Host} c now sd w rs err w' :
  Echo Main.s c (Main.fs now sd) (Some Main.mfn) w = ((rs, err), w') →
  Main.upload c now sd w
  = (match err with
     | Some e => TextResponse 500 e
     | None => JSONResponse 200 (map without_paths rs)
     end, w').
Proof. intros Hrun. unfold Main.upload. rewrite Hrun, respond_run. reflexivity. Qed.

(** X16.  The base64 handler answers a body that cannot be bound with
    status 500 without touching the storage; otherwise every string of the
    body is an entry of the batch (none is nil), an error of the batch is
    answered with status 500 and the error alone, and a success with status
    200 and the records with [PathAbs] and [PathRlt] emptied. *)
Theorem upload_base64_answer `{Host} bind now sd w :
  match bind with
  | Fail e => Main.upload_base64 bind now sd w = (TextResponse 500 e, w)
  | Ok s64 =>
      ∀ rs err w',
        Base64Copy Main.s (Main.fs now sd) (map Some s64) w = ((rs, err), w') →
        present (map Some s64) = s64
        ∧ Main.upload_base64 bind now sd w
          = (match err with
             | Some e => TextResponse 500 e
             | None => JSONResponse 200 (map without_paths rs)
             end, w')
  end.
Proof.
  destruct bind as [s64|e]; [|reflexivity].
  intros rs err w' Hrun. split.
  - clear. induction s64 as [|x l IH]; [reflexivity|]. cbn [map present]. rewrite IH. reflexivity.
  - unfold Main.upload_base64. cbv zeta. rewrite Hrun, respond_run. reflexivity.
Qed.

(** ** The date as path elements *)

Lemma digit_is_digit d : 0 ≤ d < 10 → is_digit (Fmt.digit d) = true.
Proof.
  intros Hd.
  assert (d = 0 ∨ d = 1 ∨ d = 2 ∨ d = 3 ∨ d = 4 ∨ d = 5 ∨ d = 6 ∨ d = 7 ∨ d = 8 ∨ d = 9)
    as Hcases by lia.
  repeat (destruct Hcases as [->|Hcases]; [reflexivity|]). subst d. reflexivity.
Qed.

Lemma decimal_digits n v : all_bytes is_digit (decimal n v) = true.
Proof.
  revert v. induction n as [|n IH]; intros v; [reflexivity|].
  cbn [decimal]. rewrite all_bytes_app, IH. cbn [all_bytes andb].
  rewrite digit_is_digit; [reflexivity|]. apply Z.mod_pos_bound. lia.
Qed.

(** A numeral is a plain path element. *)
Lemma plain_digits s :
  s ≠ "" → all_bytes is_digit s = true → plain (Bytes.to_list s) = true.
Proof.
  intros Hne Hs.
  assert (Hns : forallb (fun c => negb (Ascii.eqb c Path.slash)) (Bytes.to_list s) = true).
  { rewrite <- (all_bytes_forallb (fun c => negb (Ascii.eqb c Path.slash))).
    apply (all_bytes_impl is_digit); [|exact Hs]. intros c.
    destruct c as [[] [] [] [] [] [] [] []]; try reflexivity; discriminate. }
  rewrite all_bytes_forallb in Hs.
  unfold plain. destruct (Bytes.to_list s) as [|a l] eqn:E.
  { destruct s; [congruence | discriminate]. }
  rewrite Hns. cbn [andb]. cbn [forallb] in Hs. apply andb_true_iff in Hs. destruct Hs as [Ha Hl].
  assert (Hd : a ≠ Path.dot) by (intros ->; discriminate).
  rewrite !bool_decide_eq_false_2 by congruence. reflexivity.
Qed.

Lemma decimal_plain n v : plain (Bytes.to_list (decimal (S n) v)) = true.
Proof.
  apply plain_digits; [|apply decimal_digits].
  intros Heq. apply (f_equal String.length) in Heq. rewrite decimal_length in Heq. discriminate.
Qed.

Lemma date_elements_plain now : plains (date_elements now).
Proof. repeat constructor; apply decimal_plain. Qed.

Lemma path_of_date now :
  path_of (date_elements now)
  = decimal 4 (Time.Year now) ++ "/" ++ decimal 2 (Time.Month now)
    ++ "/" ++ decimal 2 (Time.Day now).
Proof.
  unfold path_of, date_elements. cbn [join_elements].
  rewrite !of_list_app. cbn [Bytes.of_list]. rewrite !of_list_app. cbn [Bytes.of_list].
  rewrite !of_to_list. reflexivity.
Qed.

(** [Join] of a first element that is not empty and three more. *)
Lemma Join_four a b c d :
  a ≠ "" →
  Path.Join [a; b; c; d]
  = Path.Clean (a ++ String Path.slash (b ++ String Path.slash (c ++ String Path.slash d))).
Proof.
  intros Ha. destruct a as [|x a]; [congruence|].
  unfold Path.Join. cbn [fold_left String.length Nat.add Nat.eqb Path.join_buf].
  rewrite !append_assoc. reflexivity.
Qed.

Lemma Join_three_after_empty b c d :
  b ≠ "" →
  Path.Join [""; b; c; d] = Path.Clean (b ++ String Path.slash (c ++ String Path.slash d)).
Proof.
  intros Hb. destruct b as [|x b]; [congruence|].
  unfold Path.Join. cbn [fold_left String.length Nat.add Nat.eqb Path.join_buf].
  rewrite !append_assoc. reflexivity.
Qed.

Lemma SubDirectoryDate_paths now abs bs :
  plains bs →
  0 ≤ Time.Year now ≤ 9999 → 1 ≤ Time.Month now ≤ 12 → 1 ≤ Time.Day now ≤ 31 →
  SubDirectoryDate now (path_from abs bs) = path_from abs (bs ++ date_elements now).
Proof.
  intros Hbs Hy Hm Hd. unfold SubDirectoryDate.
  rewrite Sprintf_04d by exact Hy. rewrite !Sprintf_02d by lia.
  pose proof (date_elements_plain now) as Hdate.
  pose proof (path_of_date now) as Hpd.
  change ("/" ++ decimal 2 (Time.Month now) ++ "/" ++ decimal 2 (Time.Day now))
    with (String Path.slash (decimal 2 (Time.Month now)
                              ++ String Path.slash (decimal 2 (Time.Day now)))) in Hpd.
  destruct abs; unfold path_from.
  - rewrite Join_four by discriminate. rewrite <- Hpd.
    rewrite append_assoc.
    rewrite <- (path_of_els bs).
    rewrite <- path_of_app by (try apply els_nonempty; discriminate).
    rewrite Clean_absolute
      by (apply Forall_app; split; [apply els_element | apply plain_element]; assumption).
    rewrite solid_app, solid_els, solid_id by assumption. reflexivity.
  - destruct Hbs as [|b bs Hb Hbs].
    + change (path_of []) with "". rewrite Join_three_after_empty.
      * rewrite <- Hpd. unfold date_elements at 1.
        rewrite Clean_relative;
          [| apply decimal_plain | apply plain_element; repeat constructor; apply decimal_plain].
        rewrite solid_id by (repeat constructor; apply decimal_plain). reflexivity.
      * intros Heq. apply (f_equal String.length) in Heq. rewrite decimal_length in Heq. discriminate.
    + rewrite Join_four by (apply path_of_nonempty; exact Hb). rewrite <- Hpd.
      rewrite <- path_of_app by discriminate.
      change ((b :: bs) ++ date_elements now)%list with (b :: (bs ++ date_elements now))%list.
      rewrite Clean_relative;
        [| exact Hb | apply plain_element, Forall_app; split; assumption].
      rewrite solid_id by (apply Forall_app; split; assumption). reflexivity.
Qed.

(** X17.  For a clean base path (absolute, relative or empty) and a date
    with a year of at most four digits, [SubDirectoryDate] returns the base
    path with the three elements year, month and day after it; for the empty
    base path that is [yyyy/mm/dd], without a slash in front. *)
Theorem SubDirectoryDate_appends_date now abs bs :
  Forall (fun e => plain e = true) bs →
  0 ≤ Time.Year now ≤ 9999 → 1 ≤ Time.Month now ≤ 12 → 1 ≤ Time.Day now ≤ 31 →
  SubDirectoryDate now (path_from abs bs) = path_from abs (bs ++ date_elements now)
  ∧ (bs ≠ nil →
     SubDirectoryDate now (path_from abs bs)
     = path_from abs bs ++ "/" ++ decimal 4 (Time.Year now) ++ "/"
       ++ decimal 2 (Time.Month now) ++ "/" ++ decimal 2 (Time.Day now))
  ∧ SubDirectoryDate now ""
    = decimal 4 (Time.Year now) ++ "/" ++ decimal 2 (Time.Month now)
      ++ "/" ++ decimal 2 (Time.Day now).
Proof.
  intros Hbs Hy Hm Hd. split; [|split].
  - apply SubDirectoryDate_paths; assumption.
  - intros Hne. rewrite SubDirectoryDate_paths by assumption.
    rewrite <- path_of_date. destruct abs; unfold path_from.
    + rewrite path_of_app by (assumption || discriminate). rewrite append_assoc. reflexivity.
    + apply path_of_app; [assumption | discriminate].
  - rewrite <- path_of_date.
    exact (SubDirectoryDate_paths now false nil (Forall_nil_2 _) Hy Hm Hd).
Qed.

Lemma SubDirectoryDate_appends_date_witness :
  SubDirectoryDate {| Time.Year := 2024; Time.Month := 1; Time.Day := 5 |}
    (path_from false [Bytes.to_list "project1"; Bytes.to_list "default"])
  = path_from false ([Bytes.to_list "project1"; Bytes.to_list "default"]
                      ++ date_elements {| Time.Year := 2024; Time.Month := 1; Time.Day := 5 |})
  ∧ ([Bytes.to_list "project1"; Bytes.to_list "default"] ≠ nil →
     SubDirectoryDate {| Time.Year := 2024; Time.Month := 1; Time.Day := 5 |}
       (path_from false [Bytes.to_list "project1"; Bytes.to_list "default"])
     = path_from false [Bytes.to_list "project1"; Bytes.to_list "default"]
       ++ "/" ++ decimal 4 2024 ++ "/" ++ decimal 2 1 ++ "/" ++ decimal 2 5)
  ∧ SubDirectoryDate {| Time.Year := 2024; Time.Month := 1; Time.Day := 5 |} ""
    = decimal 4 2024 ++ "/" ++ decimal 2 1 ++ "/" ++ decimal 2 5.
Proof.
  apply (SubDirectoryDate_appends_date {| Time.Year := 2024; Time.Month := 1; Time.Day := 5 |}
           false [Bytes.to_list "project1"; Bytes.to_list "default"]).
  - repeat constructor.
  - cbn. lia.
  - cbn. lia.
  - cbn. lia.
Defined.

(** ** What the client is told *)

Section ServedRecords.
Context `{Host}.

Lemma MultipartCopy_loop_stored s param files acc w rs w' :
  MultipartCopy_loop s param files acc w = ((rs, None), w') →
  Forall (stored_by s param) acc → Forall (stored_by s param) rs.
Proof.
  revert acc w. induction files as [|[file|] files IH]; intros acc w; cbn [MultipartCopy_loop].
  - intros [= <- _]. auto.
  - destruct (multipartCopy s param file w) as [[tmp [e|]] w0] eqn:Hrun; [discriminate|].
    intros Hl Hacc. apply (IH _ _ Hl). apply Forall_app. split; [exact Hacc|].
    repeat constructor. exists w, w0. left. eauto.
  - apply IH.
Qed.

Lemma Base64Copy_loop_stored s param files acc w rs w' :
  Base64Copy_loop s param files acc w = ((rs, None), w') →
  Forall (stored_by s param) acc → Forall (stored_by s param) rs.
Proof.
  revert acc w. induction files as [|[content|] files IH]; intros acc w; cbn [Base64Copy_loop].
  - intros [= <- _]. auto.
  - destruct (base64Copy s param content w) as [[tmp [e|]] w0] eqn:Hrun; [discriminate|].
    intros Hl Hacc. apply (IH _ _ Hl). apply Forall_app. split; [exact Hacc|].
    repeat constructor. exists w, w0. right. eauto.
  - apply IH.
Qed.

Lemma Echo_stored s c param name w rs w' :
  Echo s c param name w = ((rs, None), w') → Forall (stored_by s param) rs.
Proof.
  unfold Echo. destruct name as [name|]; [|intros [= <- _]; constructor].
  destruct (nonempty (Single name)).
  - destruct (Http.FormFile c (Single name)) as [file|e]; [|discriminate].
    destruct (multipartCopy s param file w) as [[tmp [e|]] w1] eqn:Hrun; [discriminate|].
    assert (Hfirst : Forall (stored_by s param) [tmp]).
    { repeat constructor. exists w, w1. left. eauto. }
    destruct (nonempty (Multiple name)).
    + destruct (Http.MultipartForm c) as [form|e]; [|discriminate]. cbv zeta.
      destruct (MultipartCopy s param _ w1) as [[tmp2 [e|]] w2] eqn:Hb; [discriminate|].
      intros [= <- _]. apply (Forall_app _ [tmp] tmp2). split; [exact Hfirst|].
      exact (MultipartCopy_loop_stored _ _ _ _ _ _ _ Hb (Forall_nil_2 _)).
    + intros [= <- _]. exact Hfirst.
  - destruct (nonempty (Multiple name)).
    + destruct (Http.MultipartForm c) as [form|e]; [|discriminate]. cbv zeta.
      destruct (MultipartCopy s param _ w) as [[tmp2 [e|]] w2] eqn:Hb; [discriminate|].
      intros [= <- _]. exact (MultipartCopy_loop_stored _ _ _ _ _ _ _ Hb (Forall_nil_2 _)).
    + intros [= <- _]. constructor.
Qed.

End ServedRecords.

(** The sub-directory that the closure [fs] computes from a clean header. *)
Lemma fs_sub_directory now hs :
  plains hs →
  0 ≤ Time.Year now ≤ 9999 → 1 ≤ Time.Month now ≤ 12 → 1 ≤ Time.Day now ≤ 31 →
  StorageSubDirectory (Main.fs now (path_of hs)) = path_of (request_elements now hs).
Proof.
  intros Hhs Hy Hm Hd. unfold Main.fs, request_elements. cbn [StorageSubDirectory].
  rewrite nonempty_path_of by exact Hhs.
  set (sub := if is_empty hs then [Bytes.to_list "default"] else hs).
  assert (Hsub : plains sub) by (unfold sub; destruct hs; [repeat constructor | exact Hhs]).
  assert (Hname : (if negb (is_empty hs) then path_of hs else "default") = path_of sub)
    by (unfold sub; destruct hs; reflexivity).
  rewrite Hname.
  change "project1" with (path_from false [Bytes.to_list "project1"]).
  rewrite (Join_paths false [Bytes.to_list "project1"] sub); [| repeat constructor | exact Hsub].
  rewrite (SubDirectoryDate_paths now false);
    [| constructor; [reflexivity | exact Hsub] | assumption | assumption | assumption].
  unfold path_from. rewrite <- app_assoc. reflexivity.
Qed.

(** X18.  On a Unix host, for a request whose header [SubDirectory] is a
    clean relative path [hs] (or empty, which stands for [default]) and a
    date with a year of at most four digits, every record that the upload
    handler or the base64 handler answers has the public path
    [/resource/static/project1/hs/yyyy/mm/dd/name], and empty [PathAbs] and
    [PathRlt]. *)
Theorem served_public_paths cwd now hs w code body w' :
  Forall (fun e => plain e = true) hs →
  0 ≤ Time.Year now ≤ 9999 → 1 ≤ Time.Month now ≤ 12 → 1 ≤ Time.Day now ≤ 31 →
  (∃ c, Main.upload (H := Unix.host cwd) c now (path_of hs) w = (JSONResponse code body, w'))
  ∨ (∃ bind, Main.upload_base64 (H := Unix.host cwd) bind now (path_of hs) w
             = (JSONResponse code body, w')) →
  code = 200
  ∧ Forall (fun b =>
      PathAbs b = "" ∧ PathRlt b = ""
      ∧ PathUri b = "/" ++ path_of ([Bytes.to_list "resource"; Bytes.to_list "static"]
                                     ++ request_elements now hs ++ [Bytes.to_list (Name b)])) body.
Proof.
  intros Hhs Hy Hm Hd Hrun.
  assert (Hrs : ∃ rs, Forall (stored_by (H := Unix.host cwd) Main.s (Main.fs now (path_of hs))) rs
                      ∧ code = 200 ∧ body = map without_paths rs).
  { destruct Hrun as [(c & Hrun)|(bind & Hrun)].
    - unfold Main.upload in Hrun.
      destruct (Echo Main.s c _ _ w) as [[rs [e|]] w1] eqn:He; rewrite respond_run in Hrun;
        [discriminate|].
      injection Hrun as <- <- _. exists rs. split; [|split; reflexivity].
      exact (Echo_stored (H := Unix.host cwd) _ _ _ _ _ _ _ He).
    - unfold Main.upload_base64 in Hrun. destruct bind as [s64|e]; [|discriminate].
      cbv zeta in Hrun.
      destruct (Base64Copy Main.s _ _ w) as [[rs [e|]] w1] eqn:Hb; rewrite respond_run in Hrun;
        [discriminate|].
      injection Hrun as <- <- _. exists rs. split; [|split; reflexivity].
      exact (Base64Copy_loop_stored (H := Unix.host cwd) _ _ _ _ _ _ _ Hb (Forall_nil_2 _)). }
  destruct Hrs as (rs & Hst & -> & ->). split; [reflexivity|].
  apply Forall_map. eapply Forall_impl; [exact Hst|].
  intros r (w0 & w1 & Hr). cbn beta.
  split; [reflexivity|]. split; [reflexivity|].
  destruct (unix_paths cwd nil Main.s (Main.fs now (path_of hs)) true
              [Bytes.to_list "var"; Bytes.to_list "files"; Bytes.to_list "uploads"]
              (request_elements now hs) true
              [Bytes.to_list "resource"; Bytes.to_list "static"] w0 r w1) as (_ & _ & Hu).
  - discriminate.
  - reflexivity.
  - apply fs_sub_directory; assumption.
  - reflexivity.
  - repeat constructor.
  - unfold request_elements. repeat (apply Forall_app; split).
    + repeat constructor.
    + destruct hs; [repeat constructor | exact Hhs].
    + apply date_elements_plain.
  - repeat constructor.
  - exact Hr.
  - exact Hu.
Qed.

Lemma upload_answer_witness :
  Main.upload (H := Demo.host) (Request.context Request.broken) Served.now "" Demo.empty
  = (match Some (ErrFile "open") with
     | Some e => TextResponse 500 e
     | None => JSONResponse 200 (map without_paths [Served.stored])
     end,
     snd (Echo (H := Demo.host) Main.s (Request.context Request.broken)
            (Main.fs Served.now "") (Some Main.mfn) Demo.empty)).
Proof.
  apply (upload_answer (H := Demo.host) (Request.context Request.broken) Served.now ""
           Demo.empty [Served.stored] (Some (ErrFile "open"))).
  apply result_eta. vm_compute. reflexivity.
Defined.

Lemma served_public_paths_witness :
  200 = 200
  ∧ Forall (fun b =>
      PathAbs b = "" ∧ PathRlt b = ""
      ∧ PathUri b = "/" ++ path_of ([Bytes.to_list "resource"; Bytes.to_list "static"]
                                     ++ request_elements Served.now [Bytes.to_list "album"]
                                     ++ [Bytes.to_list (Name b)])) [Served.image].
Proof.
  apply (served_public_paths "/srv/app" Served.now [Bytes.to_list "album"] Demo.empty
           200 [Served.image]
           (snd (Main.upload_base64 (H := Unix.host "/srv/app") (Ok [Demo.image]) Served.now
                   (path_of [Bytes.to_list "album"]) Demo.empty))).
  - repeat constructor.
  - cbn. lia.
  - cbn. lia.
  - cbn. lia.
  - right. exists (Ok [Demo.image]). apply result_eta. vm_compute. reflexivity.
Defined.

(** ** The options of [NewStorage] *)

Lemma NewStorage_app before after :
  NewStorage (before ++ after) = fold_left (fun s opt => opt s) after (NewStorage before).
Proof. unfold NewStorage. apply fold_left_app. Qed.

(** X19.  [NewStorage] applies the options in order: the storage directory
    is that of the last [WithStorageDirectory], whatever options come before
    it and whatever [WithUriAccessPrefix] options come after it; likewise
    for the prefix; without options both are empty. *)
Theorem NewStorage_last_option_wins :
  (∀ before after d,
     Forall (fun o => ∃ p, o = WithUriAccessPrefix p) after →
     storageDirectory (NewStorage (before ++ WithStorageDirectory d :: after)) = d)
  ∧ (∀ before after p,
       Forall (fun o => ∃ d, o = WithStorageDirectory d) after →
       uriAccessPrefix (NewStorage (before ++ WithUriAccessPrefix p :: after)) = p)
  ∧ NewStorage nil = {| storageDirectory := ""; uriAccessPrefix := "" |}.
Proof.
  split; [|split; [|reflexivity]].
  - intros before after d Hafter. rewrite NewStorage_app. cbn [fold_left].
    generalize (NewStorage before). intros s0.
    assert (Hd : storageDirectory (WithStorageDirectory d s0) = d) by reflexivity.
    revert Hd. generalize (WithStorageDirectory d s0). clear s0.
    induction Hafter as [|o after (p & ->) _ IH]; intros s0 Hd; [exact Hd|].
    cbn [fold_left]. apply IH. exact Hd.
  - intros before after p Hafter. rewrite NewStorage_app. cbn [fold_left].
    generalize (NewStorage before). intros s0.
    assert (Hp : uriAccessPrefix (WithUriAccessPrefix p s0) = p) by reflexivity.
    revert Hp. generalize (WithUriAccessPrefix p s0). clear s0.
    induction Hafter as [|o after (d & ->) _ IH]; intros s0 Hp; [exact Hp|].
    cbn [fold_left]. apply IH. exact Hp.
Qed.

(** ** A payload of more than one line *)

(** X20.  The second group of the expression stops at a line feed: of a
    text [data:image/<type>;base64,<payload>], with a line feed and anything
    after the payload, a successful [base64Copy] decodes and stores the
    payload before the line feed only, while the digest that names the file
    is that of the whole text. *)
Theorem base64Copy_stores_first_line `{Host} s param space subtype payload rest w r w' :
  all_bytes Regexp.is_space space = true →
  subtype ≠ "" → all_bytes Regexp.is_word subtype = true →
  all_bytes Regexp.not_newline payload = true →
  base64Copy s param
    ("data:" ++ space ++ "image/" ++ subtype ++ ";base64," ++ payload ++ String Base64.LF rest) w
  = ((r, None), w') →
  ∃ decoded, Base64.DecodeString payload = (decoded, None)
    ∧ Os.ReadFile (PathAbs r) w' = Some decoded
    ∧ Hash r = Hex.EncodeToString (Sha256.Sum256
        ("data:" ++ space ++ "image/" ++ subtype ++ ";base64," ++ payload ++ String Base64.LF rest)).
Proof.
  intros Hsp Hne Hw Hp Hrun.
  destruct (base64Copy_stored _ _ _ _ _ _ Hrun)
    as (whole & subtype' & payload' & ic & Hm & Hd & Hrd & Hh & _).
  rewrite (FindAllSubmatch_pattern space subtype payload (String Base64.LF rest) Hsp Hne Hw Hp)
    in Hm by (right; eauto).
  injection Hm as _ _ <-. exists ic. auto.
Qed.

Lemma base64Copy_stores_first_line_witness :
  ∃ decoded, Base64.DecodeString "aGVsbG8=" = (decoded, None)
    ∧ Os.ReadFile (H := Demo.host) (PathAbs Wrapped.record)
        (snd (base64Copy (H := Demo.host) Demo.storage Demo.param Wrapped.image Demo.empty))
      = Some decoded
    ∧ Hash Wrapped.record = Hex.EncodeToString (Sha256.Sum256
        ("data:" ++ "" ++ "image/" ++ "png" ++ ";base64," ++ "aGVsbG8="
         ++ String Base64.LF "d29ybGQ=")).
Proof.
  apply (base64Copy_stores_first_line (H := Demo.host) Demo.storage Demo.param
           "" "png" "aGVsbG8=" "d29ybGQ=" Demo.empty Wrapped.record
           (snd (base64Copy (H := Demo.host) Demo.storage Demo.param Wrapped.image Demo.empty))).
  - reflexivity.
  - discriminate.
  - reflexivity.
  - reflexivity.
  - apply result_eta. vm_compute. reflexivity.
Defined.

(** ** When an upload is stored *)

(** The directories that [mkdirs] looks at are above the entries it is
    asked about later. *)
Lemma file_above_insert_above m (k1 : list string) n done todo :
  (List.length k1 ≤ List.length done)%nat →
  Os.file_above (<[k1 := n]> m) done todo = Os.file_above m done todo.
Proof.
  revert done. induction todo as [|d todo IH]; intros done Hlen; [reflexivity|].
  cbn [Os.file_above]. destruct todo as [|d' todo]; [reflexivity|].
  rewrite lookup_insert_ne.
  - destruct (m !! (done ++ [d])%list) as [[]|]; try reflexivity;
      apply IH; rewrite length_app; cbn; lia.
  - intros Heq. apply (f_equal List.length) in Heq. rewrite length_app in Heq. cbn in Heq. lia.
Qed.

Lemma file_above_cons m done (d : string) rest :
  rest ≠ nil →
  Os.file_above m done (d :: rest)
  = match m !! (done ++ [d])%list with
    | Some (File _) => true
    | _ => Os.file_above m (done ++ [d])%list rest
    end.
Proof. destruct rest; [congruence | reflexivity]. Qed.

(** With no file on the way, [mkdirs] succeeds. *)
Lemma mkdirs_clear m done todo x :
  Os.file_above m done (todo ++ [x]) = false →
  ∃ m', Os.mkdirs m done todo = (m', None).
Proof.
  revert m done. induction todo as [|d todo IH]; intros m done Ha; [eexists; reflexivity|].
  cbn [Os.mkdirs]. cbn [app] in Ha.
  rewrite file_above_cons in Ha by (destruct todo; discriminate).
  destruct (m !! (done ++ [d])%list) as [[data|]|] eqn:Hk; [discriminate| |].
  - apply IH. exact Ha.
  - apply IH. rewrite file_above_insert_above by reflexivity. exact Ha.
Qed.

(** After a successful [mkdirs] the directory is there. *)
Lemma mkdirs_made m done todo m' :
  Os.mkdirs m done todo = (m', None) → todo ≠ nil →
  m' !! (done ++ todo)%list = Some Dir.
Proof.
  revert m done. induction todo as [|d todo IH]; intros m done Hm Hne; [congruence|].
  cbn [Os.mkdirs] in Hm.
  destruct (m !! (done ++ [d])%list) as [[data|]|] eqn:Hk; [discriminate| |].
  - destruct todo as [|d2 todo].
    + cbn in Hm. injection Hm as <-. exact Hk.
    + change (done ++ d :: d2 :: todo)%list with (done ++ [d] ++ d2 :: todo)%list.
      rewrite app_assoc. apply (IH _ _ Hm). discriminate.
  - destruct todo as [|d2 todo].
    + cbn in Hm. injection Hm as <-. apply lookup_insert_eq.
    + change (done ++ d :: d2 :: todo)%list with (done ++ [d] ++ d2 :: todo)%list.
      rewrite app_assoc. apply (IH _ _ Hm). discriminate.
Qed.

(** [mkdirs] changes no entry below or beside the directory. *)
Lemma mkdirs_other m done todo m' err (k : list string) :
  Os.mkdirs m done todo = (m', err) →
  (List.length (done ++ todo) < List.length k)%nat → m' !! k = m !! k.
Proof.
  revert m done. induction todo as [|d todo IH]; intros m done Hm Hlen; cbn in Hm.
  - injection Hm as <- _. reflexivity.
  - assert (Hlen' : (List.length ((done ++ [d]) ++ todo) < List.length k)%nat)
      by (rewrite <- app_assoc; exact Hlen).
    destruct (m !! (done ++ [d])%list) as [[]|] eqn:E.
    + injection Hm as <- _. reflexivity.
    + exact (IH _ _ Hm Hlen').
    + rewrite (IH _ _ Hm Hlen'). apply lookup_insert_ne.
      intros Heq. apply (f_equal List.length) in Heq.
      rewrite !length_app in *. cbn in *. lia.
Qed.

(** The files decide [file_above]. *)
Lemma file_above_files m m' done todo :
  (∀ (k : list string) data, m' !! k = Some (File data) ↔ m !! k = Some (File data)) →
  Os.file_above m' done todo = Os.file_above m done todo.
Proof.
  intros Hfiles. revert done. induction todo as [|d todo IH]; intros done; [reflexivity|].
  cbn [Os.file_above]. destruct todo as [|d' todo]; [reflexivity|].
  destruct (m' !! (done ++ [d])%list) as [[data|]|] eqn:E'.
  - apply Hfiles in E'. rewrite E'. reflexivity.
  - destruct (m !! (done ++ [d])%list) as [[data|]|] eqn:E; [|apply IH|apply IH].
    apply Hfiles in E. congruence.
  - destruct (m !! (done ++ [d])%list) as [[data|]|] eqn:E; [|apply IH|apply IH].
    apply Hfiles in E. congruence.
Qed.

Section Success.
Context `{Host}.

Lemma Stat_missing path w k :
  resolve path = Some k → k ≠ nil → Os.file_above (fs w) nil k = false →
  fs w !! k = None → Os.Stat path w = Fail ENOENT.
Proof.
  intros Hk Hne Ha Hnone. unfold Os.Stat. rewrite Hk, Ha, lookup_node_cons, Hnone by exact Hne.
  reflexivity.
Qed.

(** Writing where nothing is, in a directory. *)
Lemma write_with_fresh cond data r w k :
  resolve (PathAbs r) = Some k → k ≠ nil →
  Os.file_above (fs w) nil k = false →
  Os.lookup_node (fs w) (removelast k) = Some Dir →
  fs w !! k = None →
  write_with cond data None (r, w)
  = (Ok tt, (r, mkWorld (<[k := File data]> (fs w))
                         (trace w ++ [EvCreate (PathAbs r); EvWrite (PathAbs r) data]))).
Proof.
  intros Hk Hne Ha Hp Hnone. unfold write_with, remove_if. cbn [fst snd].
  rewrite (Stat_missing _ _ _ Hk Hne Ha Hnone).
  rewrite (create_write_file _ _ _ k); try assumption; [reflexivity|].
  rewrite Hnone. discriminate.
Qed.

(** With the directory resolved to the parent of the target, no file on
    the way, and the target not a directory (and in a directory, when it
    exists), [store] succeeds and the target holds the data. *)
Lemma store_succeeds s param cond data r0 w dir r1 k :
  removes_files cond →
  locate s param (r0, w) = (Ok dir, (r1, w)) →
  resolve (PathAbs r1) = Some k → k ≠ nil → resolve dir = Some (removelast k) →
  Os.file_above (fs w) nil k = false →
  fs w !! k ≠ Some Dir →
  (fs w !! k ≠ None → Os.lookup_node (fs w) (removelast k) = Some Dir) →
  ∃ w', store s param (write_with cond data None) (r0, w)
        = (Ok tt, (set_PathUri (public_uri s param (PathUri r1)) r1, w'))
        ∧ fs w' !! k = Some (File data).
Proof.
  intros Hcond Hl Hk Hne Hdir Ha Hnd Hparent.
  set (r2 := set_PathUri (public_uri s param (PathUri r1)) r1).
  assert (Hk2 : resolve (PathAbs r2) = Some k) by exact Hk.
  destruct (fs w !! k) as [[data0|]|] eqn:Hf; [|congruence|].
  - destruct (write_with_existing cond data r2 w k data0 Hcond Hk2 Hne Ha
                (Hparent ltac:(discriminate)) Hf) as (w' & Hw & Hfs).
    exists w'. split.
    + apply store_Ok. exists dir, r1, w. split; [exact Hl|]. split; [|exact Hw].
      rewrite ensureDirectory_run.
      rewrite (Stat_found _ _ k (File data0) Hk Ha); [reflexivity|].
      rewrite lookup_node_cons by exact Hne. exact Hf.
    + rewrite Hfs. apply lookup_insert_eq.
  - assert (Hsplit : k = (removelast k ++ [List.last k ""])%list) by (apply app_removelast_last, Hne).
    assert (Ha' : Os.file_above (fs w) nil (removelast k ++ [List.last k ""]) = false)
      by (rewrite <- Hsplit; exact Ha).
    destruct (mkdirs_clear _ _ _ _ Ha') as (m' & Hm).
    set (w1 := mkWorld m' (trace w ++ [EvMkdirAll dir])).
    assert (He : ensureDirectory dir (r1, w) = (Ok tt, (r1, w1))).
    { rewrite ensureDirectory_run, (Stat_missing _ _ _ Hk Hne Ha Hf).
      change (Os.IsNotExist ENOENT) with true. cbv iota.
      unfold Os.MkdirAll. rewrite Hdir, Hm. reflexivity. }
    assert (Hfiles : ∀ (k' : list string) d, m' !! k' = Some (File d) ↔ fs w !! k' = Some (File d))
      by (intros k' d; exact (mkdirs_files _ _ _ _ _ _ _ Hm)).
    assert (Ha1 : Os.file_above (fs w1) nil k = false)
      by (cbn [fs w1]; rewrite (file_above_files _ _ _ _ Hfiles); exact Ha).
    assert (Hf1 : fs w1 !! k = None).
    { cbn [fs w1]. rewrite (mkdirs_other _ _ _ _ _ k Hm); [exact Hf|].
      cbn [app]. rewrite Hsplit at 2. rewrite length_app. cbn. lia. }
    assert (Hp1 : Os.lookup_node (fs w1) (removelast k) = Some Dir).
    { cbn [fs w1]. destruct (removelast k) as [|d kd] eqn:E; [reflexivity|].
      cbn [Os.lookup_node]. apply (mkdirs_made _ nil _ _ Hm). discriminate. }
    eexists. split.
    + apply store_Ok. exists dir, r1, w1. split; [exact Hl|]. split; [exact He|].
      apply (write_with_fresh cond data r2 w1 k Hk2 Hne Ha1 Hp1 Hf1).
    + cbn [fs]. apply lookup_insert_eq.
Qed.

End Success.

(** ** The entries of clean paths on a Unix host *)

Lemma split_element e rest cur :
  forallb (fun c => negb (Ascii.eqb c Path.slash)) e = true →
  Unix.split (Bytes.of_list e ++ rest) cur = Unix.split rest (cur ++ Bytes.of_list e).
Proof.
  revert cur. induction e as [|c e IH]; intros cur He.
  - cbn [Bytes.of_list]. rewrite append_nil, append_empty_r. reflexivity.
  - cbn [forallb] in He. apply andb_true_iff in He. destruct He as [Hc He].
    apply negb_true_iff in Hc.
    cbn [Bytes.of_list]. rewrite append_cons. cbn [Unix.split]. rewrite Hc, (IH _ He).
    rewrite append_assoc. reflexivity.
Qed.

Lemma plain_no_slash e :
  plain e = true → forallb (fun c => negb (Ascii.eqb c Path.slash)) e = true.
Proof. destruct e as [|c e]; [discriminate|]. intros He. apply (plain_cons _ _ He). Qed.

Lemma of_list_nonempty e : e ≠ nil → Bytes.of_list e ≠ "".
Proof. destruct e; [congruence | discriminate]. Qed.

Lemma split_elements es :
  plains es → Unix.split (path_of es) "" = map Bytes.of_list es.
Proof.
  induction 1 as [|e es He Hes IH]; [reflexivity|].
  pose proof (of_list_nonempty e (plain_nonempty _ He)) as Hne.
  destruct es as [|e2 es].
  - unfold path_of. cbn [join_elements map].
    rewrite <- (append_empty_r (Bytes.of_list e)) at 1.
    rewrite (split_element e "" "" (plain_no_slash _ He)). rewrite append_nil.
    cbn [Unix.split]. destruct (Bytes.of_list e); [congruence | reflexivity].
  - change (e :: e2 :: es) with ([e] ++ e2 :: es)%list at 1.
    rewrite (path_of_app [e] (e2 :: es)) by discriminate.
    change (path_of [e]) with (Bytes.of_list e).
    rewrite (split_element e _ "" (plain_no_slash _ He)). rewrite append_nil.
    cbn [Unix.split]. rewrite Ascii.eqb_refl.
    destruct (Bytes.of_list e) eqn:E; [congruence|]. rewrite IH. cbn [map]. rewrite E. reflexivity.
Qed.

Lemma resolve_unix cwd es :
  plains es →
  resolve (Host := Unix.host cwd) ("/" ++ path_of es) = Some (map Bytes.of_list es).
Proof.
  intros Hes. cbn [resolve Unix.host]. unfold Unix.resolve.
  change ("/" ++ path_of es) with (String "/" (path_of es)).
  cbv iota. change (Unix.IsAbs (String "/" (path_of es))) with true. cbv iota.
  change (String "/" (path_of es)) with ("/" ++ path_of es).
  rewrite Clean_absolute by (apply plain_element, Hes). rewrite solid_id by exact Hes.
  change ("/" ++ path_of es) with (String "/" (path_of es)).
  cbn [Unix.split]. rewrite Ascii.eqb_refl. rewrite split_elements by exact Hes. reflexivity.
Qed.

Lemma map_snoc {A B : Type} (f : A → B) l x : map f (l ++ [x]) = (map f l ++ [f x])%list.
Proof. apply map_app. Qed.

(** On a Unix host with an absolute clean base directory: a record named
    before [locate], in a tree with no file on the way to its entry. *)
Lemma store_succeeds_unix cwd s param ds ss cond data r0 w :
  removes_files cond →
  (if nonempty (StorageDirectory param) then StorageDirectory param
   else storageDirectory s) = "/" ++ path_of ds →
  StorageSubDirectory param = path_of ss →
  plains ds → plains ss → plain (Bytes.to_list (Name r0)) = true →
  Os.file_above (fs w) nil (entry_of (ds ++ ss) (Name r0)) = false →
  fs w !! entry_of (ds ++ ss) (Name r0) ≠ Some Dir →
  (fs w !! entry_of (ds ++ ss) (Name r0) ≠ None →
   Os.lookup_node (fs w) (map Bytes.of_list (ds ++ ss)) = Some Dir) →
  ∃ r w', store (H := Unix.host cwd) s param
            (write_with (H := Unix.host cwd) cond data None) (r0, w)
          = (Ok tt, (r, w'))
          ∧ fs w' !! entry_of (ds ++ ss) (Name r0) = Some (File data)
          ∧ Name r = Name r0
          ∧ PathAbs r = "/" ++ path_of (ds ++ ss ++ [Bytes.to_list (Name r0)]).
Proof.
  intros Hcond Hbase Hsub Hds Hss Hn Ha Hnd Hparent.
  assert (Hname : Name r0 = Bytes.of_list (Bytes.to_list (Name r0)))
    by (rewrite of_to_list; reflexivity).
  pose proof (locate_unix cwd nil s param true ds ss _ r0 w
                ltac:(discriminate) Hbase Hsub Hds Hss Hn Hname) as Hl.
  cbn [app] in Hl.
  set (r1 := set_PathRlt _ _) in Hl.
  assert (Hentry : entry_of (ds ++ ss) (Name r0)
                   = map Bytes.of_list (ds ++ ss ++ [Bytes.to_list (Name r0)])).
  { unfold entry_of. rewrite app_assoc, map_snoc, of_to_list. reflexivity. }
  assert (Hk : resolve (Host := Unix.host cwd) (PathAbs r1)
               = Some (entry_of (ds ++ ss) (Name r0))).
  { rewrite Hentry. apply resolve_unix. repeat (apply Forall_app; split); try assumption.
    repeat constructor. exact Hn. }
  assert (Hlast : removelast (entry_of (ds ++ ss) (Name r0)) = map Bytes.of_list (ds ++ ss))
    by (unfold entry_of; apply removelast_last).
  destruct (store_succeeds (H := Unix.host cwd) s param cond data r0 w _ r1
              (entry_of (ds ++ ss) (Name r0)) Hcond Hl Hk) as (w' & Hst & Hf).
  - unfold entry_of. destruct (map Bytes.of_list (ds ++ ss)); discriminate.
  - rewrite Hlast. apply resolve_unix. apply Forall_app. split; assumption.
  - exact Ha.
  - exact Hnd.
  - rewrite Hlast. exact Hparent.
  - eexists _, w'. split; [exact Hst|]. split; [exact Hf|]. split; reflexivity.
Qed.

(** X21.  On a Unix host with an absolute clean base directory [/ds] and a
    clean sub-directory [ss]: an upload that can be opened, read and rewound
    is stored whenever no entry on the way to its target is a regular file
    and the target is not a directory (and lies in a directory, if it
    exists).  The missing directories are made, and the target then holds
    the bytes of the upload. *)
Theorem readable_upload_is_stored cwd s param ds ss file src w :
  (if nonempty (StorageDirectory param) then StorageDirectory param
   else storageDirectory s) = "/" ++ path_of ds →
  StorageSubDirectory param = path_of ss →
  Forall (fun e => plain e = true) ds →
  Forall (fun e => plain e = true) ss →
  Multipart.Open file = Ok src →
  IO.read_error (Multipart.reader src) = None →
  Multipart.seek_error src = None →
  Os.file_above (fs w) nil (entry_of (ds ++ ss) (Name (multipart_named file src))) = false →
  fs w !! entry_of (ds ++ ss) (Name (multipart_named file src)) ≠ Some Dir →
  (fs w !! entry_of (ds ++ ss) (Name (multipart_named file src)) ≠ None →
   Os.lookup_node (fs w) (map Bytes.of_list (ds ++ ss)) = Some Dir) →
  ∃ r w', multipartCopy (H := Unix.host cwd) s param file w = ((r, None), w')
          ∧ fs w' !! entry_of (ds ++ ss) (Name r)
            = Some (File (IO.data (Multipart.reader src)))
          ∧ Name r = Name (multipart_named file src)
          ∧ PathAbs r = "/" ++ path_of (ds ++ ss ++ [Bytes.to_list (Name r)]).
Proof.
  intros Hbase Hsub Hds Hss Ho Hre Hse Ha Hnd Hparent.
  assert (Hn : plain (Bytes.to_list (Name (multipart_named file src))) = true)
    by (apply name_plain, Ext_no_slash).
  destruct (store_succeeds_unix cwd s param ds ss multipart_cond
              (IO.data (Multipart.reader src)) (multipart_named file src) w
              multipart_cond_files Hbase Hsub Hds Hss Hn Ha Hnd Hparent)
    as (r & w' & Hst & Hf & Hname & Habs).
  exists r, w'. rewrite Hname. split; [|split; [exact Hf|split; [reflexivity | exact Habs]]].
  apply multipartCopy_store. exists src. auto.
Qed.

Lemma readable_upload_is_stored_witness :
  ∃ r w', multipartCopy (H := Unix.host "/srv/app") Demo.storage Demo.param Demo.upload Demo.empty
          = ((r, None), w')
          ∧ fs w' !! entry_of ([Bytes.to_list "data"]
                               ++ [Bytes.to_list "2024"; Bytes.to_list "01"; Bytes.to_list "01"])
                       (Name r)
            = Some (File (IO.data (Multipart.reader
                 {| Multipart.reader := IO.NewBuffer "hello"; Multipart.seek_error := None |})))
          ∧ Name r = Name (multipart_named Demo.upload
                 {| Multipart.reader := IO.NewBuffer "hello"; Multipart.seek_error := None |})
          ∧ PathAbs r
            = "/" ++ path_of ([Bytes.to_list "data"]
                               ++ [Bytes.to_list "2024"; Bytes.to_list "01"; Bytes.to_list "01"]
                               ++ [Bytes.to_list (Name r)]).
Proof.
  apply (readable_upload_is_stored "/srv/app" Demo.storage Demo.param
           [Bytes.to_list "data"]
           [Bytes.to_list "2024"; Bytes.to_list "01"; Bytes.to_list "01"]
           Demo.upload
           {| Multipart.reader := IO.NewBuffer "hello"; Multipart.seek_error := None |}
           Demo.empty).
  - reflexivity.
  - reflexivity.
  - repeat constructor.
  - repeat constructor.
  - reflexivity.
  - reflexivity.
  - reflexivity.
  - vm_compute. reflexivity.
  - cbn [fs Demo.empty]. rewrite lookup_empty. discriminate.
  - cbn [fs Demo.empty]. rewrite lookup_empty. congruence.
Defined.

(** X22.  On a Unix host with an absolute clean base directory and a clean
    sub-directory: a text of the pattern whose payload decodes is stored
    whenever no entry on the way to its target is a regular file and the
    target is not a directory (and lies in a directory, if it exists); the
    target then holds the decoded bytes. *)
Theorem decodable_image_is_stored cwd s param ds ss space subtype payload decoded w :
  (if nonempty (StorageDirectory param) then StorageDirectory param
   else storageDirectory s) = "/" ++ path_of ds →
  StorageSubDirectory param = path_of ss →
  Forall (fun e => plain e = true) ds →
  Forall (fun e => plain e = true) ss →
  all_bytes Regexp.is_space space = true →
  subtype ≠ "" → all_bytes Regexp.is_word subtype = true →
  all_bytes Regexp.not_newline payload = true →
  Base64.DecodeString payload = (decoded, None) →
  let content := "data:" ++ space ++ "image/" ++ subtype ++ ";base64," ++ payload in
  Os.file_above (fs w) nil (entry_of (ds ++ ss) (Name (base64_named content subtype))) = false →
  fs w !! entry_of (ds ++ ss) (Name (base64_named content subtype)) ≠ Some Dir →
  (fs w !! entry_of (ds ++ ss) (Name (base64_named content subtype)) ≠ None →
   Os.lookup_node (fs w) (map Bytes.of_list (ds ++ ss)) = Some Dir) →
  ∃ r w', base64Copy (H := Unix.host cwd) s param content w = ((r, None), w')
          ∧ fs w' !! entry_of (ds ++ ss) (Name r) = Some (File decoded)
          ∧ Name r = Name (base64_named content subtype)
          ∧ PathAbs r = "/" ++ path_of (ds ++ ss ++ [Bytes.to_list (Name r)]).
Proof.
  intros Hbase Hsub Hds Hss Hsp Hne Hw Hp Hd content Ha Hnd Hparent.
  assert (Hn : plain (Bytes.to_list (Name (base64_named content subtype))) = true).
  { apply (name_plain content ("." ++ subtype)).
    change ("." ++ subtype) with (String "." subtype). cbn [all_bytes].
    exact (all_bytes_impl _ _ _ word_no_slash Hw). }
  destruct (store_succeeds_unix cwd s param ds ss base64_cond decoded
              (base64_named content subtype) w
              base64_cond_files Hbase Hsub Hds Hss Hn Ha Hnd Hparent)
    as (r & w' & Hst & Hf & Hname & Habs).
  exists r, w'. rewrite Hname. split; [|split; [exact Hf|split; [reflexivity | exact Habs]]].
  apply base64Copy_store.
  pose proof (FindAllSubmatch_pattern space subtype payload "" Hsp Hne Hw Hp (or_introl eq_refl))
    as Hm.
  rewrite append_empty_r in Hm. eexists _, subtype, payload, decoded.
  split; [exact Hm|]. split; [exact Hd | exact Hst].
Qed.

Lemma decodable_image_is_stored_witness :
  ∃ r w', base64Copy (H := Unix.host "/srv/app") Demo.storage Demo.param
            ("data:" ++ "" ++ "image/" ++ "png" ++ ";base64," ++ "aGVsbG8=") Demo.empty
          = ((r, None), w')
          ∧ fs w' !! entry_of ([Bytes.to_list "data"]
                               ++ [Bytes.to_list "2024"; Bytes.to_list "01"; Bytes.to_list "01"])
                       (Name r)
            = Some (File "hello")
          ∧ Name r = Name (base64_named
                 ("data:" ++ "" ++ "image/" ++ "png" ++ ";base64," ++ "aGVsbG8=") "png")
          ∧ PathAbs r
            = "/" ++ path_of ([Bytes.to_list "data"]
                               ++ [Bytes.to_list "2024"; Bytes.to_list "01"; Bytes.to_list "01"]
                               ++ [Bytes.to_list (Name r)]).
Proof.
  apply (decodable_image_is_stored "/srv/app" Demo.storage Demo.param
           [Bytes.to_list "data"]
           [Bytes.to_list "2024"; Bytes.to_list "01"; Bytes.to_list "01"]
           "" "png" "aGVsbG8=" "hello" Demo.empty).
  - reflexivity.
  - reflexivity.
  - repeat constructor.
  - repeat constructor.
  - reflexivity.
  - discriminate.
  - reflexivity.
  - reflexivity.
  - reflexivity.
  - vm_compute. reflexivity.
  - cbn [fs Demo.empty]. rewrite lookup_empty. discriminate.
  - cbn [fs Demo.empty]. rewrite lookup_empty. congruence.
Defined.

(** ** The file system calls of one upload, in order *)

Section CallOrder.
Context `{Host}.

Lemma create_write_calls path data re w o w' :
  create_write path data re w = (o, w') →
  ∃ wr, trace w' = (trace w ++ EvCreate path :: wr)%list
        ∧ at_most (EvWrite path data) wr
        ∧ (o = Ok tt → wr = [EvWrite path data]).
Proof.
  unfold create_write. destruct (Os.Create path w) as [[dst|e] w1] eqn:Hc.
  - destruct (Create_Ok _ _ _ _ Hc) as (-> & _).
    destruct re; intros [= <- <-].
    + exists nil. rewrite (Create_trace _ _ _ _ Hc). split; [reflexivity|].
      split; [left; reflexivity | discriminate].
    + exists [EvWrite path data]. rewrite Write_trace, (Create_trace _ _ _ _ Hc), <- app_assoc.
      split; [reflexivity|]. split; [right; reflexivity | reflexivity].
  - intros [= <- <-]. exists nil. rewrite (Create_trace _ _ _ _ Hc). split; [reflexivity|].
    split; [left; reflexivity | discriminate].
Qed.

Lemma write_with_calls cond data re r w o r' w' :
  removes_files cond →
  write_with cond data re (r, w) = (o, (r', w')) →
  ∃ rm wr, trace w' = (trace w ++ rm ++ EvCreate (PathAbs r) :: wr)%list
           ∧ at_most (EvRemove (PathAbs r)) rm
           ∧ at_most (EvWrite (PathAbs r) data) wr
           ∧ (o = Ok tt → wr = [EvWrite (PathAbs r) data]).
Proof.
  intros Hcond. unfold write_with. cbn [fst snd].
  destruct (remove_if_cases (cond r) (PathAbs r) w (Hcond r))
    as [->|(k & d & _ & _ & _ & _ & ->)];
    destruct (create_write _ _ _ _) as [o2 w2] eqn:Hw; intros [= <- _ <-];
    destruct (create_write_calls _ _ _ _ _ _ Hw) as (wr & Ht & Hwr & Hok).
  - exists nil, wr. split; [exact Ht|]. split; [left; reflexivity|]. split; assumption.
  - exists [EvRemove (PathAbs r)], wr. cbn [trace] in Ht. rewrite Ht, <- app_assoc.
    split; [reflexivity|]. split; [right; reflexivity|]. split; assumption.
Qed.

Lemma store_calls s param cond data re r0 w r err w' :
  removes_files cond → PathAbs r0 = "" →
  finish (store s param (write_with cond data re) (r0, w)) = ((r, err), w') →
  ∃ mk rm cr wr,
    trace w' = (trace w ++ mk ++ rm ++ cr ++ wr)%list
    ∧ (mk = nil ∨ ∃ dir, mk = [EvMkdirAll dir])
    ∧ at_most (EvRemove (PathAbs r)) rm
    ∧ at_most (EvCreate (PathAbs r)) cr
    ∧ at_most (EvWrite (PathAbs r) data) wr
    ∧ (cr = nil → rm = nil ∧ wr = nil)
    ∧ (err = None → cr = [EvCreate (PathAbs r)] ∧ wr = [EvWrite (PathAbs r) data]).
Proof.
  intros Hcond H0. rewrite store_steps.
  assert (Hnone : ∀ tr mk, tr = (trace w ++ mk)%list →
    (mk = nil ∨ ∃ dir, mk = [EvMkdirAll dir]) → ∀ e : error,
    ∃ mk' rm cr wr,
      tr = (trace w ++ mk' ++ rm ++ cr ++ wr)%list
      ∧ (mk' = nil ∨ ∃ dir, mk' = [EvMkdirAll dir])
      ∧ at_most (EvRemove (PathAbs r)) rm
      ∧ at_most (EvCreate (PathAbs r)) cr
      ∧ at_most (EvWrite (PathAbs r) data) wr
      ∧ (cr = nil → rm = nil ∧ wr = nil)
      ∧ (Some e = None → cr = [EvCreate (PathAbs r)] ∧ wr = [EvWrite (PathAbs r) data])).
  { intros tr mk -> Hmk e. exists mk, nil, nil, nil. rewrite !app_nil_r.
    split; [reflexivity|]. split; [exact Hmk|].
    repeat (split; [left; reflexivity|]). split; [auto | discriminate]. }
  destruct (locate s param (r0, w)) as [[dir|e] [r1 w0]] eqn:Hl;
    destruct (locate_frame _ _ _ _ _ _ _ Hl) as (-> & _).
  2:{ cbn [finish]. intros [= _ <- <-].
      apply (Hnone _ nil); [rewrite app_nil_r; reflexivity | auto]. }
  destruct (ensureDirectory dir (r1, w)) as [[[]|e] [r2 w1]] eqn:He;
    destruct (ensureDirectory_frame _ _ _ _ _ _ He) as (-> & _).
  2:{ cbn [finish]. intros [= _ <- <-].
      rewrite ensureDirectory_run in He.
      destruct (Os.Stat (PathAbs r1) w) as [info|e0]; [discriminate|].
      destruct (Os.IsNotExist e0); [|discriminate].
      destruct (Os.MkdirAll dir w) as [[e1|] w2] eqn:Hm; [|discriminate].
      injection He as _ <-.
      apply (Hnone _ [EvMkdirAll dir]); [exact (proj1 (MkdirAll_frame _ _ _ _ Hm)) | eauto]. }
  assert (Hmk : ∃ mk, trace w1 = (trace w ++ mk)%list ∧ (mk = nil ∨ ∃ dir, mk = [EvMkdirAll dir])).
  { rewrite ensureDirectory_run in He.
    destruct (Os.Stat (PathAbs r1) w) as [info|e0].
    - injection He as <-. exists nil. rewrite app_nil_r. auto.
    - destruct (Os.IsNotExist e0).
      + destruct (Os.MkdirAll dir w) as [[e1|] w2] eqn:Hm; [discriminate|].
        injection He as <-. exists [EvMkdirAll dir].
        rewrite (proj1 (MkdirAll_frame _ _ _ _ Hm)). eauto.
      + injection He as <-. exists nil. rewrite app_nil_r. auto. }
  destruct Hmk as (mk & Hw1 & Hmk).
  set (r2 := set_PathUri (public_uri s param (PathUri r1)) r1).
  destruct (write_with cond data re (r2, w1)) as [o [r' w2]] eqn:Hw.
  pose proof (write_with_record _ _ _ _ _ _ _ Hw) as Hrec. cbn [fst] in Hrec. subst r'.
  destruct (write_with_calls _ _ _ _ _ _ _ _ Hcond Hw) as (rm & wr & Ht & Hrm & Hwr & Hok).
  intros Hfin.
  assert (Hr : r = r2 ∧ w' = w2 ∧ (err = None → o = Ok tt)).
  { destruct o as [[]|e]; cbn [finish] in Hfin; injection Hfin as <- <- <-;
      (split; [reflexivity|split; [reflexivity|]]); [reflexivity | discriminate]. }
  destruct Hr as (-> & -> & Herr).
  exists mk, rm, [EvCreate (PathAbs r2)], wr.
  split; [rewrite Ht, Hw1, <- !app_assoc; reflexivity|].
  split; [exact Hmk|]. split; [exact Hrm|]. split; [right; reflexivity|].
  split; [exact Hwr|]. split; [discriminate|].
  intros Hn. split; [reflexivity | exact (Hok (Herr Hn))].
Qed.

End CallOrder.

(** X23.  Whatever the outcome, one call of [multipartCopy] or [base64Copy]
    makes at most these file system calls, in this order: one [MkdirAll],
    one [Remove] of the target, one [Create] of the target, one write to
    it.  Nothing but the target is ever removed, nothing is written that was
    not created by the call, and a call without error has created and
    written the target. *)
Theorem calls_in_order `{Host} s param w r err w' :
  (∃ file, multipartCopy s param file w = ((r, err), w'))
  ∨ (∃ content, base64Copy s param content w = ((r, err), w')) →
  ∃ mk rm cr wr data,
    trace w' = (trace w ++ mk ++ rm ++ cr ++ wr)%list
    ∧ (mk = nil ∨ ∃ dir, mk = [EvMkdirAll dir])
    ∧ at_most (EvRemove (PathAbs r)) rm
    ∧ at_most (EvCreate (PathAbs r)) cr
    ∧ at_most (EvWrite (PathAbs r) data) wr
    ∧ (cr = nil → rm = nil ∧ wr = nil)
    ∧ (err = None → cr = [EvCreate (PathAbs r)] ∧ wr = [EvWrite (PathAbs r) data]).
Proof.
  intros Hrun.
  destruct (copy_cases _ _ _ _ _ _ Hrun)
    as [(_ & -> & e & ->)|(cond & data & re & r0 & Hcond & H0 & Hst)].
  - exists nil, nil, nil, nil, "". rewrite !app_nil_r.
    split; [reflexivity|]. split; [auto|].
    repeat (split; [left; reflexivity|]). split; [auto | discriminate].
  - destruct (store_calls _ _ _ _ _ _ _ _ _ _ Hcond H0 Hst) as (mk & rm & cr & wr & Hrest).
    exists mk, rm, cr, wr, data. exact Hrest.
Qed.

Lemma calls_in_order_witness :
  ∃ mk rm cr wr data,
    trace (snd demo_again) = (trace (snd demo_stored) ++ mk ++ rm ++ cr ++ wr)%list
    ∧ (mk = nil ∨ ∃ dir, mk = [EvMkdirAll dir])
    ∧ at_most (EvRemove (PathAbs Demo.record)) rm
    ∧ at_most (EvCreate (PathAbs Demo.record)) cr
    ∧ at_most (EvWrite (PathAbs Demo.record) data) wr
    ∧ (cr = nil → rm = nil ∧ wr = nil)
    ∧ (@None error = None → cr = [EvCreate (PathAbs Demo.record)]
                            ∧ wr = [EvWrite (PathAbs Demo.record) data]).
Proof.
  apply (calls_in_order (H := Demo.host) Demo.storage Demo.param (snd demo_stored)
           Demo.record None (snd demo_again)).
  left. exists Demo.upload. apply result_eta. vm_compute. reflexivity.
Defined.

(** ** The record and the file *)

(** X24.  For a header as the multipart parser builds it, the record of a
    successful [multipartCopy] describes the file on disk: [Size] is the
    number of its bytes, [Hash] the digest of its bytes, and [Name] the
    digest followed by the extension of the original name. *)
Theorem multipartCopy_record_matches_file `{Host} s param file w r w' :
  Multipart.parsed file →
  multipartCopy s param file w = ((r, None), w') →
  ∃ data, Os.ReadFile (PathAbs r) w' = Some data
    ∧ Size r = Bytes.len data
    ∧ Hash r = Hex.EncodeToString (Sha256.Sum256 data)
    ∧ Name r = Hash r ++ Path.Ext (OriginName r).
Proof.
  intros Hp Hrun.
  destruct (multipartCopy_stored _ _ _ _ _ _ Hrun) as (src & Ho & Hrd & Hh & He & Hn & Hs & Hon).
  unfold Multipart.parsed in Hp. rewrite Ho in Hp.
  exists (IO.data (Multipart.reader src)).
  split; [exact Hrd|]. split; [congruence|]. split; [exact Hh|].
  rewrite Hn, He, Hon. reflexivity.
Qed.

Lemma multipartCopy_record_matches_file_witness :
  ∃ data, Os.ReadFile (H := Demo.host) (PathAbs Demo.record) (snd demo_stored) = Some data
    ∧ Size Demo.record = Bytes.len data
    ∧ Hash Demo.record = Hex.EncodeToString (Sha256.Sum256 data)
    ∧ Name Demo.record = Hash Demo.record ++ Path.Ext (OriginName Demo.record).
Proof.
  apply (multipartCopy_record_matches_file (H := Demo.host) Demo.storage Demo.param
           Demo.upload Demo.empty Demo.record (snd demo_stored)).
  - reflexivity.
  - apply result_eta. vm_compute. reflexivity.
Defined.

(** ** Storing the same image again *)

Section StoredAgain.
Context `{Host}.

(** Writing over a file that the condition lets remove. *)
Lemma write_with_replaces cond data r w k data0 :
  removes_files cond →
  resolve (PathAbs r) = Some k → k ≠ nil →
  Os.file_above (fs w) nil k = false →
  Os.lookup_node (fs w) (removelast k) = Some Dir →
  fs w !! k = Some (File data0) →
  cond r {| Os.Size := Bytes.len data0; Os.IsDir := false |} = true →
  write_with cond data None (r, w)
  = (Ok tt, (r, mkWorld (<[k := File data]> (fs w))
                         (trace w ++ [EvRemove (PathAbs r); EvCreate (PathAbs r);
                                      EvWrite (PathAbs r) data]))).
Proof.
  intros Hcond Hk Hne Ha Hp Hf Hc. unfold write_with, remove_if. cbn [fst snd].
  assert (Hn : Os.lookup_node (fs w) k = Some (File data0))
    by (rewrite lookup_node_cons; assumption).
  rewrite (Stat_found _ _ _ _ Hk Ha Hn), Hc, (Remove_file _ _ _ _ Hk Ha Hf).
  rewrite (create_write_file _ _ _ k); cbn [fs trace]; try assumption.
  - rewrite insert_delete_eq, <- app_assoc. reflexivity.
  - rewrite file_above_delete by reflexivity. exact Ha.
  - rewrite lookup_node_delete_parent by exact Hne. exact Hp.
  - rewrite lookup_delete_eq. discriminate.
Qed.

End StoredAgain.

(** X25.  Storing the same image text a second time returns the same record
    and leaves the tree as the first call left it; the second call makes no
    directory: it removes the file, creates it and writes the decoded bytes
    again. *)
Theorem base64Copy_again `{Host} s param content w r1 w1 :
  base64Copy s param content w = ((r1, None), w1) →
  ∃ w2 decoded,
    base64Copy s param content w1 = ((r1, None), w2)
    ∧ fs w2 = fs w1
    ∧ Os.ReadFile (PathAbs r1) w2 = Some decoded
    ∧ trace w2 = (trace w1 ++ [EvRemove (PathAbs r1); EvCreate (PathAbs r1);
                               EvWrite (PathAbs r1) decoded])%list.
Proof.
  intros Hrun. apply base64Copy_store in Hrun.
  destruct Hrun as (whole & subtype & payload & ic & Hm & Hd & Hst).
  destruct (store_with_Ok _ _ _ _ _ _ _ _ _ base64_cond_files Hst)
    as (dir & ra & wa & k & Hl & He & Hr1 & _ & Hk & Hne & Ha & Hp & Hnd & Hf & Hrd).
  destruct (locate_frame _ _ _ _ _ _ _ Hl) as (_ & _ & Hlw & _).
  assert (Habs : PathAbs r1 = PathAbs ra) by (rewrite Hr1; reflexivity).
  assert (Ha1 : Os.file_above (fs w1) nil k = false)
    by (rewrite Hf, file_above_insert by reflexivity; exact Ha).
  assert (Hp1 : Os.lookup_node (fs w1) (removelast k) = Some Dir)
    by (rewrite Hf, lookup_node_insert_parent by exact Hne; exact Hp).
  assert (Hf1 : fs w1 !! k = Some (File ic)) by (rewrite Hf; apply lookup_insert_eq).
  pose proof (write_with_replaces base64_cond ic r1 w1 k ic base64_cond_files
                Hk Hne Ha1 Hp1 Hf1 eq_refl) as Hw.
  eexists _, ic. split; [|split; [|split]].
  - apply base64Copy_store. exists whole, subtype, payload, ic.
    split; [exact Hm|]. split; [exact Hd|].
    apply store_Ok. exists dir, ra, w1. split; [apply Hlw|]. split.
    + rewrite ensureDirectory_run, <- Habs.
      rewrite (Stat_found _ _ k (File ic)); [reflexivity | exact Hk | exact Ha1 |].
      rewrite lookup_node_cons by exact Hne. exact Hf1.
    + rewrite <- Hr1. exact Hw.
  - cbn [fs]. apply insert_id. exact Hf1.
  - apply (ReadFile_insert _ _ _ _ _ Hk).
  - reflexivity.
Qed.

Lemma base64Copy_again_witness :
  ∃ w2 decoded,
    base64Copy (H := Demo.host) Demo.storage Demo.param Demo.image (snd demo_image_stored)
    = ((Demo.image_record, None), w2)
    ∧ fs w2 = fs (snd demo_image_stored)
    ∧ Os.ReadFile (H := Demo.host) (PathAbs Demo.image_record) w2 = Some decoded
    ∧ trace w2 = (trace (snd demo_image_stored)
                  ++ [EvRemove (PathAbs Demo.image_record); EvCreate (PathAbs Demo.image_record);
                      EvWrite (PathAbs Demo.image_record) decoded])%list.
Proof.
  apply (base64Copy_again (H := Demo.host) Demo.storage Demo.param Demo.image Demo.empty
           Demo.image_record (snd demo_image_stored)).
  apply result_eta. vm_compute. reflexivity.
Defined.
